(** * The SiYuan SQL index (kernel/sql/database.go): a shallow embedding

    The development follows the Go source function by function.

    - [GoStrings]: the few functions of Go's [strings] and [unicode/utf8]
      packages the source calls, on byte strings.
    - [Ast]: the document tree handed over by the parser, and [ast.Walk].
    - [Extraction]: [refsFromTree], [buildAttributeFromNode],
      [buildBlockFromNode], [nSort], [isAttr].
    - [Sqlite]: the relational store, statement by statement.
    - [Store]: the package state (handles, transaction, files), the
      lifecycle functions and the mutating functions.
    - [Template]: [SQLTemplateFuncs].

    Go [string]s are byte strings; they are Rocq [string]s here, one [ascii]
    per byte.  Go [int]s are [Z]. *)

From Stdlib Require Import Ascii String ZArith Lia.
From stdpp Require Import base decidable option list strings gmap fin_maps.

Local Open Scope string_scope.
Local Open Scope Z_scope.
Local Open Scope list_scope.

(* ===================================================================== *)
(** ** Go's [strings] and [unicode/utf8], as far as the source uses them  *)
(* ===================================================================== *)

Module GoStrings.

(** [len(s)] *)
Definition len (s : string) : Z := Z.of_nat (String.length s).

(** [s[n:]] and [s[:n]] for an index within bounds. *)
Fixpoint drop_bytes (n : nat) (s : string) : string :=
  match n, s with
  | O, _ => s
  | S _, EmptyString => EmptyString
  | S k, String _ s' => drop_bytes k s'
  end.

Fixpoint take_bytes (n : nat) (s : string) : string :=
  match n, s with
  | O, _ => EmptyString
  | S _, EmptyString => EmptyString
  | S k, String c s' => String c (take_bytes k s')
  end.

Definition slice_to (s : string) (hi : Z) : string := take_bytes (Z.to_nat hi) s.
Definition slice_from (s : string) (lo : Z) : string := drop_bytes (Z.to_nat lo) s.

(** [strings.HasPrefix(s, prefix)] *)
Fixpoint HasPrefix (s prefix : string) {struct prefix} : bool :=
  match prefix with
  | EmptyString => true
  | String p prefix' =>
      match s with
      | EmptyString => false
      | String c s' => if Ascii.eqb c p then HasPrefix s' prefix' else false
      end
  end.

(** [strings.Index(s, substr)]: the first byte offset at which [substr]
    occurs, or -1. *)
Fixpoint Index_from (i : Z) (s substr : string) : Z :=
  if HasPrefix s substr then i
  else match s with
       | EmptyString => -1
       | String _ s' => Index_from (i + 1) s' substr
       end.

Definition Index (s substr : string) : Z := Index_from 0 s substr.

(** [strings.Contains(s, substr)] is [Index(s, substr) >= 0]. *)
Definition Contains (s substr : string) : bool := 0 <=? Index s substr.

(** [strings.LastIndex(s, substr)]: the last byte offset at which
    [substr] occurs, or -1. *)
Fixpoint LastIndex_from (i last : Z) (s substr : string) : Z :=
  let last' := if HasPrefix s substr then i else last in
  match s with
  | EmptyString => last'
  | String _ s' => LastIndex_from (i + 1) last' s' substr
  end.

Definition LastIndex (s substr : string) : Z := LastIndex_from 0 (-1) s substr.

(** [strings.Replace(s, old, new, 1)]: the first occurrence of [old] is
    replaced; [s] is returned as it is when [old] does not occur. *)
Fixpoint Replace1 (s old new : string) : string :=
  if HasPrefix s old then new +:+ drop_bytes (String.length old) s
  else match s with
       | EmptyString => EmptyString
       | String c s' => String c (Replace1 s' old new)
       end.

(** [strings.ReplaceAll(s, old, new)] for a non-empty [old] (the source
    calls it with the three bytes of the zero-width space): the
    non-overlapping occurrences are replaced from left to right.  [skip]
    counts the bytes of an occurrence still to be passed over. *)
Fixpoint ReplaceAll_skip (skip : nat) (s old new : string) : string :=
  match s with
  | EmptyString => EmptyString
  | String c s' =>
      match skip with
      | S k => ReplaceAll_skip k s' old new
      | O =>
          if HasPrefix s old
          then new +:+ ReplaceAll_skip (String.length old - 1) s' old new
          else String c (ReplaceAll_skip 0 s' old new)
      end
  end.

Definition ReplaceAll (s old new : string) : string := ReplaceAll_skip 0 s old new.

(** *** [utf8.RuneCountInString]

    The decoder of Go's [unicode/utf8]: [first] gives, for a leading
    byte, the length of the sequence and the accepted range of its
    second byte; an ill-formed sequence counts as one rune of width 1. *)

Definition byte_of (c : ascii) : Z := Z.of_nat (nat_of_ascii c).

Definition locb : Z := 128. (* 0b10000000 *)
Definition hicb : Z := 191. (* 0b10111111 *)

(** [Some (size, lo, hi)], or [None] for the entries marked [xx]. *)
Definition first (c : Z) : option (nat * Z * Z) :=
  if c <? 128 then Some (1%nat, 0, 0)                 (* as *)
  else if c <? 194 then None                         (* 0x80-0xC1: xx *)
  else if c <? 224 then Some (2%nat, locb, hicb)     (* 0xC2-0xDF: s1 *)
  else if c =? 224 then Some (3%nat, 160, hicb)      (* 0xE0: s2 *)
  else if c <? 237 then Some (3%nat, locb, hicb)     (* 0xE1-0xEC: s3 *)
  else if c =? 237 then Some (3%nat, locb, 159)      (* 0xED: s4 *)
  else if c <? 240 then Some (3%nat, locb, hicb)     (* 0xEE-0xEF: s3 *)
  else if c =? 240 then Some (4%nat, 144, hicb)      (* 0xF0: s5 *)
  else if c <? 244 then Some (4%nat, locb, hicb)     (* 0xF1-0xF3: s6 *)
  else if c =? 244 then Some (4%nat, locb, 143)      (* 0xF4: s7 *)
  else None.                                         (* 0xF5-0xFF: xx *)

Definition is_cont (c : Z) : bool := (locb <=? c) && (c <=? hicb).

(** The number of bytes the loop body advances by at the head of [s]. *)
Definition rune_width (s : string) : nat :=
  match s with
  | EmptyString => 0%nat
  | String c rest =>
      if byte_of c <? 128 then 1%nat
      else match first (byte_of c) with
           | None => 1%nat
           | Some (size, lo, hi) =>
               if (String.length s <? size)%nat then 1%nat
               else match rest with
                    | EmptyString => 1%nat
                    | String c1 rest1 =>
                        if (byte_of c1 <? lo) || (hi <? byte_of c1) then 1%nat
                        else if (size =? 2)%nat then 2%nat
                        else match rest1 with
                             | EmptyString => 1%nat
                             | String c2 rest2 =>
                                 if negb (is_cont (byte_of c2)) then 1%nat
                                 else if (size =? 3)%nat then 3%nat
                                 else match rest2 with
                                      | EmptyString => 1%nat
                                      | String c3 _ =>
                                          if negb (is_cont (byte_of c3)) then 1%nat
                                          else 4%nat
                                      end
                             end
                    end
           end
  end.

(** [for i := 0; i < ns; n++ { ... i += size }].  Every turn of the loop
    advances by at least one byte, so [length s] turns are enough. *)
Fixpoint RuneCount_loop (turns : nat) (s : string) : Z :=
  match turns with
  | O => 0
  | S k =>
      match s with
      | EmptyString => 0
      | _ => 1 + RuneCount_loop k (drop_bytes (rune_width s) s)
      end
  end.

Definition RuneCountInString (s : string) : Z := RuneCount_loop (String.length s) s.

(** [editor.Zwsp], U+200B, in UTF-8: E2 80 8B. *)
Definition Zwsp : string :=
  String (ascii_of_nat 226) (String (ascii_of_nat 128) (String (ascii_of_nat 139) EmptyString)).

End GoStrings.

(* ===================================================================== *)
(** ** The document tree ([lute/ast]) as far as the source reads it       *)
(* ===================================================================== *)

Module Ast.

(** [ast.NodeType]: the node types the source names; [NodeOther k]
    stands for every other value of the enumeration. *)
Inductive NodeType :=
| NodeDocument | NodeParagraph | NodeHeading | NodeBlockquote
| NodeList | NodeListItem | NodeHTMLBlock | NodeInlineHTML
| NodeCodeBlock | NodeMathBlock | NodeTable | NodeSuperBlock
| NodeAttributeView | NodeText | NodeTextMark | NodeImage
| NodeLinkDest | NodeLinkTitle | NodeKramdownBlockIAL | NodeKramdownSpanIAL
| NodeBlockQueryEmbed | NodeIFrame | NodeWidget | NodeAudio | NodeVideo
| NodeOther (k : Z).

#[global] Instance NodeType_eq_dec : EqDecision NodeType.
Proof. solve_decision. Defined.

(** [ast.WalkStatus], an [int]: the walker's verdict on a node. *)
Definition WalkStatus := Z.
Definition WalkStop : WalkStatus := 0.
Definition WalkSkipChildren : WalkStatus := 1.
Definition WalkContinue : WalkStatus := 2.

(** The fields of [ast.Node] the source reads. *)
Record NodeData := {
  Type_ : NodeType;
  ID : string;
  Tokens : string;
  KramdownIAL : list (string * string);
  TextMarkType : string;
  TextMarkAHref : string;
  TextMarkTextContent : string;
  TextMarkBlockRefID : string;
  TextMarkFileAnnotationRefID : string
}.

(** A node with its children, first child first.  The [Parent] and
    [Previous] pointers of the Go structure are not stored: a function
    that follows them takes the list of the node's ancestors, nearest
    first, which the walk maintains. *)
#[warnings="-register-all"]
Inductive Node := MkNode (data : NodeData) (children : list Node).

Definition data (n : Node) : NodeData := let 'MkNode d _ := n in d.
Definition Children (n : Node) : list Node := let 'MkNode _ cs := n in cs.

(** [n.Parent], [nil] at the root. *)
Definition Parent (ancestors : list Node) : option Node := head ancestors.

(** [parse.Tree] *)
Record Tree := {
  Root : Node;
  TreeID : string;     (* tree.ID *)
  Box : string;
  Path : string;
  HPath : string
}.

(** [strings.Split(s, sep)] for a one-byte separator. *)
Fixpoint split_on (sep : ascii) (cur : string) (s : string) : list string :=
  match s with
  | EmptyString => [String.rev cur]
  | String c s' =>
      if Ascii.eqb c sep then String.rev cur :: split_on sep EmptyString s'
      else split_on sep (String c cur) s'
  end.

(** [n.IsTextMarkType(typ)]: only a text mark has text-mark types, the
    space-separated words of [TextMarkType]. *)
Definition IsTextMarkType (n : Node) (typ : string) : bool :=
  if decide (Type_ (data n) = NodeTextMark)
  then existsb (String.eqb typ) (split_on " "%char EmptyString (TextMarkType (data n)))
  else false.

(** [n.IALAttr(name)]: the value of the first pair of that name, or the
    empty string. *)
Fixpoint IALAttr_in (ial : list (string * string)) (name : string) : string :=
  match ial with
  | [] => ""
  | (k, v) :: ial' => if String.eqb name k then v else IALAttr_in ial' name
  end.

Definition IALAttr (n : Node) (name : string) : string :=
  IALAttr_in (KramdownIAL (data n)) name.

(** [parse.IAL2Map]: [ret[kv[0]] = kv[1]] for each pair in turn, a later
    pair overwriting an earlier one of the same name. *)
Definition IAL2Map (ial : list (string * string)) : gmap string string :=
  fold_left (fun m kv => <[kv.1 := kv.2]> m) ial ∅.

(** *** [ast.Walk]

    Depth first: the walker is called on entering a node, then the
    children are walked unless it answered [WalkSkipChildren], then the
    walker is called again on leaving.  A [WalkStop] on entering returns
    from this node at once.  The walker threads a state [S] (the
    variables its closure captures) and may panic ([None]). *)
Section Walk.
Context {S : Type}.
Variable walker : list Node -> Node -> bool -> S -> option (WalkStatus * S).

Fixpoint Walk (ancestors : list Node) (n : Node) (s : S) : option S :=
  match walker ancestors n true s with
  | None => None
  | Some (status, s1) =>
      if status =? WalkStop then Some s1
      else
        let after_children :=
          if status =? WalkSkipChildren then Some s1
          else
            (fix walk_children (cs : list Node) (s : S) : option S :=
               match cs with
               | [] => Some s
               | c :: cs' =>
                   match Walk (n :: ancestors) c s with
                   | None => None
                   | Some s' => walk_children cs' s'
                   end
               end) (Children n) s1 in
        match after_children with
        | None => None
        | Some s2 =>
            match walker ancestors n false s2 with
            | None => None
            | Some (_, s3) => Some s3
            end
        end
  end.

(** The loop over the children, as a function of its own. *)
Fixpoint WalkChildren (ancestors : list Node) (cs : list Node) (s : S) : option S :=
  match cs with
  | [] => Some s
  | c :: cs' =>
      match Walk ancestors c s with
      | None => None
      | Some s' => WalkChildren ancestors cs' s'
      end
  end.
End Walk.

End Ast.

(* ===================================================================== *)
(** ** The entities of the index                                          *)
(* ===================================================================== *)

Module Block.
Record t := {
  ID : string; ParentID : string; RootID : string; Hash : string;
  Box : string; Path : string; HPath : string;
  Name : string; Alias : string; Memo : string; Tag : string;
  Content : string; FContent : string; Markdown : string;
  Length : Z; Type_ : string; SubType : string; IAL : string;
  Sort : Z; Created : string; Updated : string
}.
End Block.

Module Span.
Record t := {
  ID : string; BlockID : string; RootID : string; Box : string; Path : string;
  Content : string; Markdown : string; Type_ : string; IAL : string
}.
End Span.

Module Asset.
Record t := {
  ID : string; BlockID : string; RootID : string; Box : string;
  DocPath : string; Path : string; Name : string; Title : string; Hash : string
}.
End Asset.

Module Attribute.
Record t := {
  ID : string; Name : string; Value : string; Type_ : string;
  BlockID : string; RootID : string; Box : string; Path : string
}.
End Attribute.

Module Ref.
Record t := {
  ID : string; DefBlockID : string; DefBlockParentID : string;
  DefBlockRootID : string; DefBlockPath : string;
  BlockID : string; RootID : string; Box : string; Path : string;
  Content : string; Markdown : string; Type_ : string
}.
End Ref.

Module FileAnnotationRef.
Record t := {
  ID : string; FilePath : string; AnnotationID : string;
  BlockID : string; RootID : string; Box : string; Path : string;
  Content : string; Type_ : string
}.
End FileAnnotationRef.

(** [treenode.BlockTree], the entry of the block-location index. *)
Module BlockTree.
Record t := { ID : string; ParentID : string; RootID : string; Path : string }.
End BlockTree.

(* ===================================================================== *)
(** ** Extraction: from a tree to entities                                *)
(* ===================================================================== *)

Module Extraction.
Import GoStrings Ast.

(** What the extraction calls outside [database.go]: methods of the
    parser library and functions of the packages [treenode], [util] and
    [sql].  Their code is not part of the file under study; every result
    below holds for any implementation of them. *)
Class Collaborators := {
  (* lute *)
  IsBlock : Node -> bool;                       (* n.IsBlock() *)
  IsContainerBlock : Node -> bool;              (* n.IsContainerBlock() *)
  NodeTypeString : NodeType -> string;          (* n.Type.String() *)
  IALValMap : Node -> gmap string string;       (* parse.IALValMap(n) *)
  UnescapeString : string -> string;            (* html.UnescapeString *)
  NodeContent : Node -> string;                 (* n.Content() *)
  TrimSpace : string -> string;                 (* strings.TrimSpace *)
  node_id : nat -> string;                      (* the k-th value of ast.NewNodeID() *)
  (* kernel/treenode *)
  IsBlockRef : Node -> bool;
  IsFileAnnotationRef : Node -> bool;
  IsEmbedBlockRef : Node -> bool;
  ParentBlock : list Node -> Node -> option Node;
  GetBlockRef : Node -> string * string * string;
  GetEmbedBlockRef : Node -> string;
  GetBlockTree : string -> option BlockTree.t;
  ExportNodeStdMd : Node -> string;
  TypeAbbr : string -> string;
  SubTypeAbbr : Node -> string;
  IALStr : Node -> string;
  NodeHash : Node -> Tree -> string;
  IsNodeOCRed : Node -> bool;
  FirstLeafBlock : Node -> Node;
  HeadingParent : list Node -> Node -> option Node;
  (* kernel/util *)
  TimeFromID : string -> string;
  (* kernel/sql, block rendering *)
  NodeStaticContent : Node -> list string -> bool -> bool -> bool -> string
}.

(** The state the extraction functions share: the supply of fresh node
    identifiers and the queue [util.PushNodeOCRQueue] appends to. *)
Record XState := { next_id : nat; ocr_queue : list Node }.

(** A computation reads and writes that state and may panic (a [nil]
    pointer dereferenced): [None]. *)
Definition X (A : Type) : Type := XState -> option (A * XState).

Definition ret {A} (a : A) : X A := fun st => Some (a, st).
Definition bind {A B} (m : X A) (k : A -> X B) : X B :=
  fun st => match m st with
            | None => None
            | Some (a, st') => k a st'
            end.
Definition panic {A} : X A := fun _ => None.

Declare Scope x_scope.
Delimit Scope x_scope with X.
Notation "x <- m ;; k" := (bind m (fun x => k))
  (at level 100, m at next level, right associativity) : x_scope.
Local Open Scope x_scope.

(** [p.ID] for a pointer [p] that may be [nil]. *)
Definition deref_ID (p : option Node) : X string :=
  match p with
  | Some n => ret (ID (data n))
  | None => panic
  end.

Section WithCollaborators.
Context `{Collaborators}.

(** The package variable [indexAssetPath]. *)
Variable indexAssetPath : bool.

Definition NewNodeID : X string :=
  fun st => Some (node_id (next_id st),
                  {| next_id := Datatypes.S (next_id st); ocr_queue := ocr_queue st |}).

Definition PushNodeOCRQueue (n : Node) : X unit :=
  fun st => Some (tt, {| next_id := next_id st; ocr_queue := ocr_queue st ++ [n] |}).

Definition set_TextMarkType (n : Node) (typ : string) : Node :=
  let d := data n in
  MkNode {| Type_ := Type_ d; ID := ID d; Tokens := Tokens d;
            KramdownIAL := KramdownIAL d; TextMarkType := typ;
            TextMarkAHref := TextMarkAHref d;
            TextMarkTextContent := TextMarkTextContent d;
            TextMarkBlockRefID := TextMarkBlockRefID d;
            TextMarkFileAnnotationRefID := TextMarkFileAnnotationRefID d |}
         (Children n).

(** [isRepeatedRef] *)
Fixpoint isRepeatedRef (refs : list Ref.t) (ref : Ref.t) : bool :=
  match refs with
  | [] => false
  | r :: refs' =>
      if String.eqb (Ref.DefBlockID r) (Ref.DefBlockID ref)
         && String.eqb (Ref.BlockID r) (Ref.BlockID ref)
      then true
      else isRepeatedRef refs' ref
  end.

(** [buildRef].  The text-mark type is set to ["block-ref"] for the
    rendering only and restored afterwards. *)
Definition buildRef (tree : Tree) (ancestors : list Node) (refNode : Node) : X Ref.t :=
  let markdown := ExportNodeStdMd (set_TextMarkType refNode "block-ref") in
  let '(defBlockID, text, _) := GetBlockRef refNode in
  let defBlock := GetBlockTree defBlockID in
  let defBlockParentID := from_option BlockTree.ParentID "" defBlock in
  let defBlockRootID := from_option BlockTree.RootID "" defBlock in
  let defBlockPath := from_option BlockTree.Path "" defBlock in
  let parentBlock := ParentBlock ancestors refNode in
  id <- NewNodeID ;;
  blockID <- deref_ID parentBlock ;;
  ret {| Ref.ID := id;
         Ref.DefBlockID := defBlockID;
         Ref.DefBlockParentID := defBlockParentID;
         Ref.DefBlockRootID := defBlockRootID;
         Ref.DefBlockPath := defBlockPath;
         Ref.BlockID := blockID;
         Ref.RootID := TreeID tree;
         Ref.Box := Box tree;
         Ref.Path := Path tree;
         Ref.Content := text;
         Ref.Markdown := markdown;
         Ref.Type_ := TypeAbbr (NodeTypeString (Type_ (data refNode))) |}.

(** [getEmbedRef] *)
Definition getEmbedRef (embedNode : Node) : string := GetEmbedBlockRef embedNode.

(** [buildEmbedRef] *)
Definition buildEmbedRef (tree : Tree) (embedNode : Node) : X Ref.t :=
  let defBlockID := getEmbedRef embedNode in
  let defBlock := GetBlockTree defBlockID in
  let defBlockParentID := from_option BlockTree.ParentID "" defBlock in
  let defBlockRootID := from_option BlockTree.RootID "" defBlock in
  let defBlockPath := from_option BlockTree.Path "" defBlock in
  id <- NewNodeID ;;
  ret {| Ref.ID := id;
         Ref.DefBlockID := defBlockID;
         Ref.DefBlockParentID := defBlockParentID;
         Ref.DefBlockRootID := defBlockRootID;
         Ref.DefBlockPath := defBlockPath;
         Ref.BlockID := ID (data embedNode);
         Ref.RootID := TreeID tree;
         Ref.Box := Box tree;
         Ref.Path := Path tree;
         Ref.Content := "";
         Ref.Markdown := "";
         Ref.Type_ := TypeAbbr (NodeTypeString (Type_ (data embedNode))) |}.

(** The variables the walker of [refsFromTree] captures: the two
    result slices, next to the shared state. *)
Definition RefsState : Type := (list Ref.t * list FileAnnotationRef.t) * XState.

(** [refs = append(refs, ref)] unless [ref] repeats an edge. *)
Definition add_ref (refs : list Ref.t) (ref : Ref.t) : list Ref.t :=
  if negb (isRepeatedRef refs ref) then refs ++ [ref] else refs.

(** The function literal passed to [ast.Walk] in [refsFromTree]. *)
Definition refs_walker (tree : Tree) (ancestors : list Node) (n : Node)
    (entering : bool) (s : RefsState) : option (WalkStatus * RefsState) :=
  let '((refs, fileAnnotationRefs), st) := s in
  if entering then Some (WalkContinue, s)
  else if IsBlockRef n then
    match buildRef tree ancestors n st with
    | None => None
    | Some (ref, st') =>
        Some (WalkContinue, ((add_ref refs ref, fileAnnotationRefs), st'))
    end
  else if IsFileAnnotationRef n then
    let pathID := TextMarkFileAnnotationRefID (data n) in
    let idx := LastIndex pathID "/" in
    if -1 =? idx then Some (WalkContinue, s)
    else
      let filePath := slice_to pathID idx in
      let annotationID := slice_from pathID (idx + 1) in
      let anchor := TextMarkTextContent (data n) in
      let text := if String.eqb "" anchor then filePath else anchor in
      let parentBlock := ParentBlock ancestors n in
      match (id <- NewNodeID ;;
             blockID <- deref_ID parentBlock ;;
             ret {| FileAnnotationRef.ID := id;
                    FileAnnotationRef.FilePath := filePath;
                    FileAnnotationRef.AnnotationID := annotationID;
                    FileAnnotationRef.BlockID := blockID;
                    FileAnnotationRef.RootID := TreeID tree;
                    FileAnnotationRef.Box := Box tree;
                    FileAnnotationRef.Path := Path tree;
                    FileAnnotationRef.Content := text;
                    FileAnnotationRef.Type_ :=
                      TypeAbbr (NodeTypeString (Type_ (data n))) |}) st with
      | None => None
      | Some (ref, st') =>
          Some (WalkContinue, ((refs, fileAnnotationRefs ++ [ref]), st'))
      end
  else if IsEmbedBlockRef n then
    match buildEmbedRef tree n st with
    | None => None
    | Some (ref, st') =>
        Some (WalkContinue, ((add_ref refs ref, fileAnnotationRefs), st'))
    end
  else Some (WalkContinue, s).

(** [refsFromTree]: both slices start [nil]. *)
Definition refsFromTree (tree : Tree) (st : XState)
    : option ((list Ref.t * list FileAnnotationRef.t) * XState) :=
  Walk (refs_walker tree) [] (Root tree) (([], []), st).

(** [isAttr] *)
Definition isAttr (name : string) : bool :=
  HasPrefix name "custom-" || String.eqb "name" name || String.eqb "alias" name
  || String.eqb "memo" name || String.eqb "bookmark" name || String.eqb "fold" name
  || String.eqb "heading-fold" name || String.eqb "style" name.

(** [for name, val := range attrs { if !isAttr(name) { continue } ... }]:
    one attribute per allow-listed entry, each with a fresh identifier.
    [blockID] is the expression the literal evaluates for [BlockID]
    ([parentBlock.ID] panics on [nil]).  Go leaves the iteration order
    of a map open; the entries are taken in the order of [map_to_list]. *)
Fixpoint attributes_of (entries : list (string * string)) (typ : string)
    (blockID : X string) (rootID boxID p : string) : X (list Attribute.t) :=
  match entries with
  | [] => ret []
  | (name, val) :: entries' =>
      if negb (isAttr name) then attributes_of entries' typ blockID rootID boxID p
      else
        id <- NewNodeID ;;
        bid <- blockID ;;
        rest <- attributes_of entries' typ blockID rootID boxID p ;;
        ret ({| Attribute.ID := id;
                Attribute.Name := name;
                Attribute.Value := val;
                Attribute.Type_ := typ;
                Attribute.BlockID := bid;
                Attribute.RootID := rootID;
                Attribute.Box := boxID;
                Attribute.Path := p |} :: rest)
  end.

(** [buildAttributeFromNode] *)
Definition buildAttributeFromNode (ancestors : list Node) (n : Node)
    (rootID boxID p : string) : X (list Attribute.t) :=
  match Type_ (data n) with
  | NodeKramdownSpanIAL =>
      let parentBlock := ParentBlock ancestors n in
      let attrs := IALValMap n in
      attributes_of (map_to_list attrs) "s" (deref_ID parentBlock) rootID boxID p
  | NodeKramdownBlockIAL =>
      let attrs := IALValMap n in
      attributes_of (map_to_list attrs) "b" (ret (ID (data n))) rootID boxID p
  | _ => ret []
  end.

(** [nSort] *)
Definition nSort (n : Node) : Z :=
  match Type_ (data n) with
  | NodeHeading => 5
  | NodeParagraph => 10
  | NodeCodeBlock => 10
  | NodeMathBlock => 10
  | NodeTable => 10
  | NodeHTMLBlock => 10
  | NodeList => 20
  | NodeListItem => 20
  | NodeBlockquote => 20
  | NodeSuperBlock => 30
  | NodeAttributeView => 30
  | NodeDocument => 0
  | NodeText | NodeTextMark =>
      if IsTextMarkType n "tag" then 205 else 200
  | _ => 100
  end.

(** [tagFromNode].  [split_on] is [strings.Split(tagIAL, ",")]; the
    buffer [tagBuilder] is the state of the walk. *)
Definition tagFromNode (node : Node) : string :=
  if decide (Type_ (data node) = NodeDocument) then
    let tagIAL := UnescapeString (IALAttr node "tags") in
    let tags := split_on ","%char EmptyString tagIAL in
    TrimSpace
      (fold_left
         (fun tagBuilder t =>
            let t := TrimSpace t in
            if String.eqb "" t then tagBuilder
            else tagBuilder +:+ "#" +:+ t +:+ "# ")
         tags "")
  else
    let walker (_ : list Node) (n : Node) (entering : bool) (tagBuilder : string) :=
      if negb entering then Some (WalkContinue, tagBuilder)
      else if IsTextMarkType n "tag"
           then Some (WalkContinue, tagBuilder +:+ "#" +:+ NodeContent n +:+ "# ")
           else Some (WalkContinue, tagBuilder) in
    TrimSpace (default "" (Walk walker [] node "")).

(** [if !treenode.IsNodeOCRed(n) { util.PushNodeOCRQueue(n) }] *)
Definition queue_unless_OCRed (n : Node) : X unit :=
  if negb (IsNodeOCRed n) then PushNodeOCRQueue n else ret tt.

(** [parentID = n.Parent.ID], then the enclosing heading if there is
    one. *)
Definition parentID_of (ancestors : list Node) (n : Node) : X string :=
  parentID <- deref_ID (Parent ancestors) ;;
  ret (match HeadingParent ancestors n with
       | Some h => ID (data h)
       | None => parentID
       end).

(** [buildBlockFromNode] *)
Definition buildBlockFromNode (ancestors : list Node) (n : Node) (tree : Tree)
    : X (Block.t * list Attribute.t) :=
  let boxID := Box tree in
  let p := Path tree in
  let rootID := ID (data (Root tree)) in
  let name := UnescapeString (IALAttr n "name") in
  let alias := UnescapeString (IALAttr n "alias") in
  let memo := UnescapeString (IALAttr n "memo") in
  let tag := tagFromNode n in
  let ialContent := IALStr n in
  let hash := NodeHash n tree in
  (* content, fcontent, markdown, parentID, length *)
  fields <-
    (if decide (Type_ (data n) = NodeDocument) then
       let content := IALAttr n "title" in
       let fcontent := content in
       ret (content, fcontent, "", "", RuneCountInString fcontent)
     else if IsContainerBlock n then
       let markdown := ExportNodeStdMd n in
       _ <- queue_unless_OCRed n ;;
       let content := NodeStaticContent n [] true indexAssetPath true in
       let fc := FirstLeafBlock n in
       _ <- queue_unless_OCRed fc ;;
       let fcontent := NodeStaticContent fc [] true false true in
       parentID <- parentID_of ancestors n ;;
       ret (content, fcontent, markdown, parentID, RuneCountInString fcontent)
     else
       let markdown := ExportNodeStdMd n in
       _ <- queue_unless_OCRed n ;;
       let content := NodeStaticContent n [] true indexAssetPath true in
       parentID <- parentID_of ancestors n ;;
       ret (content, "", markdown, parentID, RuneCountInString content)) ;;
  let '(content, fcontent, markdown, parentID, length) := fields in
  (* the zero-width spaces are removed from the three texts *)
  let fcontent := ReplaceAll fcontent Zwsp "" in
  let content := ReplaceAll content Zwsp "" in
  let markdown := ReplaceAll markdown Zwsp "" in
  let block :=
    {| Block.ID := ID (data n);
       Block.ParentID := parentID;
       Block.RootID := rootID;
       Block.Hash := hash;
       Block.Box := boxID;
       Block.Path := p;
       Block.HPath := HPath tree;
       Block.Name := name;
       Block.Alias := alias;
       Block.Memo := memo;
       Block.Tag := tag;
       Block.Content := content;
       Block.FContent := fcontent;
       Block.Markdown := markdown;
       Block.Length := length;
       Block.Type_ := TypeAbbr (NodeTypeString (Type_ (data n)));
       Block.SubType := SubTypeAbbr n;
       Block.IAL := ialContent;
       Block.Sort := nSort n;
       Block.Created := TimeFromID (ID (data n));
       Block.Updated := IALAttr n "updated" |} in
  let attrs := IAL2Map (KramdownIAL (data n)) in
  attributes <-
    attributes_of (map_to_list attrs) "b" (ret (ID (data n))) rootID boxID p ;;
  ret (block, attributes).

(** [BuildBlockFromNode] *)
Definition BuildBlockFromNode (ancestors : list Node) (n : Node) (tree : Tree)
    : X Block.t :=
  r <- buildBlockFromNode ancestors n tree ;;
  ret r.1.
End WithCollaborators.
End Extraction.

(* ===================================================================== *)
(** ** The relational store                                               *)
(* ===================================================================== *)

Module Sqlite.

(** A stored value; every column of the schema is untyped. *)
Inductive Value := VText (s : string) | VInt (z : Z).

#[global] Instance Value_eq_dec : EqDecision Value.
Proof. solve_decision. Defined.

(** A row maps column names to values. *)
Abbreviation Row := (gmap string Value).

(** A table: its columns in order; for an [fts5] virtual table the
    tokenizer and the columns declared [UNINDEXED]; its rows in rowid
    order. *)
Record Table := {
  columns : list string;
  tokenize : option string;
  unindexed : list string;
  rows : list Row
}.

(** The content of a database file: tables by name, and indexes by name
    with the table and column they cover. *)
Record Database := {
  tables : gmap string Table;
  indexes : gmap string (string * string)
}.

Definition empty_db : Database := {| tables := ∅; indexes := ∅ |}.

(** The statements the source issues.  A [?] of the SQL text is a
    position in the argument list: [DELETE_FROM t WHERE cs] has one
    placeholder per column of [cs], [UPDATE t SET ss WHERE cs] one per
    column of [ss] and then one per column of [cs]. *)
Inductive Stmt :=
| DROP_TABLE_IF_EXISTS (t : string)
| CREATE_TABLE (t : string) (cols : list string)
| CREATE_VIRTUAL_TABLE_fts5 (t : string) (cols : list (string * bool)) (tokenizer : string)
    (* a column comes with [true] when it is declared UNINDEXED *)
| CREATE_INDEX (idx t col : string)
| INSERT_INTO (t : string)                          (* VALUES (?, ..., ?) *)
| DELETE_FROM_WHERE (t : string) (where_eq : list string)
| UPDATE_SET_WHERE (t : string) (set_cols where_eq : list string).

(** [c1 = ? AND c2 = ? ...] on a row. *)
Definition matches (conds : list (string * Value)) (r : Row) : bool :=
  forallb (fun cv => bool_decide (r !! cv.1 = Some cv.2)) conds.

(** [SET c1 = ?, c2 = ? ...] on a row. *)
Definition assign (sets : list (string * Value)) (r : Row) : Row :=
  fold_left (fun r cv => <[cv.1 := cv.2]> r) sets r.

Definition has_columns (T : Table) (cols : list string) : bool :=
  forallb (fun c => bool_decide (c ∈ columns T)) cols.

Definition with_rows (T : Table) (rs : list Row) : Table :=
  {| columns := columns T; tokenize := tokenize T; unindexed := unindexed T;
     rows := rs |}.

Definition put_table (d : Database) (t : string) (T : Table) : Database :=
  {| tables := <[t := T]> (tables d); indexes := indexes d |}.

(** The rows of a table, none when the table does not exist. *)
Definition rows_of (d : Database) (t : string) : list Row :=
  match tables d !! t with
  | Some T => rows T
  | None => []
  end.

(** One statement with its arguments: the new content, or the message
    of the error. *)
Definition exec (s : Stmt) (args : list Value) (d : Database) : string + Database :=
  match s with
  | DROP_TABLE_IF_EXISTS t =>
      inr {| tables := delete t (tables d);
             indexes := filter (fun kv => kv.2.1 ≠ t) (indexes d) |}
  | CREATE_TABLE t cols =>
      match tables d !! t with
      | Some _ => inl ("table " +:+ t +:+ " already exists")
      | None => inr (put_table d t {| columns := cols; tokenize := None;
                                      unindexed := []; rows := [] |})
      end
  | CREATE_VIRTUAL_TABLE_fts5 t cols tok =>
      match tables d !! t with
      | Some _ => inl ("table " +:+ t +:+ " already exists")
      | None => inr (put_table d t {| columns := cols.*1; tokenize := Some tok;
                                      unindexed := (List.filter snd cols).*1;
                                      rows := [] |})
      end
  | CREATE_INDEX idx t col =>
      match indexes d !! idx, tables d !! t with
      | Some _, _ => inl ("index " +:+ idx +:+ " already exists")
      | None, None => inl ("no such table: main." +:+ t)
      | None, Some T =>
          if has_columns T [col]
          then inr {| tables := tables d; indexes := <[idx := (t, col)]> (indexes d) |}
          else inl ("no such column: " +:+ col)
      end
  | INSERT_INTO t =>
      match tables d !! t with
      | None => inl ("no such table: " +:+ t)
      | Some T =>
          if bool_decide (length args = length (columns T))
          then inr (put_table d t
                      (with_rows T (rows T ++ [list_to_map (zip (columns T) args)])))
          else inl ("table " +:+ t +:+ " has a different number of columns")
      end
  | DELETE_FROM_WHERE t where_eq =>
      match tables d !! t with
      | None => inl ("no such table: " +:+ t)
      | Some T =>
          if negb (has_columns T where_eq) then inl "no such column"
          else if negb (bool_decide (length args = length where_eq))
          then inl "sql: wrong number of arguments"
          else inr (put_table d t
                      (with_rows T
                         (List.filter (fun r => negb (matches (zip where_eq args) r))
                                      (rows T))))
      end
  | UPDATE_SET_WHERE t set_cols where_eq =>
      match tables d !! t with
      | None => inl ("no such table: " +:+ t)
      | Some T =>
          if negb (has_columns T (set_cols ++ where_eq)) then inl "no such column"
          else if negb (bool_decide (length args = length (set_cols ++ where_eq)))
          then inl "sql: wrong number of arguments"
          else
            let sets := zip set_cols (take (length set_cols) args) in
            let conds := zip where_eq (drop (length set_cols) args) in
            inr (put_table d t
                   (with_rows T
                      (List.map (fun r => if matches conds r then assign sets r else r)
                                (rows T))))
      end
  end.

End Sqlite.

(* ===================================================================== *)
(** ** The package state and the functions that change it                 *)
(* ===================================================================== *)

Module Store.
Import GoStrings Sqlite.

(** The constants of other packages the source refers to. *)
Record Env := {
  DBPath : string;                     (* util.DBPath *)
  DatabaseVer : string;                (* util.DatabaseVer *)
  ExitCodeReadOnlyDatabase : Z;        (* logging.ExitCodeReadOnlyDatabase *)
  StatVerKey : string;                 (* the key of the version row in [stat] *)
  evtHash : string -> string;          (* fmt.Sprintf("%x", sha256.Sum256(id))[:7] *)
  EvtSQLDeleteBlocks : string;         (* eventbus.EvtSQLDeleteBlocks *)
  EvtSQLUpdateBlocksHPaths : string    (* eventbus.EvtSQLUpdateBlocksHPaths *)
}.

(** The package variable [db *sql.DB]: [nil], an open pool, or a pool
    that has been closed (the pointer stays). *)
Inductive Handle := NilDB | OpenDB | ClosedDB.

(** [*sql.Tx] *)
Record Tx := { tx_id : nat }.

(** What a call does to the world outside the store's content. *)
Inductive Effect :=
| EExec (s : Stmt) (args : list Value) (err : option string)
| ERollback
| EClose                                   (* db.Close(), FreeOSMemory, GC *)
| EOpen (dsn : string)
| ERemoveAll (path : string) (err : option string)
| EClearCache
| ECacheEnabled (b : bool)                 (* enableCache / disableCache *)
| EClearQueue
| EInitBlockTree (force : bool)            (* treenode.InitBlockTree *)
| EBootProgress
| EPushClearProgress
| EPublish (topic : string) (payload : list string)
| EExit (code : Z).                        (* logging.LogFatalf *)

Record World := {
  db : Handle;
  caseSensitive : bool;
  (** what the database file holds *)
  data : Database;
  (** the transaction in progress: its handle and the content at begin *)
  tx : option (Tx * Database);
  (** the paths that exist on disk *)
  disk : gset string;
  (** the outcome of the coming calls into the driver and the file
      system, in order: [None] for success, [Some msg] for an error with
      that message; success once the list is used up *)
  io_results : list (option string);
  trace : list Effect
}.

(** A call returns, terminates the process with an exit code, or panics. *)
Inductive Result (A : Type) :=
| Ret (a : A)
| Exit (code : Z)
| Panic.
Arguments Ret {A} a.
Arguments Exit {A} code.
Arguments Panic {A}.

Definition M (A : Type) : Type := World -> Result A * World.

Definition ret {A} (a : A) : M A := fun w => (Ret a, w).
Definition bind {A B} (m : M A) (k : A -> M B) : M B :=
  fun w => match m w with
           | (Ret a, w') => k a w'
           | (Exit c, w') => (Exit c, w')
           | (Panic, w') => (Panic, w')
           end.

Declare Scope m_scope.
Delimit Scope m_scope with M.
Notation "x <- m ;; k" := (bind m (fun x => k))
  (at level 100, m at next level, right associativity) : m_scope.
Notation "m >> k" := (bind m (fun _ => k))
  (at level 100, right associativity) : m_scope.
Local Open Scope m_scope.

(** [if err = m; err != nil { return }] followed by [k]. *)
Definition and_then (m k : M (option string)) : M (option string) :=
  err <- m ;;
  match err with
  | Some _ => ret err
  | None => k
  end.
Notation "m >>? k" := (and_then m k)
  (at level 100, right associativity) : m_scope.

(** *** Primitive steps *)

Definition set_db (h : Handle) (w : World) : World :=
  {| db := h; caseSensitive := caseSensitive w; data := data w; tx := tx w;
     disk := disk w; io_results := io_results w; trace := trace w |}.
Definition set_data (d : Database) (w : World) : World :=
  {| db := db w; caseSensitive := caseSensitive w; data := d; tx := tx w;
     disk := disk w; io_results := io_results w; trace := trace w |}.
Definition set_tx (t : option (Tx * Database)) (w : World) : World :=
  {| db := db w; caseSensitive := caseSensitive w; data := data w; tx := t;
     disk := disk w; io_results := io_results w; trace := trace w |}.
Definition set_disk (f : gset string) (w : World) : World :=
  {| db := db w; caseSensitive := caseSensitive w; data := data w; tx := tx w;
     disk := f; io_results := io_results w; trace := trace w |}.
Definition set_io_results (l : list (option string)) (w : World) : World :=
  {| db := db w; caseSensitive := caseSensitive w; data := data w; tx := tx w;
     disk := disk w; io_results := l; trace := trace w |}.
Definition log (e : Effect) (w : World) : World :=
  {| db := db w; caseSensitive := caseSensitive w; data := data w; tx := tx w;
     disk := disk w; io_results := io_results w; trace := trace w ++ [e] |}.

Definition emit (e : Effect) : M unit := fun w => (Ret tt, log e w).

(** The outcome the environment has in store for the next call. *)
Definition next_result : M (option string) :=
  fun w => match io_results w with
           | [] => (Ret None, w)
           | r :: rest => (Ret r, set_io_results rest w)
           end.

(** Is [t] the transaction in progress? *)
Definition live (t : Tx) (w : World) : bool :=
  match tx w with
  | Some (t', _) => bool_decide (tx_id t' = tx_id t)
  | None => false
  end.

Definition ErrTxDone : string :=
  "sql: transaction has already been committed or rolled back".
Definition ErrDBClosed : string := "sql: database is closed".

Section WithEnv.
Context (env : Env).

(** A statement that succeeds leaves its result in the database file,
    which exists from then on. *)
Definition apply_stmt (s : Stmt) (args : list Value) : M (option string) :=
  fun w => match exec s args (data w) with
           | inl msg => (Ret (Some msg), log (EExec s args (Some msg)) w)
           | inr d =>
               (Ret None,
                log (EExec s args None)
                    (set_disk ({[DBPath env]} ∪ disk w) (set_data d w)))
           end.

(** [tx.Exec(stmt, args...)] *)
Definition tx_Exec (t : Tx) (s : Stmt) (args : list Value) : M (option string) :=
  r <- next_result ;;
  match r with
  | Some msg => emit (EExec s args (Some msg)) >> ret (Some msg)
  | None =>
      fun w => if live t w then apply_stmt s args w
               else (Ret (Some ErrTxDone), log (EExec s args (Some ErrTxDone)) w)
  end.

(** [tx.Rollback()]: the content is what it was at begin. *)
Definition tx_Rollback (t : Tx) : M unit :=
  fun w => match tx w with
           | Some (t', d0) =>
               if bool_decide (tx_id t' = tx_id t)
               then (Ret tt, log ERollback (set_tx None (set_data d0 w)))
               else (Ret tt, w)
           | None => (Ret tt, w)
           end.

(** [db.Exec(stmt)]; a [nil] pool panics. *)
Definition db_Exec (s : Stmt) (args : list Value) : M (option string) :=
  fun w => match db w with
           | NilDB => (Panic, w)
           | ClosedDB => (Ret (Some ErrDBClosed), log (EExec s args (Some ErrDBClosed)) w)
           | OpenDB =>
               (r <- next_result ;;
                match r with
                | Some msg => emit (EExec s args (Some msg)) >> ret (Some msg)
                | None => apply_stmt s args
                end) w
           end.

(** [sql.Open("sqlite3_extended", dsn)] *)
Definition sql_Open (dsn : string) : M (option string) :=
  r <- next_result ;;
  match r with
  | Some msg => ret (Some msg)
  | None => fun w => (Ret None, log (EOpen dsn) (set_db OpenDB w))
  end.

(** Is [p] the path [path] or a path below it? *)
Definition under (path p : string) : bool :=
  String.eqb p path || HasPrefix p (path +:+ "/").

(** [os.RemoveAll(path)]: the path and everything below it are gone;
    no error when the path does not exist.  Without its file the
    database has no content. *)
Definition os_RemoveAll (path : string) : M (option string) :=
  r <- next_result ;;
  match r with
  | Some msg => emit (ERemoveAll path (Some msg)) >> ret (Some msg)
  | None =>
      fun w =>
        let w1 := set_disk (filter (fun p => under path p = false) (disk w)) w in
        let w2 := if under path (DBPath env) then set_data empty_db w1 else w1 in
        (Ret None, log (ERemoveAll path None) w2)
  end.

(** [gulu.File.IsExist(path)] *)
Definition IsExist (path : string) : M bool :=
  fun w => (Ret (bool_decide (path ∈ disk w)), w).

(** [logging.LogFatalf(exitCode, ...)]: the message is logged and the
    process exits with that code. *)
Definition LogFatalf {A} (exitCode : Z) : M A :=
  fun w => (Exit exitCode, log (EExit exitCode) w).

Definition ClearCache : M unit := emit EClearCache.
Definition disableCache : M unit := emit (ECacheEnabled false).
Definition enableCache : M unit := emit (ECacheEnabled true).
Definition Publish (topic : string) (payload : list string) : M unit :=
  emit (EPublish topic payload).

(** *** The functions of the source *)

(** [closeDatabase]; [db.Close()] is taken to succeed. *)
Definition closeDatabase : M (option string) :=
  fun w => match db w with
           | NilDB => (Ret None, w)
           | _ => (Ret None, log EClose (set_db ClosedDB w))
           end.

(** [removeDatabaseFile] *)
Definition removeDatabaseFile : M (option string) :=
  os_RemoveAll (DBPath env) >>?
  os_RemoveAll (DBPath env +:+ "-shm") >>?
  os_RemoveAll (DBPath env +:+ "-wal") >>?
  ret None.

Definition malformed : string := "database disk image is malformed".

(** [execStmtTx] *)
Definition execStmtTx (t : Tx) (stmt : Stmt) (args : list Value) : M (option string) :=
  err <- tx_Exec t stmt args ;;
  match err with
  | Some msg =>
      (if Contains msg malformed then
         tx_Rollback t >>
         closeDatabase >>
         removeDatabaseFile >>
         LogFatalf (ExitCodeReadOnlyDatabase env)
       else ret tt) >>
      (* logging.LogErrorf *)
      ret err
  | None => ret None
  end.

(** [deleteByRootID] *)
Definition deleteByRootID (t : Tx) (rootID : string) (context : gmap string string)
    : M (option string) :=
  (* "DELETE FROM blocks WHERE root_id = ?" *)
  execStmtTx t (DELETE_FROM_WHERE "blocks" ["root_id"]) [VText rootID] >>?
  (* "DELETE FROM blocks_fts WHERE root_id = ?" *)
  execStmtTx t (DELETE_FROM_WHERE "blocks_fts" ["root_id"]) [VText rootID] >>?
  (fun w =>
     if negb (caseSensitive w) then
       (* "DELETE FROM blocks_fts_case_insensitive WHERE root_id = ?" *)
       execStmtTx t (DELETE_FROM_WHERE "blocks_fts_case_insensitive" ["root_id"])
                  [VText rootID] w
     else ret None w) >>?
  (* "DELETE FROM spans WHERE root_id = ?" *)
  execStmtTx t (DELETE_FROM_WHERE "spans" ["root_id"]) [VText rootID] >>?
  (* "DELETE FROM assets WHERE root_id = ?" *)
  execStmtTx t (DELETE_FROM_WHERE "assets" ["root_id"]) [VText rootID] >>?
  (* "DELETE FROM refs WHERE root_id = ?" *)
  execStmtTx t (DELETE_FROM_WHERE "refs" ["root_id"]) [VText rootID] >>?
  (* "DELETE FROM file_annotation_refs WHERE root_id = ?" *)
  execStmtTx t (DELETE_FROM_WHERE "file_annotation_refs" ["root_id"]) [VText rootID] >>?
  (* "DELETE FROM attributes WHERE root_id = ?" *)
  execStmtTx t (DELETE_FROM_WHERE "attributes" ["root_id"]) [VText rootID] >>?
  (ClearCache >>
   Publish (EvtSQLDeleteBlocks env) [rootID] >>
   ret None).

(** [batchUpdatePath] *)
Definition batchUpdatePath (t : Tx) (tree : Ast.Tree) (context : gmap string string)
    : M (option string) :=
  let args := [VText (Ast.Box tree); VText (Ast.Path tree); VText (Ast.HPath tree);
               VText (Ast.TreeID tree)] in
  (* "UPDATE blocks SET box = ?, path = ?, hpath = ? WHERE root_id = ?" *)
  execStmtTx t (UPDATE_SET_WHERE "blocks" ["box"; "path"; "hpath"] ["root_id"]) args >>?
  (* "UPDATE blocks_fts SET box = ?, path = ?, hpath = ? WHERE root_id = ?" *)
  execStmtTx t (UPDATE_SET_WHERE "blocks_fts" ["box"; "path"; "hpath"] ["root_id"]) args >>?
  (fun w =>
     if negb (caseSensitive w) then
       (* "UPDATE blocks_fts_case_insensitive SET box = ?, path = ?, hpath = ?
           WHERE root_id = ?" *)
       execStmtTx t (UPDATE_SET_WHERE "blocks_fts_case_insensitive"
                                      ["box"; "path"; "hpath"] ["root_id"]) args w
     else ret None w) >>?
  (ClearCache >>
   Publish (EvtSQLUpdateBlocksHPaths env) ["1"; evtHash env (Ast.TreeID tree)] >>
   ret None).

(** [batchUpdateHPath] *)
Definition batchUpdateHPath (t : Tx) (tree : Ast.Tree) (context : gmap string string)
    : M (option string) :=
  let args := [VText (Ast.HPath tree); VText (Ast.TreeID tree)] in
  (* "UPDATE blocks SET hpath = ? WHERE root_id = ?" *)
  execStmtTx t (UPDATE_SET_WHERE "blocks" ["hpath"] ["root_id"]) args >>?
  (* "UPDATE blocks_fts SET hpath = ? WHERE root_id = ?" *)
  execStmtTx t (UPDATE_SET_WHERE "blocks_fts" ["hpath"] ["root_id"]) args >>?
  (fun w =>
     if negb (caseSensitive w) then
       (* "UPDATE blocks_fts_case_insensitive SET hpath = ? WHERE root_id = ?" *)
       execStmtTx t (UPDATE_SET_WHERE "blocks_fts_case_insensitive" ["hpath"] ["root_id"])
                  args w
     else ret None w) >>?
  (ClearCache >>
   Publish (EvtSQLUpdateBlocksHPaths env) ["1"; evtHash env (Ast.TreeID tree)] >>
   ret None).

(** *** Opening and rebuilding the store *)

(** [initDBConnection] *)
Definition initDBConnection : M unit :=
  (fun w => match db w with
            | NilDB => (Ret tt, w)
            | _ => (closeDatabase >> ret tt) w
            end) >>
  (* util.LogDatabaseSize(util.DBPath) *)
  let dsn := DBPath env +:+ "?_journal_mode=WAL" +:+
             "&_synchronous=OFF" +:+
             "&_mmap_size=2684354560" +:+
             "&_secure_delete=OFF" +:+
             "&_cache_size=-20480" +:+
             "&_page_size=32768" +:+
             "&_busy_timeout=7000" +:+
             "&_ignore_check_constraints=ON" +:+
             "&_temp_store=MEMORY" +:+
             "&_case_sensitive_like=OFF" in
  err <- sql_Open dsn ;;
  match err with
  | Some _ => LogFatalf (ExitCodeReadOnlyDatabase env)
  | None => ret tt   (* SetMaxIdleConns(20), SetMaxOpenConns(20), SetConnMaxLifetime *)
  end.

(** [_, err = db.Exec(stmt); if err != nil { logging.LogFatalf(...) }] *)
Definition must_Exec (s : Stmt) : M unit :=
  err <- db_Exec s [] ;;
  match err with
  | Some _ => LogFatalf (ExitCodeReadOnlyDatabase env)
  | None => ret tt
  end.

(** Modelled from the spec: [setDatabaseVer] is not in the file under
    study.  The spec has "a [stat] key/value table holding the schema
    version" and a store that "maintain[s] a persisted schema version":
    the expected version is stored in [stat] under the version key; an
    error is not fatal. *)
Definition setDatabaseVer : M unit :=
  _ <- db_Exec (INSERT_INTO "stat")
               [VText (StatVerKey env); VText (DatabaseVer env)] ;;
  ret tt.

(** The version a database content holds: the value of the first row
    of [stat] with the version key, the empty string without one. *)
Definition stored_version (d : Database) : string :=
  match List.find (fun r => bool_decide (r !! "key" = Some (VText (StatVerKey env))))
                  (rows_of d "stat") with
  | Some r => match r !! "value" with
              | Some (VText v) => v
              | _ => ""
              end
  | None => ""
  end.

(** Modelled from the spec: [getDatabaseVer] is not in the file under
    study.  The spec's "persisted schema version" is read back from
    [stat]; a query that fails gives the empty string. *)
Definition getDatabaseVer : M string :=
  r <- next_result ;;
  match r with
  | Some _ => ret ""
  | None => fun w => (Ret (stored_version (data w)), w)
  end.

(** The columns of [blocks], which both full-text tables mirror. *)
Definition blocks_columns : list string :=
  ["id"; "parent_id"; "root_id"; "hash"; "box"; "path"; "hpath"; "name"; "alias";
   "memo"; "tag"; "content"; "fcontent"; "markdown"; "length"; "type"; "subtype";
   "ial"; "sort"; "created"; "updated"].

(** [id UNINDEXED, parent_id UNINDEXED, root_id UNINDEXED, hash UNINDEXED,
     box UNINDEXED, path UNINDEXED, hpath, name, alias, memo, tag, content,
     fcontent, markdown UNINDEXED, length UNINDEXED, type UNINDEXED,
     subtype UNINDEXED, ial, sort UNINDEXED, created UNINDEXED,
     updated UNINDEXED] *)
Definition fts_columns : list (string * bool) :=
  [("id", true); ("parent_id", true); ("root_id", true); ("hash", true);
   ("box", true); ("path", true); ("hpath", false); ("name", false);
   ("alias", false); ("memo", false); ("tag", false); ("content", false);
   ("fcontent", false); ("markdown", true); ("length", true); ("type", true);
   ("subtype", true); ("ial", false); ("sort", true); ("created", true);
   ("updated", true)].

(** [initDBTables] *)
Definition initDBTables : M unit :=
  must_Exec (DROP_TABLE_IF_EXISTS "stat") >>
  must_Exec (CREATE_TABLE "stat" ["key"; "value"]) >>
  setDatabaseVer >>

  must_Exec (DROP_TABLE_IF_EXISTS "blocks") >>
  must_Exec (CREATE_TABLE "blocks" blocks_columns) >>
  must_Exec (CREATE_INDEX "idx_blocks_id" "blocks" "id") >>
  must_Exec (CREATE_INDEX "idx_blocks_parent_id" "blocks" "parent_id") >>
  must_Exec (CREATE_INDEX "idx_blocks_root_id" "blocks" "root_id") >>

  must_Exec (DROP_TABLE_IF_EXISTS "blocks_fts") >>
  must_Exec (CREATE_VIRTUAL_TABLE_fts5 "blocks_fts" fts_columns "siyuan") >>

  must_Exec (DROP_TABLE_IF_EXISTS "blocks_fts_case_insensitive") >>
  must_Exec (CREATE_VIRTUAL_TABLE_fts5 "blocks_fts_case_insensitive" fts_columns
                                       "siyuan case_insensitive") >>

  must_Exec (DROP_TABLE_IF_EXISTS "spans") >>
  must_Exec (CREATE_TABLE "spans"
               ["id"; "block_id"; "root_id"; "box"; "path"; "content"; "markdown";
                "type"; "ial"]) >>
  must_Exec (CREATE_INDEX "idx_spans_root_id" "spans" "root_id") >>

  must_Exec (DROP_TABLE_IF_EXISTS "assets") >>
  must_Exec (CREATE_TABLE "assets"
               ["id"; "block_id"; "root_id"; "box"; "docpath"; "path"; "name";
                "title"; "hash"]) >>
  must_Exec (CREATE_INDEX "idx_assets_root_id" "assets" "root_id") >>

  must_Exec (DROP_TABLE_IF_EXISTS "attributes") >>
  must_Exec (CREATE_TABLE "attributes"
               ["id"; "name"; "value"; "type"; "block_id"; "root_id"; "box"; "path"]) >>
  must_Exec (CREATE_INDEX "idx_attributes_block_id" "attributes" "block_id") >>
  must_Exec (CREATE_INDEX "idx_attributes_root_id" "attributes" "root_id") >>

  must_Exec (DROP_TABLE_IF_EXISTS "refs") >>
  must_Exec (CREATE_TABLE "refs"
               ["id"; "def_block_id"; "def_block_parent_id"; "def_block_root_id";
                "def_block_path"; "block_id"; "root_id"; "box"; "path"; "content";
                "markdown"; "type"]) >>

  must_Exec (DROP_TABLE_IF_EXISTS "file_annotation_refs") >>
  must_Exec (CREATE_TABLE "file_annotation_refs"
               ["id"; "file_path"; "annotation_id"; "block_id"; "root_id"; "box";
                "path"; "content"; "type"]).

(** [InitDatabase].  The lock serialises concurrent calls and has no
    part in a single one.  [enableCache] is deferred: it runs when the
    function returns, not when the process exits. *)
Definition InitDatabase (forceRebuild : bool) : M (option string) :=
  ClearCache >>
  disableCache >>
  err <-
    (emit EBootProgress >>
     (if forceRebuild then emit EClearQueue else ret tt) >>
     initDBConnection >>
     emit (EInitBlockTree forceRebuild) >>
     unchanged <-
       (if negb forceRebuild then
          ver <- getDatabaseVer ;;
          ret (String.eqb (DatabaseVer env) ver)
        else ret false) ;;
     if (unchanged : bool) then ret None
     else
       closeDatabase >>
       exists_ <- IsExist (DBPath env) ;;
       (if (exists_ : bool) then
          err <- removeDatabaseFile ;;
          match err with
          | Some _ => emit EPushClearProgress   (* logged, then err = nil *)
          | None => ret tt
          end
        else ret tt) >>
       initDBConnection >>
       initDBTables >>
       ret None) ;;
  enableCache >>
  ret err.
End WithEnv.
End Store.

(* ===================================================================== *)
(** ** The templating adapter                                             *)
(* ===================================================================== *)

Module Template.
Import GoStrings.

(** A value of type [any] as far as [getBlock] tells values apart. *)
#[warnings="-register-all"]
Inductive Any :=
| AString (s : string)
| AMap (m : list (string * Any))      (* map[string]interface{} *)
| AOther.

(** A function registered in a [template.FuncMap]. *)
Inductive Func :=
| FuncBlocks (f : string -> list string -> list Block.t)
| FuncBlock (f : Any -> option (option Block.t))    (* [None]: a panic *)
| FuncSpans (f : string -> list string -> list Span.t)
| FuncRows (f : string -> list Sqlite.Row)
| FuncForeign (tag : string).         (* registered by another package *)

(** What the store answers when a template runs, before any cap: the
    blocks it holds for a statement from a page on, the spans and the
    rows (or the error) it holds for a statement, and the block of an
    identifier ([GetBlock], defined outside [database.go]). *)
Class Queries := {
  blocks_for : string -> Z -> list Block.t;                 (* stmt, page *)
  spans_for : string -> list Span.t;                        (* stmt *)
  GetBlock : string -> option Block.t;
  rows_for : string -> list Sqlite.Row * option string      (* stmt *)
}.

(** [for _, arg := range args { stmt = strings.Replace(stmt, "?", arg, 1) }] *)
Definition substitute (stmt : string) (args : list string) : string :=
  fold_left (fun stmt arg => Replace1 stmt "?" arg) args stmt.

(** [v["id"]] *)
Fixpoint map_index (m : list (string * Any)) (k : string) : option Any :=
  match m with
  | [] => None
  | (k', v) :: m' => if String.eqb k' k then Some v else map_index m' k
  end.

Section WithQueries.
Context `{Queries}.

(** Modelled from the spec: [SelectBlocksRawStmt(stmt, page, limit)] is
    defined outside [database.go].  The spec has the functions of the
    templating adapter "cap result set sizes (e.g. 512 or 1024 rows) to
    bound memory": the limit handed over is that cap, and the result is
    what the store answers, cut to at most [limit] rows. *)
Definition SelectBlocksRawStmt (stmt : string) (page limit : Z) : list Block.t :=
  take (Z.to_nat limit) (blocks_for stmt page).

(** Modelled from the spec: [SelectSpansRawStmt(stmt, limit)] is defined
    outside [database.go]; the spans the store answers with, cut to at
    most [limit] of them, the cap of the spec. *)
Definition SelectSpansRawStmt (stmt : string) (limit : Z) : list Span.t :=
  take (Z.to_nat limit) (spans_for stmt).

(** Modelled from the spec: [Query(stmt, limit)] is defined outside
    [database.go]; the rows the store answers with, cut to at most
    [limit] of them, the cap of the spec, and the error of the store. *)
Definition Query (stmt : string) (limit : Z) : list Sqlite.Row * option string :=
  (take (Z.to_nat limit) (fst (rows_for stmt)), snd (rows_for stmt)).

Definition queryBlocks (stmt : string) (args : list string) : list Block.t :=
  SelectBlocksRawStmt (substitute stmt args) 1 512.

(** The type assertion [id.(string)] panics on a value of another type. *)
Definition getBlock (arg : Any) : option (option Block.t) :=
  match arg with
  | AString v => Some (GetBlock v)
  | AMap v =>
      match map_index v "id" with
      | Some (AString id) => Some (GetBlock id)
      | Some _ => None
      | None => Some None
      end
  | AOther => Some None
  end.

Definition querySpans (stmt : string) (args : list string) : list Span.t :=
  SelectSpansRawStmt (substitute stmt args) 512.

Definition querySQL (stmt : string) : list Sqlite.Row :=
  (Query stmt 1024).1.

(** [SQLTemplateFuncs] *)
Definition SQLTemplateFuncs (templateFuncMap : gmap string Func) : gmap string Func :=
  <["querySQL" := FuncRows querySQL]>
    (<["querySpans" := FuncSpans querySpans]>
       (<["getBlock" := FuncBlock getBlock]>
          (<["queryBlocks" := FuncBlocks queryBlocks]> templateFuncMap))).
End WithQueries.

(** Positional substitution in the words of the spec: the i-th argument
    takes the place of the i-th [?] of the statement.  A [?] without an
    argument stays, an argument without a [?] is dropped. *)
Fixpoint substitute_positional (stmt : string) (args : list string) : string :=
  match stmt with
  | EmptyString => EmptyString
  | String c stmt' =>
      match args with
      | [] => stmt
      | arg :: args' =>
          if Ascii.eqb c "?"%char
          then arg +:+ substitute_positional stmt' args'
          else String c (substitute_positional stmt' args)
      end
  end.

End Template.

(* ===================================================================== *)
(** ** Sample collaborators, trees and stores                             *)
(* ===================================================================== *)

(** A small implementation of the collaborators and a few inputs, to run
    the functions above on. *)
Module Sample.
Import GoStrings Ast Extraction.

Definition is_block (t : NodeType) : bool :=
  match t with
  | NodeDocument | NodeParagraph | NodeHeading | NodeBlockquote | NodeList
  | NodeListItem | NodeHTMLBlock | NodeCodeBlock | NodeMathBlock | NodeTable
  | NodeSuperBlock | NodeAttributeView | NodeBlockQueryEmbed | NodeIFrame
  | NodeWidget | NodeAudio | NodeVideo => true
  | _ => false
  end.

Definition is_container (t : NodeType) : bool :=
  match t with
  | NodeDocument | NodeBlockquote | NodeList | NodeListItem | NodeSuperBlock => true
  | _ => false
  end.

Definition type_name (t : NodeType) : string :=
  match t with
  | NodeDocument => "NodeDocument" | NodeParagraph => "NodeParagraph"
  | NodeHeading => "NodeHeading" | NodeTextMark => "NodeTextMark"
  | NodeText => "NodeText" | NodeBlockQueryEmbed => "NodeBlockQueryEmbed"
  | _ => "Node"
  end.

Definition type_abbr (s : string) : string :=
  if String.eqb s "NodeDocument" then "d"
  else if String.eqb s "NodeParagraph" then "p"
  else if String.eqb s "NodeHeading" then "h"
  else if String.eqb s "NodeTextMark" then "textmark"
  else if String.eqb s "NodeBlockQueryEmbed" then "query_embed"
  else s.

(** The text below a node: the tokens of its text nodes, left to right. *)
Fixpoint text_of (n : Node) : string :=
  let 'MkNode d cs := n in
  Tokens d +:+ fold_right (fun c acc => text_of c +:+ acc) "" cs.

(** [k] primes, for the identifiers ["id"], ["id'"], ["id''"], ... *)
Fixpoint tally (k : nat) : string :=
  match k with
  | O => ""
  | Datatypes.S k' => "'" +:+ tally k'
  end.

#[global] Instance collaborators : Collaborators := {|
  IsBlock n := is_block (Type_ (data n));
  IsContainerBlock n := is_container (Type_ (data n));
  NodeTypeString := type_name;
  IALValMap n := IAL2Map (KramdownIAL (data n));
  UnescapeString s := s;
  NodeContent n := TextMarkTextContent (data n);
  TrimSpace s := s;
  node_id k := "id" +:+ tally k;
  IsBlockRef n := IsTextMarkType n "block-ref";
  IsFileAnnotationRef n := IsTextMarkType n "file-annotation-ref";
  IsEmbedBlockRef n := bool_decide (Type_ (data n) = NodeBlockQueryEmbed);
  ParentBlock ancestors _ :=
    List.find (fun p => negb (String.eqb "" (ID (data p))) && is_block (Type_ (data p)))
              ancestors;
  GetBlockRef n := (TextMarkBlockRefID (data n), TextMarkTextContent (data n), "s");
  GetEmbedBlockRef n := Tokens (data n);
  GetBlockTree _ := None;
  ExportNodeStdMd := text_of;
  TypeAbbr := type_abbr;
  SubTypeAbbr _ := "";
  IALStr _ := "";
  NodeHash _ _ := "";
  IsNodeOCRed _ := true;
  FirstLeafBlock n := default n (head (Children n));
  HeadingParent _ _ := None;
  TimeFromID id := slice_to id 14;
  NodeStaticContent n _ _ _ _ := text_of n
|}.

Definition node (t : NodeType) (id tokens : string) (cs : list Node) : Node :=
  MkNode {| Type_ := t; ID := id; Tokens := tokens; KramdownIAL := [];
            TextMarkType := ""; TextMarkAHref := ""; TextMarkTextContent := "";
            TextMarkBlockRefID := ""; TextMarkFileAnnotationRefID := "" |} cs.

Definition text (tokens : string) : Node := node NodeText "" tokens [].

(** A text mark of type [block-ref] pointing at block [def]. *)
Definition block_ref (def anchor : string) : Node :=
  MkNode {| Type_ := NodeTextMark; ID := ""; Tokens := ""; KramdownIAL := [];
            TextMarkType := "block-ref"; TextMarkAHref := "";
            TextMarkTextContent := anchor; TextMarkBlockRefID := def;
            TextMarkFileAnnotationRefID := "" |} [].

(** A text mark of type [file-annotation-ref] with the given key. *)
Definition file_annotation_ref (key anchor : string) : Node :=
  MkNode {| Type_ := NodeTextMark; ID := ""; Tokens := ""; KramdownIAL := [];
            TextMarkType := "file-annotation-ref"; TextMarkAHref := "";
            TextMarkTextContent := anchor; TextMarkBlockRefID := "";
            TextMarkFileAnnotationRefID := key |} [].

Definition with_IAL (ial : list (string * string)) (n : Node) : Node :=
  let d := data n in
  MkNode {| Type_ := Type_ d; ID := ID d; Tokens := Tokens d; KramdownIAL := ial;
            TextMarkType := TextMarkType d; TextMarkAHref := TextMarkAHref d;
            TextMarkTextContent := TextMarkTextContent d;
            TextMarkBlockRefID := TextMarkBlockRefID d;
            TextMarkFileAnnotationRefID := TextMarkFileAnnotationRefID d |}
         (Children n).

Definition tree_of (root : Node) : Tree :=
  {| Root := root; TreeID := ID (data root); Box := "box1"; Path := "/doc1.sy";
     HPath := "/Doc 1" |}.

Definition start : XState := {| next_id := 0; ocr_queue := [] |}.

(** Block A refers to block B twice, and once to block C. *)
Definition doc_two_refs : Tree :=
  tree_of
    (node NodeDocument "doc1" ""
       [node NodeParagraph "A" ""
          [block_ref "B" "first"; text " and "; block_ref "B" "second";
           block_ref "C" "third"]]).

(** A paragraph with a well-formed and a malformed file annotation
    reference. *)
Definition doc_annotations : Tree :=
  tree_of
    (node NodeDocument "doc1" ""
       [node NodeParagraph "A" ""
          [file_annotation_ref "no-separator" "bad";
           file_annotation_ref "assets/a.pdf/20220101" "good"]]).

(** A paragraph whose text holds a zero-width space. *)
Definition paragraph_zwsp : Node :=
  node NodeParagraph "20240101120000-abcdefg" "" [text ("a" +:+ Zwsp +:+ "b")].

Definition doc_zwsp : Tree := tree_of (node NodeDocument "doc1" "" [paragraph_zwsp]).

(** A span-level IAL node below paragraph A, and paragraph A with an
    IAL of its own. *)
Definition span_ial : Node :=
  with_IAL [("style", "color: red"); ("id", "x")] (node NodeKramdownSpanIAL "" "" []).

Definition paragraph_named : Node :=
  with_IAL [("id", "A"); ("name", "intro"); ("custom-k", "v"); ("updated", "2024")]
           (node NodeParagraph "A" "" [text "hi"]).

Definition doc_named : Tree := tree_of (node NodeDocument "doc1" "" [paragraph_named]).

Definition env : Store.Env :=
  {| Store.DBPath := "/data/temp/siyuan.db";
     Store.DatabaseVer := "20220501";
     Store.ExitCodeReadOnlyDatabase := 20;
     Store.StatVerKey := "siyuan_database_ver";
     Store.evtHash id := slice_to id 7;
     Store.EvtSQLDeleteBlocks := "sql.delete.blocks";
     Store.EvtSQLUpdateBlocksHPaths := "sql.update.blocks.hpaths" |}.

Definition row (kvs : list (string * string)) : Sqlite.Row :=
  list_to_map (prod_map id Sqlite.VText <$> kvs).

Definition table_of (cols : list string) (rs : list Sqlite.Row) : Sqlite.Table :=
  {| Sqlite.columns := cols; Sqlite.tokenize := None; Sqlite.unindexed := [];
     Sqlite.rows := rs |}.

(** A store with two documents, [r1] and [r2], one block, span, asset,
    attribute, reference and file annotation reference each. *)
Definition block_row (id root path hpath content : string) : Sqlite.Row :=
  row [("id", id); ("root_id", root); ("box", "box0"); ("path", path); ("hpath", hpath);
       ("content", content); ("markdown", content)].

Definition rooted (id root : string) : Sqlite.Row := row [("id", id); ("root_id", root)].

Definition block_rows : list Sqlite.Row :=
  [block_row "b1" "r1" "/r1.sy" "/One" "one"; block_row "b2" "r2" "/r2.sy" "/Two" "two"].

Definition fts_table_of (tokenizer : string) (rs : list Sqlite.Row) : Sqlite.Table :=
  {| Sqlite.columns := Store.fts_columns.*1; Sqlite.tokenize := Some tokenizer;
     Sqlite.unindexed := (List.filter snd Store.fts_columns).*1; Sqlite.rows := rs |}.

Definition indexed_db : Sqlite.Database :=
  {| Sqlite.tables :=
       list_to_map
         [("blocks", table_of Store.blocks_columns block_rows);
          ("blocks_fts", fts_table_of "siyuan" block_rows);
          ("blocks_fts_case_insensitive", fts_table_of "siyuan case_insensitive" block_rows);
          ("spans",
           table_of ["id"; "block_id"; "root_id"; "box"; "path"; "content"; "markdown";
                     "type"; "ial"]
                    [rooted "s1" "r1"; rooted "s2" "r2"]);
          ("assets",
           table_of ["id"; "block_id"; "root_id"; "box"; "docpath"; "path"; "name";
                     "title"; "hash"]
                    [rooted "a1" "r1"; rooted "a2" "r2"]);
          ("attributes",
           table_of ["id"; "name"; "value"; "type"; "block_id"; "root_id"; "box"; "path"]
                    [rooted "t1" "r1"; rooted "t2" "r2"]);
          ("refs",
           table_of ["id"; "def_block_id"; "def_block_parent_id"; "def_block_root_id";
                     "def_block_path"; "block_id"; "root_id"; "box"; "path"; "content";
                     "markdown"; "type"]
                    [rooted "f1" "r1"; rooted "f2" "r2"]);
          ("file_annotation_refs",
           table_of ["id"; "file_path"; "annotation_id"; "block_id"; "root_id"; "box";
                     "path"; "content"; "type"]
                    [rooted "n1" "r1"; rooted "n2" "r2"])];
     Sqlite.indexes := ∅ |}.

Definition tx1 : Store.Tx := {| Store.tx_id := 1 |}.

(** A world with the store open and transaction [tx1] in progress, in the
    given mode and with the given answers of the environment to come. *)
Definition in_transaction (caseSensitive : bool) (answers : list (option string))
    : Store.World :=
  {| Store.db := Store.OpenDB;
     Store.caseSensitive := caseSensitive;
     Store.data := indexed_db;
     Store.tx := Some (tx1, indexed_db);
     Store.disk := {[Store.DBPath env; Store.DBPath env +:+ "-shm";
                     Store.DBPath env +:+ "-wal"; "/data/temp/blocktree.db"]};
     Store.io_results := answers;
     Store.trace := [] |}.

(** Document [r1] after its move to box [box9]. *)
Definition moved : Tree :=
  {| Root := node NodeDocument "r1" "" []; TreeID := "r1"; Box := "box9";
     Path := "/moved/r1.sy"; HPath := "/Moved/One" |}.

Definition delete_r1 : Sqlite.Stmt := Sqlite.DELETE_FROM_WHERE "blocks" ["root_id"].

(** A store that answers with the statement it was given: one block,
    span or row holding it. *)
Definition echo_block (stmt : string) : Block.t :=
  {| Block.ID := ""; Block.ParentID := ""; Block.RootID := ""; Block.Hash := "";
     Block.Box := ""; Block.Path := ""; Block.HPath := ""; Block.Name := "";
     Block.Alias := ""; Block.Memo := ""; Block.Tag := ""; Block.Content := stmt;
     Block.FContent := ""; Block.Markdown := ""; Block.Length := 0; Block.Type_ := "";
     Block.SubType := ""; Block.IAL := ""; Block.Sort := 0; Block.Created := "";
     Block.Updated := "" |}.

Definition echo_span (stmt : string) : Span.t :=
  {| Span.ID := ""; Span.BlockID := ""; Span.RootID := ""; Span.Box := ""; Span.Path := "";
     Span.Content := stmt; Span.Markdown := ""; Span.Type_ := ""; Span.IAL := "" |}.

#[global] Instance echo : Template.Queries := {|
  Template.blocks_for stmt _ := [echo_block stmt];
  Template.spans_for stmt := [echo_span stmt];
  Template.GetBlock _ := None;
  Template.rows_for stmt := ([row [("stmt", stmt)]], None)
|}.

(** A store that holds more than the caps let through: 600 blocks, 600
    spans and 2000 rows for every statement. *)
Definition plenty : Template.Queries := {|
  Template.blocks_for stmt _ := replicate 600 (echo_block stmt);
  Template.spans_for stmt := replicate 600 (echo_span stmt);
  Template.GetBlock _ := None;
  Template.rows_for stmt := (replicate 2000 (row [("stmt", stmt)]), None)
|}.

(** A store of the expected version, and a store without a version row,
    both with their files on disk and no connection yet. *)
Definition at_rest (d : Sqlite.Database) : Store.World :=
  {| Store.db := Store.NilDB; Store.caseSensitive := false; Store.data := d;
     Store.tx := None;
     Store.disk := {[Store.DBPath env; Store.DBPath env +:+ "-shm";
                     Store.DBPath env +:+ "-wal";
                     "/data/temp/blocktree.db"]};
     Store.io_results := []; Store.trace := [] |}.

(** An attribute of paragraph A. *)
Definition attribute (id name value typ : string) : Attribute.t :=
  {| Attribute.ID := id; Attribute.Name := name; Attribute.Value := value;
     Attribute.Type_ := typ; Attribute.BlockID := "A"; Attribute.RootID := "doc1";
     Attribute.Box := "box1"; Attribute.Path := "/doc1.sy" |}.
End Sample.

(* ===================================================================== *)
(** ** The vocabulary of the statements                                   *)
(* ===================================================================== *)

Module Vocabulary.
Import GoStrings Ast.

(** The allow-list of attribute names. *)
Definition allow_listed (name : string) : Prop :=
  (exists rest, name = "custom-" +:+ rest)
  \/ name ∈ ["name"; "alias"; "memo"; "bookmark"; "fold"; "heading-fold"; "style"].

(** The priority table of the block and inline types that have an entry;
    a type without an entry weighs 100. *)
Definition sort_table : list (NodeType * Z) :=
  [(NodeDocument, 0); (NodeHeading, 5);
   (NodeParagraph, 10); (NodeCodeBlock, 10); (NodeMathBlock, 10); (NodeTable, 10);
   (NodeHTMLBlock, 10);
   (NodeList, 20); (NodeListItem, 20); (NodeBlockquote, 20);
   (NodeSuperBlock, 30); (NodeAttributeView, 30);
   (NodeText, 200); (NodeTextMark, 200)].

Definition table_weight (t : NodeType) : Z :=
  match List.find (fun e => bool_decide (e.1 = t)) sort_table with
  | Some e => e.2
  | None => 100
  end.

(** The edge a reference stands for: the using block and the defining
    block. *)
Definition edge (r : Ref.t) : string * string := (Ref.BlockID r, Ref.DefBlockID r).

(** No byte of [s] is the separator [/]. *)
Definition no_slash (s : string) : Prop :=
  Forall (fun c => c <> "/"%char) (list_ascii_of_string s).

(** No byte of [s] is the placeholder [?]. *)
Definition placeholder_free (s : string) : Prop :=
  Forall (fun c => c <> "?"%char) (list_ascii_of_string s).

(** The names [SQLTemplateFuncs] registers. *)
Definition template_names : gset string :=
  {["queryBlocks"; "getBlock"; "querySpans"; "querySQL"]}.
End Vocabulary.

(** The vocabulary of the statements about the store. *)
Module StoreVocabulary.
Import Sqlite Store.

(** The environment reports no error: every coming call succeeds. *)
Definition faultless (w : World) : Prop := Forall (fun r => r = None) (io_results w).

(** Table [t] exists and has the column [c]. *)
Definition has_column (d : Database) (t c : string) : Prop :=
  exists T, tables d !! t = Some T /\ c ∈ columns T.

(** Table [t] exists and has the columns [cols]. *)
Definition table_with (d : Database) (t : string) (cols : list string) : Prop :=
  exists T, tables d !! t = Some T /\ Forall (fun c => c ∈ columns T) cols.

(** The tables whose rows carry a root id. *)
Definition root_tables : list string :=
  ["blocks"; "blocks_fts"; "blocks_fts_case_insensitive"; "spans"; "assets"; "refs";
   "file_annotation_refs"; "attributes"].

(** The base table of the blocks and its two full-text mirrors. *)
Definition block_tables : list string :=
  ["blocks"; "blocks_fts"; "blocks_fts_case_insensitive"].

(** Is the row under the root [rootID]? *)
Definition under_root (rootID : string) (r : Row) : Prop :=
  r !! "root_id" = Some (VText rootID).

#[global] Instance under_root_dec rootID r : Decision (under_root rootID r).
Proof. unfold under_root. apply _. Defined.

(** The rows that are not under the root. *)
Definition without_root (rootID : string) (rs : list Row) : list Row :=
  filter (fun r => ~ under_root rootID r) rs.

(** A row of a block after the rename to the tree's box, path and
    display path; a row under another root is as it was. *)
Definition renamed (tree : Ast.Tree) (r : Row) : Row :=
  if decide (under_root (Ast.TreeID tree) r)
  then <["hpath" := VText (Ast.HPath tree)]>
         (<["path" := VText (Ast.Path tree)]>
            (<["box" := VText (Ast.Box tree)]> r))
  else r.

(** A world where a file-less database has no content. *)
Definition consistent (env : Env) (w : World) : Prop :=
  DBPath env ∉ disk w -> data w = empty_db.

(** The three files of the primary store. *)
Definition store_files (env : Env) : list string :=
  [DBPath env; DBPath env +:+ "-shm"; DBPath env +:+ "-wal"].

(** A table without rows. *)
Definition empty_table (cols : list string) : Table :=
  {| columns := cols; tokenize := None; unindexed := []; rows := [] |}.

Definition empty_fts_table (tokenizer : string) : Table :=
  {| columns := fts_columns.*1; tokenize := Some tokenizer;
     unindexed := (List.filter snd fts_columns).*1; rows := [] |}.

(** The full schema, empty but for the version row of [stat]. *)
Definition fresh_schema (env : Env) : Database :=
  {| tables :=
       list_to_map
         [("stat",
           {| columns := ["key"; "value"]; tokenize := None; unindexed := [];
              rows := [list_to_map [("key", VText (StatVerKey env));
                                    ("value", VText (DatabaseVer env))]] |});
          ("blocks", empty_table blocks_columns);
          ("blocks_fts", empty_fts_table "siyuan");
          ("blocks_fts_case_insensitive", empty_fts_table "siyuan case_insensitive");
          ("spans",
           empty_table ["id"; "block_id"; "root_id"; "box"; "path"; "content"; "markdown";
                        "type"; "ial"]);
          ("assets",
           empty_table ["id"; "block_id"; "root_id"; "box"; "docpath"; "path"; "name";
                        "title"; "hash"]);
          ("attributes",
           empty_table ["id"; "name"; "value"; "type"; "block_id"; "root_id"; "box";
                        "path"]);
          ("refs",
           empty_table ["id"; "def_block_id"; "def_block_parent_id"; "def_block_root_id";
                        "def_block_path"; "block_id"; "root_id"; "box"; "path"; "content";
                        "markdown"; "type"]);
          ("file_annotation_refs",
           empty_table ["id"; "file_path"; "annotation_id"; "block_id"; "root_id"; "box";
                        "path"; "content"; "type"])];
     indexes :=
       list_to_map
         [("idx_blocks_id", ("blocks", "id"));
          ("idx_blocks_parent_id", ("blocks", "parent_id"));
          ("idx_blocks_root_id", ("blocks", "root_id"));
          ("idx_spans_root_id", ("spans", "root_id"));
          ("idx_assets_root_id", ("assets", "root_id"));
          ("idx_attributes_block_id", ("attributes", "block_id"));
          ("idx_attributes_root_id", ("attributes", "root_id"))] |}.

(** The removals of [removeDatabaseFile], all successful. *)
Definition removals (env : Env) : list Effect :=
  (fun p => ERemoveAll p None) <$> store_files env.

(** Is the effect a statement that succeeded? *)
Definition statement_done (e : Effect) : Prop :=
  match e with
  | EExec _ _ None => True
  | _ => False
  end.

(** An effect that neither runs a statement nor removes a file. *)
Definition benign (e : Effect) : Prop :=
  match e with
  | EExec _ _ _ | ERemoveAll _ _ | ERollback | EExit _ => False
  | _ => True
  end.
(** *** Worlds and effects along a run *)

(** The world after the environment has answered one call. *)
Definition answered (w : World) : World := set_io_results (tail (io_results w)) w.

(** The next [n] calls succeed. *)
Definition faultless_for (n : nat) (w : World) : Prop :=
  Forall (fun r => r = None) (take n (io_results w)).

(** The world after [os.RemoveAll(path)] has succeeded. *)
Definition removed (env : Env) (path : string) (w : World) : World :=
  let w1 := set_disk (filter (fun p => under path p = false) (disk w)) (answered w) in
  log (ERemoveAll path None)
      (if under path (DBPath env) then set_data empty_db w1 else w1).

(** The world after the three files have been removed. *)
Definition files_removed (env : Env) (w : World) : World :=
  removed env (DBPath env +:+ "-wal")
    (removed env (DBPath env +:+ "-shm") (removed env (DBPath env) w)).

(** The connection string of [initDBConnection]. *)
Definition dsn (env : Env) : string :=
  DBPath env +:+ "?_journal_mode=WAL" +:+ "&_synchronous=OFF" +:+ "&_mmap_size=2684354560"
  +:+ "&_secure_delete=OFF" +:+ "&_cache_size=-20480" +:+ "&_page_size=32768"
  +:+ "&_busy_timeout=7000" +:+ "&_ignore_check_constraints=ON" +:+ "&_temp_store=MEMORY"
  +:+ "&_case_sensitive_like=OFF".

(** The effects of closing a handle that is not [nil]. *)
Definition closing (h : Handle) : list Effect :=
  match h with
  | NilDB => []
  | _ => [EClose]
  end.

(** The statements of a list, each run on the result of the one before. *)
Fixpoint run_script (stmts : list Stmt) (d : Database) : option Database :=
  match stmts with
  | [] => Some d
  | s :: stmts' =>
      match exec s [] d with
      | inr d' => run_script stmts' d'
      | inl _ => None
      end
  end.

(** [must_Exec s1 >> ... >> must_Exec sn >> k] *)
Definition must_seq {A} (env : Env) (stmts : list Stmt) (k : M A) : M A :=
  fold_right (fun s rest => bind (must_Exec env s) (fun _ => rest)) k stmts.

(** The statements of [initDBTables] before and after the version is
    stored. *)
Definition schema_head : list Stmt :=
  [DROP_TABLE_IF_EXISTS "stat"; CREATE_TABLE "stat" ["key"; "value"]].

Definition schema_tail : list Stmt :=
  [DROP_TABLE_IF_EXISTS "blocks";
   CREATE_TABLE "blocks" blocks_columns;
   CREATE_INDEX "idx_blocks_id" "blocks" "id";
   CREATE_INDEX "idx_blocks_parent_id" "blocks" "parent_id";
   CREATE_INDEX "idx_blocks_root_id" "blocks" "root_id";
   DROP_TABLE_IF_EXISTS "blocks_fts";
   CREATE_VIRTUAL_TABLE_fts5 "blocks_fts" fts_columns "siyuan";
   DROP_TABLE_IF_EXISTS "blocks_fts_case_insensitive";
   CREATE_VIRTUAL_TABLE_fts5 "blocks_fts_case_insensitive" fts_columns
                             "siyuan case_insensitive";
   DROP_TABLE_IF_EXISTS "spans";
   CREATE_TABLE "spans"
     ["id"; "block_id"; "root_id"; "box"; "path"; "content"; "markdown"; "type"; "ial"];
   CREATE_INDEX "idx_spans_root_id" "spans" "root_id";
   DROP_TABLE_IF_EXISTS "assets";
   CREATE_TABLE "assets"
     ["id"; "block_id"; "root_id"; "box"; "docpath"; "path"; "name"; "title"; "hash"];
   CREATE_INDEX "idx_assets_root_id" "assets" "root_id";
   DROP_TABLE_IF_EXISTS "attributes";
   CREATE_TABLE "attributes"
     ["id"; "name"; "value"; "type"; "block_id"; "root_id"; "box"; "path"];
   CREATE_INDEX "idx_attributes_block_id" "attributes" "block_id";
   CREATE_INDEX "idx_attributes_root_id" "attributes" "root_id";
   DROP_TABLE_IF_EXISTS "refs";
   CREATE_TABLE "refs"
     ["id"; "def_block_id"; "def_block_parent_id"; "def_block_root_id"; "def_block_path";
      "block_id"; "root_id"; "box"; "path"; "content"; "markdown"; "type"];
   DROP_TABLE_IF_EXISTS "file_annotation_refs"].

Definition schema_last : Stmt :=
  CREATE_TABLE "file_annotation_refs"
    ["id"; "file_path"; "annotation_id"; "block_id"; "root_id"; "box"; "path"; "content";
     "type"].

(** The effects of [InitDatabase] up to the version check. *)
Definition opening (env : Env) (forceRebuild : bool) (h : Handle) : list Effect :=
  [EClearCache; ECacheEnabled false; EBootProgress]
  ++ (if forceRebuild then [EClearQueue] else [])
  ++ closing h ++ [EOpen (dsn env); EInitBlockTree forceRebuild].

(** What a reuse leaves behind. *)
Definition reused (w w' : World) : Prop :=
  data w' = data w /\ disk w' = disk w
  /\ exists evs, trace w' = trace w ++ evs /\ Forall benign evs.

(** What the rebuild leaves behind. *)
Definition rebuilt (env : Env) (w w' : World) : Prop :=
  data w' = fresh_schema env
  /\ DBPath env ∈ disk w'
  /\ (DBPath env ∈ disk w ->
      ~ DBPath env +:+ "-shm" ∈ disk w' /\ ~ DBPath env +:+ "-wal" ∈ disk w')
  /\ (forall p, p ∈ disk w' -> p = DBPath env \/ p ∈ disk w)
  /\ exists before stmts,
      trace w'
      = trace w ++ before ++ [EClose]
        ++ (if decide (DBPath env ∈ disk w) then removals env else [])
        ++ [EClose; EOpen (dsn env)] ++ stmts ++ [ECacheEnabled true]
      /\ Forall benign before /\ Forall statement_done stmts.
End StoreVocabulary.

(* ===================================================================== *)
(** ** Reading an attribute off the text of an attribute list             *)
(* ===================================================================== *)

Module IalText.
Import GoStrings.

(** The string of the one byte 34, the double quote. *)
Definition quote : string := String (ascii_of_nat 34) EmptyString.

(** [s[lo:]] and [s[:hi]]: an index out of range panics ([None]). *)
Definition slice_from_checked (s : string) (lo : Z) : option string :=
  if (0 <=? lo) && (lo <=? len s) then Some (slice_from s lo) else None.

Definition slice_to_checked (s : string) (hi : Z) : option string :=
  if (0 <=? hi) && (hi <=? len s) then Some (slice_to s hi) else None.

(** [ialAttr] *)
Definition ialAttr (ial name : string) : option string :=
  let idx := Index ial name in
  if 0 >? idx then Some ""
  else
    match slice_from_checked ial (idx + len name + 2) with
    | None => None
    | Some ret => slice_to_checked ret (Index ret quote)
    end.

(** No byte of [s] is the quote. *)
Definition no_quote (s : string) : Prop :=
  Forall (fun c => c <> ascii_of_nat 34) (list_ascii_of_string s).
End IalText.

(* ===================================================================== *)
(** ** Deleting by box, by path and by root; inserting                    *)
(* ===================================================================== *)

Module Deletion.
Import GoStrings Sqlite Store.
Local Open Scope m_scope.

Section WithEnv.
Context (env : Env).

(** [if !caseSensitive { if err = execStmtTx(...); err != nil { return } }] *)
Definition unless_caseSensitive (m : M (option string)) : M (option string) :=
  fun w => if negb (caseSensitive w) then m w else ret None w.

(** [deleteBlocksByBoxTx] *)
Definition deleteBlocksByBoxTx (t : Tx) (box : string) : M (option string) :=
  (* "DELETE FROM blocks WHERE box = ?" *)
  execStmtTx env t (DELETE_FROM_WHERE "blocks" ["box"]) [VText box] >>?
  (* "DELETE FROM blocks_fts WHERE box = ?" *)
  execStmtTx env t (DELETE_FROM_WHERE "blocks_fts" ["box"]) [VText box] >>?
  (* "DELETE FROM blocks_fts_case_insensitive WHERE box = ?" *)
  unless_caseSensitive
    (execStmtTx env t (DELETE_FROM_WHERE "blocks_fts_case_insensitive" ["box"])
                [VText box]) >>?
  (ClearCache >>
   ret None).

(** [deleteSpansByRootID]: "DELETE FROM spans WHERE root_id =?" *)
Definition deleteSpansByRootID (t : Tx) (rootID : string) : M (option string) :=
  execStmtTx env t (DELETE_FROM_WHERE "spans" ["root_id"]) [VText rootID].

(** [deleteSpansByBoxTx]: "DELETE FROM spans WHERE box = ?" *)
Definition deleteSpansByBoxTx (t : Tx) (box : string) : M (option string) :=
  execStmtTx env t (DELETE_FROM_WHERE "spans" ["box"]) [VText box].

(** [deleteAssetsByRootID]: "DELETE FROM assets WHERE root_id = ?" *)
Definition deleteAssetsByRootID (t : Tx) (rootID : string) : M (option string) :=
  execStmtTx env t (DELETE_FROM_WHERE "assets" ["root_id"]) [VText rootID].

(** [deleteAssetsByBoxTx]: "DELETE FROM assets WHERE box = ?" *)
Definition deleteAssetsByBoxTx (t : Tx) (box : string) : M (option string) :=
  execStmtTx env t (DELETE_FROM_WHERE "assets" ["box"]) [VText box].

(** [deleteAttributesByRootID]: "DELETE FROM attributes WHERE root_id = ?" *)
Definition deleteAttributesByRootID (t : Tx) (rootID : string) : M (option string) :=
  execStmtTx env t (DELETE_FROM_WHERE "attributes" ["root_id"]) [VText rootID].

(** [deleteAttributesByBoxTx]: "DELETE FROM attributes WHERE box = ?" *)
Definition deleteAttributesByBoxTx (t : Tx) (box : string) : M (option string) :=
  execStmtTx env t (DELETE_FROM_WHERE "attributes" ["box"]) [VText box].

(** [deleteRefsByPath]: "DELETE FROM refs WHERE box = ? AND path = ?" *)
Definition deleteRefsByPath (t : Tx) (box path : string) : M (option string) :=
  execStmtTx env t (DELETE_FROM_WHERE "refs" ["box"; "path"]) [VText box; VText path].

(** [deleteRefsByPathTx]: "DELETE FROM refs WHERE box = ? AND path = ?" *)
Definition deleteRefsByPathTx (t : Tx) (box path : string) : M (option string) :=
  execStmtTx env t (DELETE_FROM_WHERE "refs" ["box"; "path"]) [VText box; VText path].

(** [deleteBlockRefsByBoxTx]: "DELETE FROM refs WHERE box = ?" *)
Definition deleteBlockRefsByBoxTx (t : Tx) (box : string) : M (option string) :=
  execStmtTx env t (DELETE_FROM_WHERE "refs" ["box"]) [VText box].

(** [deleteFileAnnotationRefsByPath]:
    "DELETE FROM file_annotation_refs WHERE box = ? AND path = ?" *)
Definition deleteFileAnnotationRefsByPath (t : Tx) (box path : string)
    : M (option string) :=
  execStmtTx env t (DELETE_FROM_WHERE "file_annotation_refs" ["box"; "path"])
             [VText box; VText path].

(** [deleteFileAnnotationRefsByPathTx]:
    "DELETE FROM file_annotation_refs WHERE box = ? AND path = ?" *)
Definition deleteFileAnnotationRefsByPathTx (t : Tx) (box path : string)
    : M (option string) :=
  execStmtTx env t (DELETE_FROM_WHERE "file_annotation_refs" ["box"; "path"])
             [VText box; VText path].

(** [deleteFileAnnotationRefsByBoxTx]:
    "DELETE FROM file_annotation_refs WHERE box = ?" *)
Definition deleteFileAnnotationRefsByBoxTx (t : Tx) (box : string) : M (option string) :=
  execStmtTx env t (DELETE_FROM_WHERE "file_annotation_refs" ["box"]) [VText box].

(** [deleteRefsByBoxTx] *)
Definition deleteRefsByBoxTx (t : Tx) (box : string) : M (option string) :=
  deleteFileAnnotationRefsByBoxTx t box >>?
  deleteBlockRefsByBoxTx t box.

(** [deleteByBoxTx] *)
Definition deleteByBoxTx (t : Tx) (box : string) : M (option string) :=
  deleteBlocksByBoxTx t box >>?
  deleteSpansByBoxTx t box >>?
  deleteAssetsByBoxTx t box >>?
  deleteAttributesByBoxTx t box >>?
  deleteBlockRefsByBoxTx t box >>?
  deleteFileAnnotationRefsByBoxTx t box >>?
  ret None.

(** [tx.Prepare(stmtSQL)].  The statement is checked against the schema
    when it runs; what the driver answers to the preparation is the
    environment's to say. *)
Definition tx_Prepare (t : Tx) (s : Stmt) : M (option string) :=
  r <- next_result ;;
  match r with
  | Some msg => ret (Some msg)
  | None => fun w => if live t w then (Ret None, w) else (Ret (Some ErrTxDone), w)
  end.

(** [prepareExecInsertTx]; [stmt.Exec(args...)] of a statement prepared
    in the transaction runs in the transaction. *)
Definition prepareExecInsertTx (t : Tx) (stmtSQL : Stmt) (args : list Value)
    : M (option string) :=
  err <- tx_Prepare t stmtSQL ;;
  match err with
  | Some _ => ret err
  | None =>
      err <- tx_Exec env t stmtSQL args ;;
      (* logging.LogErrorf on an error *)
      ret err
  end.
End WithEnv.
End Deletion.

(** The vocabulary of the statements about deletions and runs. *)
Module RunVocabulary.
Import Sqlite Store StoreVocabulary.

(** Does the row hold every value of [conds] in its column? *)
Definition satisfies (conds : list (string * Value)) (r : Row) : Prop :=
  Forall (fun cv => r !! cv.1 = Some cv.2) conds.

#[global] Instance satisfies_dec conds r : Decision (satisfies conds r).
Proof. unfold satisfies. apply _. Defined.

(** The rows that do not satisfy [conds], in their order. *)
Definition rows_without (conds : list (string * Value)) (rs : list Row) : list Row :=
  filter (fun r => ~ satisfies conds r) rs.

(** The rows that are not in the box. *)
Definition without_box (box : string) (rs : list Row) : list Row :=
  rows_without [("box", VText box)] rs.

(** The rows that are not both in the box and at the path. *)
Definition without_path (box path : string) (rs : list Row) : list Row :=
  rows_without [("box", VText box); ("path", VText path)] rs.

(** The content after [DELETE FROM tbl WHERE conds]. *)
Definition delete_where (tbl : string) (conds : list (string * Value)) (d : Database)
    : Database :=
  match tables d !! tbl with
  | Some T => put_table d tbl (with_rows T (rows_without conds (rows T)))
  | None => d
  end.

(** The content after every row of [tbl] has been replaced by its image
    under [f]. *)
Definition map_rows (tbl : string) (f : Row -> Row) (d : Database) : Database :=
  match tables d !! tbl with
  | Some T => put_table d tbl (with_rows T (f <$> rows T))
  | None => d
  end.

(** A row of a block with the display path of the tree; a row under
    another root is as it was. *)
Definition with_hpath (tree : Ast.Tree) (r : Row) : Row :=
  if decide (under_root (Ast.TreeID tree) r)
  then <["hpath" := VText (Ast.HPath tree)]> r
  else r.

(** The effects of a call: what it has added to the trace. *)
Definition effects (w w' : World) : list Effect := drop (length (trace w)) (trace w').

(** The call that led from [w] to [w'] has added effects to the trace,
    each with the property [P]. *)
Definition extends (P : Effect -> Prop) (w w' : World) : Prop :=
  exists evs, trace w' = trace w ++ evs /\ Forall P evs.

(** An event on the bus. *)
Definition published (e : Effect) : Prop :=
  match e with
  | EPublish _ _ => True
  | _ => False
  end.

(** An effect that is neither an event on the bus nor a clearing of the
    cache. *)
Definition unannounced (e : Effect) : Prop :=
  match e with
  | EPublish _ _ | EClearCache => False
  | _ => True
  end.

(** A function that runs statements stops at the first one that fails.
    When all succeed, its effects are the statements and then [finish].
    When one fails, it is the last effect and its error is returned;
    unless the error tells of a malformed disk image: then the process
    ends with the exit code for a read-only database, and nothing is
    announced on the way out.  The function does not panic. *)
Definition stops_at_first_error (env : Env) (finish : list Effect)
    (m : M (option string)) : Prop :=
  forall w,
    match m w with
    | (Ret None, w') =>
        exists stmts, trace w' = trace w ++ stmts ++ finish /\ Forall statement_done stmts
    | (Ret (Some msg), w') =>
        exists stmts s args,
          trace w' = trace w ++ stmts ++ [EExec s args (Some msg)]
          /\ Forall statement_done stmts
    | (Exit code, w') =>
        code = ExitCodeReadOnlyDatabase env
        /\ exists stmts s args msg rest,
            trace w' = trace w ++ stmts ++ EExec s args (Some msg) :: rest
            /\ Forall statement_done stmts
            /\ GoStrings.Contains msg malformed = true
            /\ Forall unannounced rest
    | (Panic, _) => False
    end.

(** An effect other than the enabling of the cache. *)
Definition cache_left_off (e : Effect) : Prop := e <> ECacheEnabled true.

(** How a call that started in [w] has ended: it has returned a value
    and a world with the property [Q], or it has ended the process with
    the exit code for a read-only database, the exit being the last
    effect; the effects before have the property [P].  It has not
    panicked. *)
Definition ends {A} (env : Env) (P : Effect -> Prop) (Q : A -> World -> Prop)
    (w : World) (r : Result A * World) : Prop :=
  match r with
  | (Ret a, w') => Q a w' /\ extends P w w'
  | (Exit code, w') =>
      code = ExitCodeReadOnlyDatabase env
      /\ exists evs, trace w' = trace w ++ evs ++ [EExit code] /\ Forall P evs
  | (Panic, _) => False
  end.
End RunVocabulary.

(** The vocabulary of the statements about trees. *)
Module TreeVocabulary.
Import GoStrings Ast Extraction.
Local Open Scope x_scope.

(** The nodes of a tree in document order: a node before its children,
    the children from first to last. *)
Fixpoint preorder (n : Node) : list Node :=
  let 'MkNode _ cs := n in
  n :: concat (List.map preorder cs).

Section WithCollaborators.
Context `{Collaborators}.

(** The tags of the text marks of type "tag" among [ns], each between
    two [#] and followed by a space. *)
Definition tags_of (ns : list Node) : string :=
  fold_right
    (fun n rest =>
       if IsTextMarkType n "tag" then "#" +:+ NodeContent n +:+ "# " +:+ rest else rest)
    "" ns.
End WithCollaborators.

(** Is [E2] the byte that starts the zero-width space? *)
Definition lead (c : ascii) : Prop := c = ascii_of_nat 226.

(** In [s] no byte E2 follows another at a distance of one or two
    bytes.  So it is in every well-formed UTF-8 text, where E2 starts a
    sequence of three bytes whose second and third lie in 80..BF. *)
Fixpoint leads_apart (s : string) : Prop :=
  match s with
  | EmptyString => True
  | String c s' =>
      (lead c ->
       match s' with
       | EmptyString => True
       | String x EmptyString => ~ lead x
       | String x (String y _) => ~ lead x /\ ~ lead y
       end)
      /\ leads_apart s'
  end.
End TreeVocabulary.

(* ===================================================================== *)
(** ** Extraction: spans, assets and the entities of a whole tree         *)
(* ===================================================================== *)

Module Indexing.
Import GoStrings Ast Extraction.
Local Open Scope x_scope.

(** [n.ChildByType(childType)]: the first child of that type, or [nil]. *)
Definition ChildByType (n : Node) (childType : NodeType) : option Node :=
  List.find (fun c => bool_decide (Type_ (data c) = childType)) (Children n).

(** What [buildSpanFromNode] calls outside [database.go], beyond the
    collaborators of the block extraction: methods of the parser
    library, the HTML parser, and functions of the packages [filepath],
    [util], [gulu] and [sql].  [ParseFragment] answers with the error or
    with the parsed nodes, each given by its attributes, key and value,
    in their order.  [IsDir] and [GetEtag] read the file system, which
    is taken to stay as it is while a tree is extracted.
    [docTitleImgAsset] and [docTagSpans] may draw node identifiers. *)
Class SpanCollaborators := {
  (* lute *)
  NodeText : Node -> string;                                  (* n.Text() *)
  SetIALAttr : list (string * string) -> string -> string
               -> list (string * string);                     (* n.SetIALAttr *)
  (* golang.org/x/net/html *)
  ParseFragment : string -> string + list (list (string * string));
  (* path/filepath *)
  Join : string -> string -> string;
  (* kernel/util, gulu *)
  DataDir : string;
  IsAssetLinkDest : string -> bool;
  GetEtag : string -> string * option string;
  LastID : string -> string * string;
  IsDir : string -> bool;
  (* kernel/sql *)
  assetLocalPath : string -> string -> string -> string;
  docTitleImgAsset : Node -> string -> string -> X (option Asset.t);
  docTagSpans : Node -> X (list Span.t)
}.

(** The four slices [buildSpanFromNode] and [fromTree] return. *)
Record Entities := {
  blocks : list Block.t;
  spans : list Span.t;
  assets : list Asset.t;
  attributes : list Attribute.t
}.

Definition no_entities : Entities :=
  {| blocks := []; spans := []; assets := []; attributes := [] |}.

(** [blocks = append(blocks, spanBlocks...)] and so on, slice by slice. *)
Definition append (a b : Entities) : Entities :=
  {| blocks := blocks a ++ blocks b;
     spans := spans a ++ spans b;
     assets := assets a ++ assets b;
     attributes := attributes a ++ attributes b |}.

(** [n.ID = id; n.KramdownIAL = ial], the other fields and the children
    as they are. *)
Definition assign_ID_IAL (n : Node) (id : string) (ial : list (string * string)) : Node :=
  let d := data n in
  MkNode {| Type_ := Type_ d; ID := id; Tokens := Tokens d; KramdownIAL := ial;
            TextMarkType := TextMarkType d; TextMarkAHref := TextMarkAHref d;
            TextMarkTextContent := TextMarkTextContent d;
            TextMarkBlockRefID := TextMarkBlockRefID d;
            TextMarkFileAnnotationRefID := TextMarkFileAnnotationRefID d |}
         (Children n).

(** [b.Type = typ] *)
Definition assign_Type (b : Block.t) (typ : string) : Block.t :=
  {| Block.ID := Block.ID b; Block.ParentID := Block.ParentID b;
     Block.RootID := Block.RootID b; Block.Hash := Block.Hash b;
     Block.Box := Block.Box b; Block.Path := Block.Path b;
     Block.HPath := Block.HPath b; Block.Name := Block.Name b;
     Block.Alias := Block.Alias b; Block.Memo := Block.Memo b;
     Block.Tag := Block.Tag b; Block.Content := Block.Content b;
     Block.FContent := Block.FContent b; Block.Markdown := Block.Markdown b;
     Block.Length := Block.Length b; Block.Type_ := typ;
     Block.SubType := Block.SubType b; Block.IAL := Block.IAL b;
     Block.Sort := Block.Sort b; Block.Created := Block.Created b;
     Block.Updated := Block.Updated b |}.

(** [s[:hi]] in a computation: out of range it panics. *)
Definition slice_to_or_panic (s : string) (hi : Z) : X string :=
  match IalText.slice_to_checked s hi with
  | Some r => ret r
  | None => panic
  end.

(** The key of an HTML attribute that names a source:
    ["src" == attr.Key || strings.HasPrefix(attr.Key, "data-assets") ||
     strings.HasPrefix(attr.Key, "custom-data-assets")]. *)
Definition is_src_key (key : string) : bool :=
  String.eqb "src" key || HasPrefix key "data-assets"
  || HasPrefix key "custom-data-assets".

(** [for _, attr := range attrs { if <is_src_key> { src = attr.Val; break } }]:
    the value of the first attribute with such a key, empty when there
    is none. *)
Definition src_of (attrs : list (string * string)) : string :=
  match List.find (fun attr => is_src_key attr.1) attrs with
  | Some attr => attr.2
  | None => ""
  end.

(** The nodes whose type is one of [NodeHTMLBlock], [NodeIFrame],
    [NodeWidget], [NodeAudio], [NodeVideo]. *)
Definition is_html_block_type (t : NodeType) : bool :=
  match t with
  | NodeHTMLBlock | NodeIFrame | NodeWidget | NodeAudio | NodeVideo => true
  | _ => false
  end.

Section WithCollaborators.
Context `{Collaborators} `{SpanCollaborators}.

(** The package variable [indexAssetPath]. *)
Variable indexAssetPath : bool.

(** [var title string; if titleNode := n.ChildByType(ast.NodeLinkTitle);
     nil != titleNode { title = titleNode.Tokens }] *)
Definition title_of (n : Node) : string :=
  match ChildByType n NodeLinkTitle with
  | Some titleNode => Tokens (data titleNode)
  | None => ""
  end.

(** [var hash string; if lp := assetLocalPath(...); "" != lp { ... }]: the
    hash [util.GetEtag] returns, error or not.  The image and the text
    mark skip a directory ([skipDir]); the HTML nodes do not ask. *)
Definition hash_of (skipDir : bool) (dest boxLocalPath docDirLocalPath : string) : string :=
  let lp := assetLocalPath dest boxLocalPath docDirLocalPath in
  if negb (String.eqb "" lp) then
    if skipDir && IsDir lp then "" else (GetEtag lp).1
  else "".

(** The [&Asset{...}] literal the three cases share: a fresh identifier,
    then the fields. *)
Definition new_asset (blockID rootID boxID p dest title hash : string) : X Asset.t :=
  let name := (LastID dest).1 in
  id <- NewNodeID ;;
  ret {| Asset.ID := id; Asset.BlockID := blockID; Asset.RootID := rootID;
         Asset.Box := boxID; Asset.DocPath := p; Asset.Path := dest;
         Asset.Name := name; Asset.Title := title; Asset.Hash := hash |}.

(** [buildSpanFromNode].  Beside the four slices and the walk status the
    result holds the node as the call leaves it: [n] is a pointer, and
    the case of the inline HTML assigns to its fields.  The status [-1]
    is the one the source returns when the node is no span. *)
Definition buildSpanFromNode (ancestors : list Node) (n : Node) (tree : Tree)
    (rootID boxID p : string) : X (Entities * WalkStatus * Node) :=
  let boxLocalPath := Join DataDir boxID in
  let docDirLocalPath := Join boxLocalPath p in
  match Type_ (data n) with
  | NodeImage =>
      let text := NodeText n in
      let markdown := ExportNodeStdMd n in
      let parentBlock := ParentBlock ancestors n in
      id <- NewNodeID ;;
      blockID <- deref_ID parentBlock ;;
      let span :=
        {| Span.ID := id; Span.BlockID := blockID; Span.RootID := rootID;
           Span.Box := boxID; Span.Path := p; Span.Content := text;
           Span.Markdown := markdown;
           Span.Type_ := TypeAbbr (NodeTypeString (Type_ (data n)));
           Span.IAL := IALStr n |} in
      match ChildByType n NodeLinkDest with
      | None =>
          ret ({| blocks := []; spans := [span]; assets := []; attributes := [] |},
               WalkSkipChildren, n)
      | Some destNode =>
          if negb (IsAssetLinkDest (Tokens (data destNode))) then
            ret ({| blocks := []; spans := [span]; assets := []; attributes := [] |},
                 WalkSkipChildren, n)
          else
            let dest := Tokens (data destNode) in
            let title := title_of n in
            let hash := hash_of true dest boxLocalPath docDirLocalPath in
            asset <- new_asset blockID rootID boxID p dest title hash ;;
            ret ({| blocks := []; spans := [span]; assets := [asset];
                    attributes := [] |},
                 WalkSkipChildren, n)
      end
  | NodeTextMark =>
      let typ := TypeAbbr (NodeTypeString (Type_ (data n))) +:+ " "
                 +:+ TextMarkType (data n) in
      let text := NodeContent n in
      let markdown := ExportNodeStdMd n in
      let parentBlock := ParentBlock ancestors n in
      id <- NewNodeID ;;
      blockID <- deref_ID parentBlock ;;
      let span :=
        {| Span.ID := id; Span.BlockID := blockID; Span.RootID := rootID;
           Span.Box := boxID; Span.Path := p; Span.Content := text;
           Span.Markdown := markdown; Span.Type_ := typ; Span.IAL := IALStr n |} in
      if IsTextMarkType n "a" && IsAssetLinkDest (TextMarkAHref (data n)) then
        let dest := TextMarkAHref (data n) in
        let title := title_of n in
        let hash := hash_of true dest boxLocalPath docDirLocalPath in
        asset <- new_asset blockID rootID boxID p dest title hash ;;
        ret ({| blocks := []; spans := [span]; assets := [asset]; attributes := [] |},
             WalkSkipChildren, n)
      else
        ret ({| blocks := []; spans := [span]; assets := []; attributes := [] |},
             WalkSkipChildren, n)
  | NodeDocument =>
      asset <- docTitleImgAsset n boxLocalPath docDirLocalPath ;;
      tags <- docTagSpans n ;;
      ret ({| blocks := []; spans := tags;
              assets := match asset with Some a => [a] | None => [] end;
              attributes := [] |},
           -1, n)
  | NodeInlineHTML | NodeHTMLBlock | NodeIFrame | NodeWidget | NodeAudio | NodeVideo =>
      match ParseFragment (Tokens (data n)) with
      | inl _ => ret (no_entities, WalkContinue, n)
      | inr nodes =>
          if (1 >? Z.of_nat (length nodes))
             && negb (bool_decide (Type_ (data n) = NodeHTMLBlock))
          then ret (no_entities, WalkContinue, n)
          else
            own <-
              (if is_html_block_type (Type_ (data n)) then
                 r <- buildBlockFromNode indexAssetPath ancestors n tree ;;
                 ret {| blocks := [r.1]; spans := []; assets := [];
                        attributes := r.2 |}
               else ret no_entities) ;;
            if bool_decide (Type_ (data n) = NodeInlineHTML) then
              (* the inline HTML becomes a block with an identifier of its own *)
              id <- NewNodeID ;;
              updated <- slice_to_or_panic id 14 ;;
              let n :=
                assign_ID_IAL n id
                  (SetIALAttr (SetIALAttr (KramdownIAL (data n)) "id" id)
                              "updated" updated) in
              r <- buildBlockFromNode indexAssetPath ancestors n tree ;;
              let b := assign_Type r.1 (NodeTypeString NodeHTMLBlock) in
              ret (append own {| blocks := [b]; spans := []; assets := [];
                                 attributes := r.2 |},
                   WalkContinue, n)
            else
              match nodes with
              | [] => ret (own, WalkContinue, n)
              | first_node :: _ =>
                  let src := src_of first_node in
                  if 1 >? len src then ret (own, WalkContinue, n)
                  else if negb (IsAssetLinkDest src) then ret (own, WalkContinue, n)
                  else
                    let dest := src in
                    let hash := hash_of false dest boxLocalPath docDirLocalPath in
                    (* [parentBlock = n]: the node is no inline HTML here *)
                    asset <- new_asset (ID (data n)) rootID boxID p dest "" hash ;;
                    ret (append own {| blocks := []; spans := []; assets := [asset];
                                       attributes := [] |},
                         WalkSkipChildren, n)
              end
      end
  | _ => ret (no_entities, -1, n)
  end.

(** *** [ast.Walk] with a walker that assigns to the node

    As [Walk], for a walker that may assign to the fields of the node it
    is called on: it answers with the node as it leaves it, and that
    node is the parent the children are walked under. *)
Section WalkAssigning.
Context {S : Type}.
Variable walker : list Node -> Node -> bool -> S -> option (WalkStatus * Node * S).

Fixpoint WalkAssigning (ancestors : list Node) (n : Node) (s : S) : option S :=
  match walker ancestors n true s with
  | None => None
  | Some (status, n1, s1) =>
      if status =? WalkStop then Some s1
      else
        let after_children :=
          if status =? WalkSkipChildren then Some s1
          else
            (fix walk_children (cs : list Node) (s : S) : option S :=
               match cs with
               | [] => Some s
               | c :: cs' =>
                   match WalkAssigning (n1 :: ancestors) c s with
                   | None => None
                   | Some s' => walk_children cs' s'
                   end
               end) (Children n) s1 in
        match after_children with
        | None => None
        | Some s2 =>
            match walker ancestors n1 false s2 with
            | None => None
            | Some (_, _, s3) => Some s3
            end
        end
  end.

(** The loop over the children, as a function of its own. *)
Fixpoint WalkAssigningChildren (ancestors : list Node) (cs : list Node) (s : S)
    : option S :=
  match cs with
  | [] => Some s
  | c :: cs' =>
      match WalkAssigning ancestors c s with
      | None => None
      | Some s' => WalkAssigningChildren ancestors cs' s'
      end
  end.
End WalkAssigning.

(** The closure [fromTree] hands to [ast.Walk]; its state is the four
    slices it appends to and the state of the extraction. *)
Definition fromTree_walker (tree : Tree) (ancestors : list Node) (n : Node)
    (entering : bool) (s : Entities * XState)
    : option (WalkStatus * Node * (Entities * XState)) :=
  let rootID := ID (data (Root tree)) in
  let boxID := Box tree in
  let p := Path tree in
  let '(found, st) := s in
  if negb entering then Some (WalkContinue, n, (found, st))
  else
    match buildSpanFromNode ancestors n tree rootID boxID p st with
    | None => None
    | Some (span_found, walkStatus, n, st) =>
        let found := append found span_found in
        match buildAttributeFromNode ancestors n rootID boxID p st with
        | None => None
        | Some (attrs, st) =>
            let found :=
              {| blocks := blocks found; spans := spans found;
                 assets := assets found;
                 attributes := attributes found ++ attrs |} in
            if negb (walkStatus =? -1) then Some (walkStatus, n, (found, st))
            else if String.eqb "" (ID (data n)) || negb (IsBlock n)
            then Some (WalkContinue, n, (found, st))
            else
              match buildBlockFromNode indexAssetPath ancestors n tree st with
              | None => None
              | Some (b, attrs, st) =>
                  Some (WalkContinue, n,
                        ({| blocks := blocks found ++ [b]; spans := spans found;
                            assets := assets found;
                            attributes := attributes found ++ attrs |}, st))
              end
        end
    end.

(** [fromTree]: the walk from [node], which has the ancestors
    [ancestors] in the tree. *)
Definition fromTree (ancestors : list Node) (node : Node) (tree : Tree) (st : XState)
    : option (Entities * XState) :=
  WalkAssigning (fromTree_walker tree) ancestors node (no_entities, st).
End WithCollaborators.
End Indexing.

(** The vocabulary of the results on [fromTree]. *)
Module IndexingVocabulary.
Import GoStrings Ast Extraction Indexing.

(** The types [buildSpanFromNode] handles as HTML. *)
Definition is_html_type (t : NodeType) : bool :=
  bool_decide (t = NodeInlineHTML) || is_html_block_type t.

(** The types [buildSpanFromNode] turns into a span. *)
Definition is_span_type (t : NodeType) : bool :=
  bool_decide (t = NodeImage) || bool_decide (t = NodeTextMark).

(** The nodes the walk of [fromTree] enters when no node is HTML: a
    node, then what is entered below each of its children in turn; below
    an image or a text mark, nothing. *)
Fixpoint entered (n : Node) : list Node :=
  let 'MkNode d cs := n in
  n :: (if is_span_type (Type_ d) then []
        else concat (List.map entered cs)).

Section WithCollaborators.
Context `{Collaborators}.

(** The entered nodes [fromTree] builds a block for: those with an
    identifier that are blocks and no spans. *)
Definition becomes_block (n : Node) : bool :=
  negb (is_span_type (Type_ (data n)))
  && negb (String.eqb "" (ID (data n))) && IsBlock n.

(** The rows of a tree carry its root, box and path. *)
Definition block_of_tree (tree : Tree) (b : Block.t) : Prop :=
  Block.RootID b = ID (data (Root tree)) /\ Block.Box b = Box tree
  /\ Block.Path b = Path tree /\ Block.HPath b = HPath tree.

Definition attribute_of_tree (tree : Tree) (a : Attribute.t) : Prop :=
  Attribute.RootID a = ID (data (Root tree)) /\ Attribute.Box a = Box tree
  /\ Attribute.Path a = Path tree.

(** What [fromTree] keeps of an attribute. *)
Definition attribute_kept (tree : Tree) (a : Attribute.t) : Prop :=
  Vocabulary.allow_listed (Attribute.Name a)
  /\ (Attribute.Type_ a = "s" \/ Attribute.Type_ a = "b")
  /\ attribute_of_tree tree a.
End WithCollaborators.
End IndexingVocabulary.

(** Sample collaborators and trees for the results on [fromTree]. *)
Module IndexingSample.
Import GoStrings Ast Extraction Indexing Sample.

(** A fragment parses into no node when it is empty, into one node with
    the attribute [src] when it starts with the less-than sign (what
    follows is the value), and fails to parse otherwise. *)
#[global] Instance span_collaborators : SpanCollaborators := {|
  NodeText := text_of;
  SetIALAttr ial name value := (name, value) :: ial;
  ParseFragment tokens :=
    if String.eqb "" tokens then inr []
    else if HasPrefix tokens "<" then inr [[("src", slice_from tokens 1)]]
    else inl "malformed";
  Join a b := a +:+ "/" +:+ b;
  DataDir := "/data";
  IsAssetLinkDest dest := HasPrefix dest "assets/";
  GetEtag lp := ("etag", None);
  LastID dest := (dest, "");
  IsDir lp := false;
  assetLocalPath dest boxLocalPath docDirLocalPath := boxLocalPath +:+ "/" +:+ dest;
  docTitleImgAsset n boxLocalPath docDirLocalPath := ret None;
  docTagSpans n := ret []
|}.

(** A text mark of type [a] that links to [href]. *)
Definition link (href anchor : string) : Node :=
  MkNode {| Type_ := NodeTextMark; ID := ""; Tokens := ""; KramdownIAL := [];
            TextMarkType := "a"; TextMarkAHref := href;
            TextMarkTextContent := anchor; TextMarkBlockRefID := "";
            TextMarkFileAnnotationRefID := "" |} [].

(** An image with its destination and title. *)
Definition image (dest title : string) : Node :=
  node NodeImage "" "" [node NodeLinkDest "" dest []; node NodeLinkTitle "" title []].

(** A paragraph with a link to an asset and an image. *)
Definition paragraph_media : Node :=
  node NodeParagraph "M" ""
       [text "see "; link "assets/a.pdf" "the paper"; image "assets/b.png" "a figure"].

Definition doc_media : Tree :=
  tree_of (node NodeDocument "doc1" "" [paragraph_media; paragraph_named]).

(** An inline frame whose tokens parse into no node, with a paragraph
    below it. *)
Definition empty_iframe : Node :=
  node NodeIFrame "F" "" [node NodeParagraph "P" "" [text "below"]].

(** An HTML block whose tokens parse into no node. *)
Definition empty_html_block : Node := node NodeHTMLBlock "H" "" [].

(** An inline HTML node. *)
Definition inline_html : Node := node NodeInlineHTML "" "<assets/c.js" [].

(** A document with a video that names an asset, an empty HTML block
    and a named paragraph. *)
Definition doc_html : Tree :=
  tree_of (node NodeDocument "doc1" ""
             [node NodeVideo "V" "<assets/v.mp4" []; empty_html_block; paragraph_named]).

(** The state after twelve identifiers were drawn: the next one,
    ["id''''''''''''"], is fourteen bytes long. *)
Definition after_twelve : XState := {| next_id := 12; ocr_queue := [] |}.
End IndexingSample.

(** More sample worlds: a store whose database file is missing, and
    a store of references in two boxes and at two paths. *)
Module StoreSample.
Import Sqlite Store Sample.

(** No database file; its -shm and -wal files are on disk. *)
Definition side_files_only : World :=
  {| db := NilDB; caseSensitive := false; data := empty_db; tx := None;
     disk := {[DBPath env +:+ "-shm"; DBPath env +:+ "-wal"]};
     io_results := []; trace := [] |}.

Definition ref_row (id box path : string) : Row :=
  row [("id", id); ("box", box); ("path", path)].

(** Three references and three file annotation references: in box
    [box0] at [/r1.sy], in box [box0] at [/r2.sy], in box [box1] at
    [/r1.sy]. *)
Definition refs_db : Database :=
  {| tables :=
       list_to_map
         [("refs",
           table_of ["id"; "def_block_id"; "def_block_parent_id"; "def_block_root_id";
                     "def_block_path"; "block_id"; "root_id"; "box"; "path"; "content";
                     "markdown"; "type"]
                    [ref_row "f1" "box0" "/r1.sy"; ref_row "f2" "box0" "/r2.sy";
                     ref_row "f3" "box1" "/r1.sy"]);
          ("file_annotation_refs",
           table_of ["id"; "file_path"; "annotation_id"; "block_id"; "root_id"; "box";
                     "path"; "content"; "type"]
                    [ref_row "n1" "box0" "/r1.sy"; ref_row "n2" "box0" "/r2.sy";
                     ref_row "n3" "box1" "/r1.sy"])];
     indexes := ∅ |}.

(** That store, open, with transaction [tx1] in progress. *)
Definition refs_world : World :=
  {| db := OpenDB; caseSensitive := false; data := refs_db;
     tx := Some (tx1, refs_db);
     disk := {[DBPath env]};
     io_results := []; trace := [] |}.
End StoreSample.

(* ===================================================================== *)
(** ** Results                                                            *)
(* ===================================================================== *)

(** *** Strings *)

Section StringFacts.
Import GoStrings.

Lemma HasPrefix_app (p rest : string) : HasPrefix (p +:+ rest) p = true.
Proof.
  induction p as [|c p IH]; simpl; [destruct rest; reflexivity|].
  rewrite Ascii.eqb_refl. exact IH.
Qed.

Lemma HasPrefix_inv (s p : string) :
  HasPrefix s p = true -> exists rest, s = p +:+ rest.
Proof.
  revert s. induction p as [|c p IH]; intros s Hs.
  - exists s. reflexivity.
  - destruct s as [|d s]; simpl in Hs; [discriminate|].
    destruct (Ascii.eqb d c) eqn:E; [|discriminate].
    apply Ascii.eqb_eq in E. subst d.
    destruct (IH _ Hs) as [rest ->]. exists rest. reflexivity.
Qed.

Lemma string_eqb_true (a b : string) : String.eqb a b = true -> a = b.
Proof. apply String.eqb_eq. Qed.
End StringFacts.

(** *** Sort weights and attributes *)

Section ExtractionFacts.
Import GoStrings Ast Extraction Vocabulary.

Lemma isAttr_allow_listed (name : string) :
  isAttr name = true -> allow_listed name.
Proof.
  unfold isAttr, allow_listed. intros Hn.
  repeat (apply orb_prop in Hn; destruct Hn as [Hn|Hn]);
    try (apply string_eqb_true in Hn; subst name; right; set_solver).
  left. exact (HasPrefix_inv _ _ Hn).
Qed.

Context `{Collaborators}.

Lemma attributes_of_sound entries typ blockID rootID boxID p st attrs st' :
  attributes_of entries typ blockID rootID boxID p st = Some (attrs, st') ->
  Forall (fun a => isAttr (Attribute.Name a) = true /\ Attribute.Type_ a = typ) attrs.
Proof.
  revert st attrs st'.
  induction entries as [|[name val] entries IH]; intros st attrs st' Hrun; simpl in Hrun.
  - inversion Hrun. constructor.
  - destruct (isAttr name) eqn:Hname; simpl in Hrun; [|eauto].
    unfold bind in Hrun at 1. unfold NewNodeID in Hrun at 1.
    unfold bind in Hrun at 1.
    destruct (blockID _) as [[bid st1]|]; [|discriminate].
    unfold bind in Hrun.
    destruct (attributes_of entries _ _ _ _ _ st1) as [[rest st2]|] eqn:Hrest;
      [|discriminate].
    inversion Hrun; subst. constructor; [split; [exact Hname|reflexivity]|].
    eapply IH. exact Hrest.
Qed.
End ExtractionFacts.

Section SortWeight.
Import Ast Extraction Vocabulary.

Lemma IsTextMarkType_other (n : Node) (typ : string) :
  Type_ (data n) <> NodeTextMark -> IsTextMarkType n typ = false.
Proof. intros Hn. unfold IsTextMarkType. destruct (decide _); [contradiction|reflexivity]. Qed.

(** C6 (as amended).  [nSort] returns the weight the priority table
    gives to the node's type: document 0, heading 5, paragraph, code,
    math, table and HTML block 10, list, list item and blockquote 20,
    super block and attribute view 30, plain text and text mark 200;
    205 for a text mark that carries the type "tag"; 100 for every type
    without an entry. *)
Theorem nSort_priority_table (n : Node) :
  nSort n = if IsTextMarkType n "tag" then 205 else table_weight (Type_ (data n)).
Proof.
  unfold nSort.
  destruct (decide (Type_ (data n) = NodeTextMark)) as [Hmark|Hother].
  - rewrite Hmark. destruct (IsTextMarkType n "tag"); reflexivity.
  - rewrite (IsTextMarkType_other n "tag" Hother).
    destruct (Type_ (data n)); reflexivity.
Qed.

(** C6, the claim as stated fails: a plain text node weighs 200, not
    100. *)
Lemma nSort_plain_text_is_200 :
  nSort (Sample.text "plain") = 200 /\ nSort (Sample.text "plain") <> 100.
Proof. split; [reflexivity|discriminate]. Qed.
End SortWeight.

Section Attributes.
Import GoStrings Ast Extraction Vocabulary.

(** C8.  Every attribute built by [buildAttributeFromNode] or by
    [buildBlockFromNode] has an allow-listed name: one that starts with
    "custom-" or one of name, alias, memo, bookmark, fold, heading-fold,
    style.  An attribute from a span-level IAL node has type "s", one
    from a block-level IAL node or from a block's own IAL has type
    "b". *)
Theorem extracted_attributes_allow_listed `{Collaborators}
    (indexAssetPath : bool) (ancestors : list Node) (n : Node) (tree : Tree)
    (rootID boxID p : string) (st : XState) :
  (forall attrs st',
      buildAttributeFromNode ancestors n rootID boxID p st = Some (attrs, st') ->
      Forall (fun a => allow_listed (Attribute.Name a)
                /\ (Type_ (data n) = NodeKramdownSpanIAL -> Attribute.Type_ a = "s")
                /\ (Type_ (data n) = NodeKramdownBlockIAL -> Attribute.Type_ a = "b"))
             attrs)
  /\ (forall block attrs st',
      buildBlockFromNode indexAssetPath ancestors n tree st = Some (block, attrs, st') ->
      Forall (fun a => allow_listed (Attribute.Name a) /\ Attribute.Type_ a = "b") attrs).
Proof.
  split.
  - intros attrs st' Hrun. unfold buildAttributeFromNode in Hrun.
    destruct (Type_ (data n)) eqn:Htype;
      try (inversion Hrun; subst; constructor).
    + apply attributes_of_sound in Hrun.
      eapply Forall_impl; [exact Hrun|]. intros a [Hname Htyp].
      split; [exact (isAttr_allow_listed _ Hname)|].
      split; [discriminate|intros _; exact Htyp].
    + apply attributes_of_sound in Hrun.
      eapply Forall_impl; [exact Hrun|]. intros a [Hname Htyp].
      split; [exact (isAttr_allow_listed _ Hname)|].
      split; [intros _; exact Htyp|discriminate].
  - intros block attrs st' Hrun. unfold buildBlockFromNode in Hrun.
    unfold bind in Hrun at 1.
    match type of Hrun with
    | match ?fields st with _ => _ end = _ =>
        destruct (fields st) as [[[[[[content fcontent] markdown] parentID] length] st1]|];
          [|discriminate]
    end.
    unfold bind in Hrun.
    match type of Hrun with
    | match ?run with _ => _ end = _ =>
        destruct run as [[attrs0 st2]|] eqn:Hattrs; [|discriminate]
    end.
    inversion Hrun; subst.
    apply attributes_of_sound in Hattrs.
    eapply Forall_impl; [exact Hattrs|]. intros a [Hname Htyp].
    split; [exact (isAttr_allow_listed _ Hname)|exact Htyp].
Qed.
End Attributes.

Section AttributesWitness.
Import GoStrings Ast Extraction Vocabulary Sample.

(** C8 at work: the span-level IAL [style, id] below paragraph A gives
    the one attribute [style] of type "s"; the IAL [id, name, custom-k,
    updated] of paragraph A gives [custom-k] and [name] of type "b". *)
Lemma extracted_attributes_allow_listed_witness :
  Forall (fun a => allow_listed (Attribute.Name a)
            /\ (Type_ (data span_ial) = NodeKramdownSpanIAL -> Attribute.Type_ a = "s")
            /\ (Type_ (data span_ial) = NodeKramdownBlockIAL -> Attribute.Type_ a = "b"))
         [attribute "id" "style" "color: red" "s"]
  /\ Forall (fun a => allow_listed (Attribute.Name a) /\ Attribute.Type_ a = "b")
            [attribute "id" "custom-k" "v" "b"; attribute "id'" "name" "intro" "b"].
Proof.
  split.
  - apply (proj1 (extracted_attributes_allow_listed
                    false [paragraph_named; Root doc_named] span_ial doc_named
                    "doc1" "box1" "/doc1.sy" start)
             _ {| next_id := 1; ocr_queue := [] |}).
    vm_compute. reflexivity.
  - eapply (proj2 (extracted_attributes_allow_listed
                     false [Root doc_named] paragraph_named doc_named
                     "doc1" "box1" "/doc1.sy" start)
              _ _ {| next_id := 2; ocr_queue := [] |}).
    vm_compute. reflexivity.
Defined.
End AttributesWitness.

(** *** The length of a block *)

Section BlockLength.
Import GoStrings Ast Extraction Sample.

(** What the code computes for a leaf block, whatever the collaborators:
    the length is counted on the rendered text, and the text is stored
    without its zero-width spaces. *)
Lemma buildBlockFromNode_leaf `{Collaborators}
    (indexAssetPath : bool) ancestors n tree st block attrs st' :
  Type_ (data n) <> NodeDocument ->
  IsContainerBlock n = false ->
  buildBlockFromNode indexAssetPath ancestors n tree st = Some (block, attrs, st') ->
  let rendered := NodeStaticContent n [] true indexAssetPath true in
  Block.Length block = RuneCountInString rendered
  /\ Block.Content block = ReplaceAll rendered Zwsp "".
Proof.
  intros Hdoc Hleaf Hrun. unfold buildBlockFromNode in Hrun.
  destruct (decide (Type_ (data n) = NodeDocument)); [contradiction|].
  rewrite Hleaf in Hrun.
  unfold bind in Hrun at 1. unfold bind in Hrun at 1.
  destruct (queue_unless_OCRed n st) as [[[] st1]|]; [|discriminate].
  unfold bind in Hrun at 1.
  destruct (parentID_of ancestors n st1) as [[parentID st2]|]; [|discriminate].
  unfold ret in Hrun at 1. unfold bind in Hrun.
  match type of Hrun with
  | match ?run with _ => _ end = _ => destruct run as [[attrs0 st3]|]; [|discriminate]
  end.
  inversion Hrun; subst. split; reflexivity.
Qed.

(** C2, the failing input.  Paragraph [paragraph_zwsp] renders as "a",
    a zero-width space, "b".  The block is stored with the content "ab",
    of two runes, and with the length 3. *)
Theorem buildBlockFromNode_length_counts_stripped_zwsp :
  exists block attrs st',
    buildBlockFromNode false [Root doc_zwsp] paragraph_zwsp doc_zwsp start
      = Some (block, attrs, st')
    /\ Block.Content block = "ab"
    /\ RuneCountInString (Block.Content block) = 2
    /\ Block.Length block = 3.
Proof. do 3 eexists. split; [vm_compute; reflexivity|]. repeat split. Qed.
End BlockLength.

(** *** The walk *)

Section WalkFacts.
Import Ast.

(** Induction on a node, with the property at hand for its children. *)
Section NodeInduction.
Variable P : Node -> Prop.
Hypothesis step : forall d cs, Forall P cs -> P (MkNode d cs).

Fixpoint Node_children_ind (n : Node) : P n :=
  match n with
  | MkNode d cs =>
      step d cs
        ((fix all (cs : list Node) : Forall P cs :=
            match cs with
            | [] => @List.Forall_nil _ P
            | c :: cs' => @List.Forall_cons _ P c cs' (Node_children_ind c) (all cs')
            end) cs)
  end.
End NodeInduction.

Context {S : Type} (walker : list Node -> Node -> bool -> S -> option (WalkStatus * S)).

(** [Walk], one level unfolded. *)
Lemma Walk_unfold (ancestors : list Node) (n : Node) (s : S) :
  Walk walker ancestors n s =
  match walker ancestors n true s with
  | None => None
  | Some (status, s1) =>
      if status =? WalkStop then Some s1
      else
        match (if status =? WalkSkipChildren then Some s1
               else WalkChildren walker (n :: ancestors) (Children n) s1) with
        | None => None
        | Some s2 =>
            match walker ancestors n false s2 with
            | None => None
            | Some (_, s3) => Some s3
            end
        end
  end.
Proof.
  destruct n as [d cs]. simpl.
  destruct (walker ancestors (MkNode d cs) true s) as [[status s1]|]; [|reflexivity].
  destruct (status =? WalkStop); [reflexivity|].
  destruct (status =? WalkSkipChildren); [reflexivity|].
  match goal with
  | |- match ?children with _ => _ end = _ =>
      replace children with (WalkChildren walker (MkNode d cs :: ancestors) cs s1);
        [reflexivity|]
  end.
  remember (MkNode d cs :: ancestors) as ancestors' eqn:E. clear E.
  revert s1. induction cs as [|c cs' IH]; intros s1; [reflexivity|].
  simpl. destruct (Walk walker ancestors' c s1); [apply IH|reflexivity].
Qed.
End WalkFacts.

Section WalkInvariant.
Import Ast.
Context {S : Type} (walker : list Node -> Node -> bool -> S -> option (WalkStatus * S)).
Variable Inv : S -> Prop.
Hypothesis walker_keeps :
  forall ancestors n entering s status s',
    walker ancestors n entering s = Some (status, s') -> Inv s -> Inv s'.

(** What every call of the walker keeps, the walk keeps. *)
Lemma Walk_keeps (n : Node) :
  forall ancestors s s', Walk walker ancestors n s = Some s' -> Inv s -> Inv s'.
Proof.
  induction n as [d cs IH] using Node_children_ind.
  intros ancestors s s' Hwalk Hs. rewrite Walk_unfold in Hwalk.
  destruct (walker ancestors (MkNode d cs) true s) as [[status s1]|] eqn:Henter;
    [|discriminate].
  pose proof (walker_keeps _ _ _ _ _ _ Henter Hs) as Hs1.
  destruct (status =? WalkStop); [inversion Hwalk; subst; exact Hs1|].
  assert (Hchildren : forall ancestors' s1 s2,
             WalkChildren walker ancestors' cs s1 = Some s2 -> Inv s1 -> Inv s2).
  { clear -IH. intros ancestors'.
    induction IH as [|c cs' Hc _ IHcs]; intros s1 s2 Hrun H1; simpl in Hrun.
    - inversion Hrun; subst. exact H1.
    - destruct (Walk walker ancestors' c s1) as [s1'|] eqn:Hwalk; [|discriminate].
      eapply IHcs; [exact Hrun|]. eapply Hc; eassumption. }
  destruct (if status =? WalkSkipChildren then Some s1
            else WalkChildren walker (MkNode d cs :: ancestors)
                              (Children (MkNode d cs)) s1) as [s2|] eqn:Hmid;
    [|discriminate].
  assert (Hs2 : Inv s2).
  { destruct (status =? WalkSkipChildren).
    - inversion Hmid; subst. exact Hs1.
    - eapply Hchildren; eassumption. }
  destruct (walker ancestors (MkNode d cs) false s2) as [[status' s3]|] eqn:Hleave;
    [|discriminate].
  inversion Hwalk; subst. eapply walker_keeps; eassumption.
Qed.
End WalkInvariant.

(** *** References *)

Section References.
Import GoStrings Ast Extraction Vocabulary.

Lemma isRepeatedRef_spec (refs : list Ref.t) (ref : Ref.t) :
  isRepeatedRef refs ref = true <-> edge ref ∈ edge <$> refs.
Proof.
  induction refs as [|r refs IH]; simpl.
  - split; [discriminate|]. intros Hin. apply elem_of_nil in Hin. contradiction.
  - destruct (String.eqb (Ref.DefBlockID r) (Ref.DefBlockID ref)
              && String.eqb (Ref.BlockID r) (Ref.BlockID ref)) eqn:Hsame.
    + split; [|reflexivity]. intros _.
      apply andb_prop in Hsame as [Hd Hb].
      apply String.eqb_eq in Hd. apply String.eqb_eq in Hb.
      apply elem_of_cons. left. unfold edge. rewrite Hd, Hb. reflexivity.
    + rewrite IH. rewrite elem_of_cons. split; [intros Hin; right; exact Hin|].
      intros [Heq|Hin]; [|exact Hin].
      exfalso. unfold edge in Heq. inversion Heq as [[Hb Hd]].
      rewrite Hb, Hd, !String.eqb_refl in Hsame. discriminate.
Qed.

Lemma add_ref_keeps_NoDup (refs : list Ref.t) (ref : Ref.t) :
  NoDup (edge <$> refs) -> NoDup (edge <$> add_ref refs ref).
Proof.
  intros Hrefs. unfold add_ref.
  destruct (isRepeatedRef refs ref) eqn:Hrep; simpl; [exact Hrefs|].
  rewrite fmap_app. simpl. apply NoDup_app. split; [exact Hrefs|]. split.
  - intros e He Hin. apply list_elem_of_singleton in Hin. subst e.
    apply isRepeatedRef_spec in He. congruence.
  - apply NoDup_singleton.
Qed.

Context `{Collaborators}.

Lemma refs_walker_keeps_NoDup tree ancestors n entering (s : RefsState) status s' :
  refs_walker tree ancestors n entering s = Some (status, s') ->
  NoDup (edge <$> s.1.1) -> NoDup (edge <$> s'.1.1).
Proof.
  destruct s as [[refs fars] st]. unfold refs_walker. cbn [fst snd].
  destruct entering; [intros Hrun; inversion Hrun; subst; auto|].
  destruct (IsBlockRef n).
  { destruct (buildRef tree ancestors n st) as [[ref st1]|]; [|discriminate].
    intros Hrun; inversion Hrun; subst. simpl. apply add_ref_keeps_NoDup. }
  destruct (IsFileAnnotationRef n).
  { match goal with
    | |- context [-1 =? ?idx] => destruct (-1 =? idx)
    end; [intros Hrun; inversion Hrun; subst; auto|].
    match goal with
    | |- match ?run with _ => _ end = _ -> _ => destruct run as [[ref st1]|]; [|discriminate]
    end.
    intros Hrun; inversion Hrun; subst; auto. }
  destruct (IsEmbedBlockRef n).
  { destruct (buildEmbedRef tree n st) as [[ref st1]|]; [|discriminate].
    intros Hrun; inversion Hrun; subst. simpl. apply add_ref_keeps_NoDup. }
  intros Hrun; inversion Hrun; subst; auto.
Qed.

(** C3.  The references [refsFromTree] returns hold at most one
    reference for each pair of a using block and a defining block; a
    reference whose pair is in the list already is not appended. *)
Theorem refsFromTree_one_ref_per_edge
    (tree : Tree) (st : XState) refs fileAnnotationRefs st' :
  refsFromTree tree st = Some ((refs, fileAnnotationRefs), st') ->
  NoDup (edge <$> refs)
  /\ (forall earlier ref, edge ref ∈ edge <$> earlier -> add_ref earlier ref = earlier).
Proof.
  intros Hrun. split.
  - unfold refsFromTree in Hrun.
    change refs with (((refs, fileAnnotationRefs), st').1.1).
    eapply (Walk_keeps (refs_walker tree) (fun s : RefsState => NoDup (edge <$> s.1.1)));
      [|exact Hrun|simpl; constructor].
    intros ancestors n entering s status s1. apply refs_walker_keeps_NoDup.
  - intros earlier ref Hin. unfold add_ref.
    apply isRepeatedRef_spec in Hin. rewrite Hin. reflexivity.
Qed.
End References.

Section ReferencesWitness.
Import Ast Extraction Vocabulary Sample.

(** C3 at work: paragraph A refers to B twice and to C once; the
    references returned are A to B and A to C. *)
Lemma refsFromTree_one_ref_per_edge_witness :
  exists refs fileAnnotationRefs st',
    refsFromTree doc_two_refs start = Some ((refs, fileAnnotationRefs), st')
    /\ edge <$> refs = [("A", "B"); ("A", "C")]
    /\ NoDup (edge <$> refs).
Proof.
  do 3 eexists. split; [vm_compute; reflexivity|]. split; [reflexivity|].
  eapply (refsFromTree_one_ref_per_edge doc_two_refs start).
  vm_compute. reflexivity.
Defined.
End ReferencesWitness.

Section MalformedAnnotation.
Import GoStrings Ast Extraction Vocabulary.

Lemma LastIndex_from_no_slash (s : string) :
  no_slash s -> forall i last, LastIndex_from i last s "/" = last.
Proof.
  unfold no_slash. induction s as [|c s IH]; intros Hs i last; [reflexivity|].
  simpl in Hs. apply Forall_cons in Hs as [Hc Hs].
  simpl. destruct (Ascii.eqb c "/") eqn:E.
  - apply Ascii.eqb_eq in E. contradiction.
  - apply IH. exact Hs.
Qed.

Lemma LastIndex_no_slash (s : string) : no_slash s -> LastIndex s "/" = -1.
Proof. intros Hs. apply LastIndex_from_no_slash. exact Hs. Qed.

Context `{Collaborators}.

(** C10.  On leaving a file annotation reference whose key has no [/],
    the walker of [refsFromTree] answers [WalkContinue] and appends no
    file annotation reference.  When the node is not a block reference
    as well (which the walker would handle first), the walker leaves
    its whole state as it is and does not panic, so that walking the
    node comes to walking its children. *)
Theorem malformed_file_annotation_ref_is_skipped
    (tree : Tree) (ancestors : list Node) (n : Node) (s : RefsState) :
  IsFileAnnotationRef n = true ->
  no_slash (TextMarkFileAnnotationRefID (data n)) ->
  (forall status s',
      refs_walker tree ancestors n false s = Some (status, s') ->
      status = WalkContinue /\ s'.1.2 = s.1.2)
  /\ (IsBlockRef n = false ->
      refs_walker tree ancestors n false s = Some (WalkContinue, s)
      /\ Walk (refs_walker tree) ancestors n s
         = WalkChildren (refs_walker tree) (n :: ancestors) (Children n) s).
Proof.
  intros Hfar Hkey.
  assert (Hleave : IsBlockRef n = false ->
                   forall s0, refs_walker tree ancestors n false s0 = Some (WalkContinue, s0)).
  { intros Hnot [[refs fars] st]. unfold refs_walker.
    rewrite Hnot, Hfar, (LastIndex_no_slash _ Hkey). reflexivity. }
  split.
  - destruct (IsBlockRef n) eqn:Hblock.
    + destruct s as [[refs fars] st]. unfold refs_walker. rewrite Hblock.
      intros status s'.
      destruct (buildRef tree ancestors n st) as [[ref st1]|]; [|discriminate].
      intros Hrun; inversion Hrun; subst. split; reflexivity.
    + intros status s' Hrun. rewrite (Hleave eq_refl) in Hrun.
      inversion Hrun; subst. split; reflexivity.
  - intros Hnot. split; [apply Hleave; exact Hnot|].
    rewrite Walk_unfold.
    assert (Henter : refs_walker tree ancestors n true s = Some (WalkContinue, s)).
    { destruct s as [[refs fars] st]. reflexivity. }
    rewrite Henter. change (WalkContinue =? WalkStop) with false.
    change (WalkContinue =? WalkSkipChildren) with false. cbv iota.
    destruct (WalkChildren (refs_walker tree) (n :: ancestors) (Children n) s) as [s2|];
      [|reflexivity].
    rewrite (Hleave Hnot). reflexivity.
Qed.
End MalformedAnnotation.

Section MalformedAnnotationWitness.
Import Ast Extraction Vocabulary Sample.

(** C10 at work: the reference with the key "no-separator" is passed
    over, and the walk of the document goes on to the well-formed one. *)
Lemma malformed_file_annotation_ref_is_skipped_witness :
  let bad := file_annotation_ref "no-separator" "bad" in
  let s : RefsState := (([], []), start) in
  refs_walker doc_annotations [] bad false s = Some (WalkContinue, s)
  /\ (exists far st',
        refsFromTree doc_annotations start = Some (([], [far]), st')
        /\ FileAnnotationRef.FilePath far = "assets/a.pdf"
        /\ FileAnnotationRef.AnnotationID far = "20220101").
Proof.
  intros bad s. split.
  - refine (proj1 (proj2 (malformed_file_annotation_ref_is_skipped
                            doc_annotations [] bad s _ _) _)).
    + reflexivity.
    + unfold no_slash. simpl. repeat constructor; discriminate.
    + reflexivity.
  - do 2 eexists. split; [vm_compute; reflexivity|]. split; reflexivity.
Defined.
End MalformedAnnotationWitness.

(** *** Running the store's functions *)

Section MonadFacts.
Import Sqlite Store StoreVocabulary.

Lemma bind_Ret {A B} (m : M A) (k : A -> M B) (w w' : World) (a : A) :
  m w = (Ret a, w') -> bind m k w = k a w'.
Proof. intros Hm. unfold bind. rewrite Hm. reflexivity. Qed.

Lemma bind_Exit {A B} (m : M A) (k : A -> M B) (w w' : World) (c : Z) :
  m w = (Exit c, w') -> bind m k w = (Exit c, w').
Proof. intros Hm. unfold bind. rewrite Hm. reflexivity. Qed.

Lemma and_then_ok (m k : M (option string)) (w w' : World) :
  m w = (Ret None, w') -> and_then m k w = k w'.
Proof. intros Hm. unfold and_then. rewrite (bind_Ret _ _ _ _ _ Hm). reflexivity. Qed.

Lemma next_result_faultless (w : World) :
  faultless w -> next_result w = (Ret None, answered w).
Proof.
  unfold faultless, next_result, answered. destruct w as [h c d x f io tr]. simpl.
  intros Hio. destruct io as [|r io]; [reflexivity|].
  apply Forall_cons in Hio as [-> _]. reflexivity.
Qed.

Lemma faultless_answered (w : World) : faultless w -> faultless (answered w).
Proof.
  unfold faultless, answered. simpl. intros Hio.
  destruct (io_results w); [constructor|]. apply Forall_cons in Hio as [_ Hio]. exact Hio.
Qed.

Lemma next_result_cons (w : World) (r : option string) (rest : list (option string)) :
  io_results w = r :: rest -> next_result w = (Ret r, set_io_results rest w).
Proof. intros Hio. unfold next_result. rewrite Hio. reflexivity. Qed.
End MonadFacts.

Section RemovalFacts.
Import GoStrings Sqlite Store StoreVocabulary.
Context (env : Env).

Lemma faultless_faultless_for (n : nat) (w : World) : faultless w -> faultless_for n w.
Proof. unfold faultless, faultless_for. intros Hio. apply Forall_take. exact Hio. Qed.

Lemma next_result_ok (n : nat) (w : World) :
  faultless_for (Datatypes.S n) w ->
  next_result w = (Ret None, answered w) /\ faultless_for n (answered w).
Proof.
  unfold faultless_for, next_result, answered. destruct w as [h c d x f io tr]. simpl.
  intros Hio. destruct io as [|r io]; simpl in *.
  - split; [reflexivity|]. destruct n; constructor.
  - apply Forall_cons in Hio as [-> Hio]. split; [reflexivity|exact Hio].
Qed.

Lemma os_RemoveAll_ok (n : nat) (path : string) (w : World) :
  faultless_for (Datatypes.S n) w ->
  os_RemoveAll env path w = (Ret None, removed env path w)
  /\ faultless_for n (removed env path w).
Proof.
  intros Hio. destruct (next_result_ok n w Hio) as [Hnext Hrest].
  unfold os_RemoveAll. rewrite (bind_Ret _ _ _ _ _ Hnext). split; [reflexivity|].
  unfold removed, faultless_for. destruct (under path (DBPath env)); exact Hrest.
Qed.

Lemma under_refl (path : string) : under path path = true.
Proof. unfold under. rewrite String.eqb_refl. reflexivity. Qed.

Lemma disk_removed (path : string) (w : World) (p : string) :
  p ∈ disk (removed env path w) <-> p ∈ disk w /\ under path p = false.
Proof.
  unfold removed. destruct (under path (DBPath env)); simpl;
    rewrite elem_of_filter; tauto.
Qed.

Lemma data_removed (path : string) (w : World) :
  data (removed env path w) = empty_db \/ data (removed env path w) = data w.
Proof. unfold removed. destruct (under path (DBPath env)); simpl; auto. Qed.

(** Whatever the file system answers, [os.RemoveAll] returns; it leaves
    the handle and the transaction alone, removes files only, and leaves
    the content of the database as it was or empty. *)
Lemma os_RemoveAll_returns (path : string) (w : World) :
  exists err w',
    os_RemoveAll env path w = (Ret err, w')
    /\ db w' = db w /\ tx w' = tx w /\ caseSensitive w' = caseSensitive w
    /\ disk w' ⊆ disk w
    /\ (data w' = data w \/ data w' = empty_db).
Proof.
  unfold os_RemoveAll, bind, next_result.
  destruct (io_results w) as [|[msg|] rest] eqn:Hio.
  - eexists _, _. split; [reflexivity|]. repeat split; simpl.
    + destruct (under path (DBPath env)); reflexivity.
    + destruct (under path (DBPath env)); reflexivity.
    + destruct (under path (DBPath env)); reflexivity.
    + destruct (under path (DBPath env)); simpl; intros p Hp;
        apply elem_of_filter in Hp as [_ Hp]; exact Hp.
    + destruct (under path (DBPath env)); simpl; auto.
  - eexists _, _. split; [reflexivity|]. repeat split; simpl; auto.
  - eexists _, _. split; [reflexivity|]. repeat split; simpl.
    + destruct (under path (DBPath env)); reflexivity.
    + destruct (under path (DBPath env)); reflexivity.
    + destruct (under path (DBPath env)); reflexivity.
    + destruct (under path (DBPath env)); simpl; intros p Hp;
        apply elem_of_filter in Hp as [_ Hp]; exact Hp.
    + destruct (under path (DBPath env)); simpl; auto.
Qed.

Lemma removeDatabaseFile_returns (w : World) :
  exists err w',
    removeDatabaseFile env w = (Ret err, w')
    /\ db w' = db w /\ tx w' = tx w /\ caseSensitive w' = caseSensitive w
    /\ disk w' ⊆ disk w
    /\ (data w' = data w \/ data w' = empty_db).
Proof.
  unfold removeDatabaseFile, and_then.
  destruct (os_RemoveAll_returns (DBPath env) w)
    as (e1 & w1 & Hrun1 & Hdb1 & Htx1 & Hcs1 & Hdisk1 & Hdata1).
  rewrite (bind_Ret _ _ _ _ _ Hrun1).
  destruct e1 as [msg|];
    [eexists _, _; (split; [reflexivity|]);
     repeat split; first [congruence | assumption]|].
  destruct (os_RemoveAll_returns (DBPath env +:+ "-shm") w1)
    as (e2 & w2 & Hrun2 & Hdb2 & Htx2 & Hcs2 & Hdisk2 & Hdata2).
  rewrite (bind_Ret _ _ _ _ _ Hrun2).
  assert (Hdata12 : data w2 = data w \/ data w2 = empty_db)
    by (destruct Hdata2 as [->| ->]; auto).
  assert (Hdisk12 : disk w2 ⊆ disk w) by (etrans; eassumption).
  destruct e2 as [msg|];
    [eexists _, _; (split; [reflexivity|]);
     repeat split; first [congruence | assumption]|].
  destruct (os_RemoveAll_returns (DBPath env +:+ "-wal") w2)
    as (e3 & w3 & Hrun3 & Hdb3 & Htx3 & Hcs3 & Hdisk3 & Hdata3).
  rewrite (bind_Ret _ _ _ _ _ Hrun3).
  assert (Hdata13 : data w3 = data w \/ data w3 = empty_db)
    by (destruct Hdata3 as [->| ->]; auto).
  assert (Hdisk13 : disk w3 ⊆ disk w) by (etrans; eassumption).
  destruct e3 as [msg|];
    eexists _, _; (split; [reflexivity|]);
    repeat split; first [congruence | assumption].
Qed.

Lemma removeDatabaseFile_ok (n : nat) (w : World) :
  faultless_for (3 + n) w ->
  removeDatabaseFile env w = (Ret None, files_removed env w)
  /\ faultless_for n (files_removed env w).
Proof.
  intros Hio. unfold removeDatabaseFile, files_removed.
  destruct (os_RemoveAll_ok _ (DBPath env) w Hio) as [Hrun1 Hio1].
  rewrite (and_then_ok _ _ _ _ Hrun1).
  destruct (os_RemoveAll_ok _ (DBPath env +:+ "-shm") _ Hio1) as [Hrun2 Hio2].
  rewrite (and_then_ok _ _ _ _ Hrun2).
  destruct (os_RemoveAll_ok _ (DBPath env +:+ "-wal") _ Hio2) as [Hrun3 Hio3].
  rewrite (and_then_ok _ _ _ _ Hrun3).
  split; [reflexivity|exact Hio3].
Qed.

Lemma files_removed_gone (w : World) (p : string) :
  p ∈ store_files env -> p ∉ disk (files_removed env w).
Proof.
  unfold store_files, files_removed. intros Hp Hin.
  apply disk_removed in Hin as [Hin Hwal].
  apply disk_removed in Hin as [Hin Hshm].
  apply disk_removed in Hin as [Hin Hdb].
  rewrite !elem_of_cons in Hp. destruct Hp as [->|[->|[->|Hp]]].
  - rewrite under_refl in Hdb. discriminate.
  - rewrite under_refl in Hshm. discriminate.
  - rewrite under_refl in Hwal. discriminate.
  - apply elem_of_nil in Hp. exact Hp.
Qed.

Lemma files_removed_data (w : World) : data (files_removed env w) = empty_db.
Proof.
  unfold files_removed.
  assert (Hdb : data (removed env (DBPath env) w) = empty_db).
  { unfold removed. rewrite under_refl. reflexivity. }
  destruct (data_removed (DBPath env +:+ "-wal")
              (removed env (DBPath env +:+ "-shm") (removed env (DBPath env) w))) as [H1|H1];
    [exact H1|].
  rewrite H1.
  destruct (data_removed (DBPath env +:+ "-shm") (removed env (DBPath env) w)) as [H2|H2];
    [exact H2|].
  rewrite H2. exact Hdb.
Qed.
End RemovalFacts.

(** *** Corruption *)

Section Corruption.
Import GoStrings Sqlite Store StoreVocabulary.
Context (env : Env).

Lemma live_same_tx (t : Tx) (w w' : World) : tx w' = tx w -> live t w' = live t w.
Proof. intros Htx. unfold live. rewrite Htx. reflexivity. Qed.

Lemma tx_Rollback_returns (t : Tx) (w : World) :
  exists w',
    tx_Rollback t w = (Ret tt, w')
    /\ live t w' = false
    /\ db w' = db w /\ disk w' = disk w /\ io_results w' = io_results w
    /\ (forall d0, tx w = Some (t, d0) -> data w' = d0).
Proof.
  unfold tx_Rollback, live. destruct (tx w) as [[t' d0]|] eqn:Htx.
  - destruct (bool_decide (tx_id t' = tx_id t)) eqn:Hid.
    + eexists. split; [reflexivity|]. simpl. repeat split.
      intros d1 Heq. inversion Heq. reflexivity.
    + eexists. split; [reflexivity|]. rewrite Htx, Hid. repeat split.
      intros d1 Heq. inversion Heq; subst.
      rewrite bool_decide_eq_true_2 in Hid; [discriminate|reflexivity].
  - eexists. split; [reflexivity|]. rewrite Htx. repeat split. discriminate.
Qed.

Lemma closeDatabase_returns (w : World) :
  exists w',
    closeDatabase w = (Ret None, w')
    /\ db w' <> OpenDB
    /\ (db w = NilDB -> w' = w)
    /\ (db w <> NilDB -> w' = log EClose (set_db ClosedDB w))
    /\ tx w' = tx w /\ data w' = data w /\ disk w' = disk w
    /\ io_results w' = io_results w /\ caseSensitive w' = caseSensitive w.
Proof.
  unfold closeDatabase. destruct (db w) eqn:Hdb; eexists; (split; [reflexivity|]);
    simpl; repeat split; try congruence; try discriminate; intros; congruence.
Qed.

(** C5.  A statement run through [execStmtTx] whose error message holds
    "database disk image is malformed" ends the process with the exit code
    [ExitCodeReadOnlyDatabase]: the transaction is rolled back and over,
    the store is not open any more, and once the file system has carried
    out the three removals, the database file and its -shm and -wal files
    are gone.  Until then the file holds what it held when the transaction
    began, or nothing.  An error without that text is returned to the
    caller, and nothing but the trace and the environment's answers has
    changed. *)
Theorem execStmtTx_corruption_is_fatal
    (w : World) (t : Tx) (stmt : Stmt) (args : list Value)
    (msg : string) (rest : list (option string)) :
  io_results w = Some msg :: rest ->
  (Contains msg malformed = true ->
     exists w',
       execStmtTx env t stmt args w = (Exit (ExitCodeReadOnlyDatabase env), w')
       /\ live t w' = false
       /\ db w' <> OpenDB
       /\ (forall d0, tx w = Some (t, d0) -> data w' = d0 \/ data w' = empty_db)
       /\ (Forall (fun r => r = None) (take 3 rest) ->
           (forall p, p ∈ store_files env -> p ∉ disk w') /\ data w' = empty_db))
  /\ (Contains msg malformed = false ->
      execStmtTx env t stmt args w
      = (Ret (Some msg), log (EExec stmt args (Some msg)) (set_io_results rest w))).
Proof.
  intros Hio.
  assert (Hexec : tx_Exec env t stmt args w
                  = (Ret (Some msg), log (EExec stmt args (Some msg)) (set_io_results rest w))).
  { unfold tx_Exec. rewrite (bind_Ret _ _ _ _ _ (next_result_cons _ _ _ Hio)).
    reflexivity. }
  unfold execStmtTx. rewrite (bind_Ret _ _ _ _ _ Hexec).
  set (w1 := log (EExec stmt args (Some msg)) (set_io_results rest w)).
  split; intros Hmsg; rewrite Hmsg; [|reflexivity].
  destruct (tx_Rollback_returns t w1) as (w2 & Hrun2 & Hlive2 & Hdb2 & Hdisk2 & Hio2 & Hdata2).
  destruct (closeDatabase_returns w2)
    as (w3 & Hrun3 & Hdb3 & _ & _ & Htx3 & Hdata3 & Hdisk3 & Hio3 & _).
  destruct (removeDatabaseFile_returns env w3)
    as (e4 & w4 & Hrun4 & Hdb4 & Htx4 & _ & Hdisk4 & Hdata4).
  exists (log (EExit (ExitCodeReadOnlyDatabase env)) w4).
  split.
  { erewrite bind_Exit; [reflexivity|].
    rewrite (bind_Ret _ _ _ _ _ Hrun2), (bind_Ret _ _ _ _ _ Hrun3),
      (bind_Ret _ _ _ _ _ Hrun4). reflexivity. }
  split.
  { change (live t (log (EExit (ExitCodeReadOnlyDatabase env)) w4)) with (live t w4).
    rewrite (live_same_tx t w3 w4 Htx4), (live_same_tx t w2 w3 Htx3). exact Hlive2. }
  split.
  { simpl. rewrite Hdb4. exact Hdb3. }
  split.
  { intros d0 Htx. simpl.
    destruct Hdata4 as [Hsame|Hempty]; [left|right; exact Hempty].
    rewrite Hsame, Hdata3. apply Hdata2. exact Htx. }
  intros Hrest.
  assert (Hfor : faultless_for (3 + 0) w3).
  { unfold faultless_for. rewrite Hio3, Hio2. exact Hrest. }
  destruct (removeDatabaseFile_ok env 0 w3 Hfor) as [Hok _].
  rewrite Hok in Hrun4. inversion Hrun4; subst. simpl. split.
  - intros p Hp. apply files_removed_gone. exact Hp.
  - apply files_removed_data.
Qed.
End Corruption.

(** *** Statements inside a transaction *)

Section Statements.
Import GoStrings Sqlite Store StoreVocabulary.
Context (env : Env).

Lemma tables_put_table (d : Database) (t : string) (T : Table) :
  tables (put_table d t T) = <[t := T]> (tables d).
Proof. reflexivity. Qed.

(** A statement the store accepts, run in the live transaction of a
    faultless world, returns no error; the content is the statement's
    result, and the mode, the handle and the transaction are as before. *)
Lemma execStmtTx_ok (t : Tx) (s : Stmt) (args : list Value) (w : World) (d' : Database) :
  faultless w -> live t w = true -> exec s args (data w) = inr d' ->
  exists w',
    execStmtTx env t s args w = (Ret None, w')
    /\ faultless w' /\ live t w' = true
    /\ caseSensitive w' = caseSensitive w /\ db w' = db w
    /\ data w' = d'.
Proof.
  intros Hio Hlive Hexec.
  exists (log (EExec s args None)
              (set_disk ({[DBPath env]} ∪ disk w) (set_data d' (answered w)))).
  split.
  - assert (Hrun : tx_Exec env t s args w
                   = (Ret None,
                      log (EExec s args None)
                          (set_disk ({[DBPath env]} ∪ disk w) (set_data d' (answered w))))).
    { unfold tx_Exec.
      rewrite (bind_Ret _ _ _ _ _ (next_result_faultless w Hio)).
      assert (Hlive' : live t (answered w) = true) by exact Hlive.
      rewrite Hlive'. unfold apply_stmt.
      change (data (answered w)) with (data w). rewrite Hexec. reflexivity. }
    unfold execStmtTx. rewrite (bind_Ret _ _ _ _ _ Hrun). reflexivity.
  - split; [exact (faultless_answered w Hio)|]. split; [exact Hlive|].
    repeat split.
Qed.

Lemma List_filter_decide {A} (f : A -> bool) (P : A -> Prop) `{forall x, Decision (P x)}
    (l : list A) :
  (forall x, f x = true <-> P x) -> List.filter f l = filter P l.
Proof.
  intros Hf. induction l as [|a l IH]; [reflexivity|].
  cbn [List.filter]. rewrite filter_cons. destruct (decide (P a)) as [HP|HP].
  - rewrite (proj2 (Hf a) HP), IH. reflexivity.
  - destruct (f a) eqn:E; [apply Hf in E; contradiction|exact IH].
Qed.

Lemma filter_without_root (rootID : string) (rs : list Row) :
  List.filter (fun r => negb (matches (zip ["root_id"] [VText rootID]) r)) rs
  = without_root rootID rs.
Proof.
  unfold without_root. apply List_filter_decide. intros r.
  unfold matches, under_root. simpl. rewrite andb_true_r, negb_true_iff.
  rewrite bool_decide_eq_false. reflexivity.
Qed.

Lemma without_root_none (rootID : string) (rs : list Row) :
  Forall (fun r => ~ under_root rootID r) (without_root rootID rs).
Proof.
  apply Forall_forall. intros r Hr. unfold without_root in Hr.
  apply list_elem_of_filter in Hr as [Hr _]. exact Hr.
Qed.

Lemma has_columns_true (T : Table) (cols : list string) :
  Forall (fun c => c ∈ columns T) cols -> has_columns T cols = true.
Proof.
  intros Hcols. unfold has_columns. apply forallb_forall. intros c Hc.
  apply bool_decide_eq_true_2. rewrite Forall_forall in Hcols. apply Hcols.
  apply list_elem_of_In. exact Hc.
Qed.

Lemma exec_delete_root (d : Database) (tbl : string) (T : Table) (rootID : string) :
  tables d !! tbl = Some T -> "root_id" ∈ columns T ->
  exec (DELETE_FROM_WHERE tbl ["root_id"]) [VText rootID] d
  = inr (put_table d tbl (with_rows T (without_root rootID (rows T)))).
Proof.
  intros HT Hcol. unfold exec. rewrite HT.
  rewrite (has_columns_true T ["root_id"]) by (repeat constructor; exact Hcol).
  rewrite bool_decide_eq_true_2 by reflexivity.
  cbn [negb]. rewrite filter_without_root. reflexivity.
Qed.

(** One [DELETE FROM tbl WHERE root_id = ?] of [deleteByRootID]. *)
Lemma delete_step (t : Tx) (rootID tbl : string) (T : Table) (w : World) :
  faultless w -> live t w = true ->
  tables (data w) !! tbl = Some T -> "root_id" ∈ columns T ->
  exists w',
    execStmtTx env t (DELETE_FROM_WHERE tbl ["root_id"]) [VText rootID] w = (Ret None, w')
    /\ faultless w' /\ live t w' = true
    /\ caseSensitive w' = caseSensitive w
    /\ tables (data w') = <[tbl := with_rows T (without_root rootID (rows T))]> (tables (data w)).
Proof.
  intros Hio Hlive HT Hcol.
  destruct (execStmtTx_ok t _ _ w _ Hio Hlive (exec_delete_root _ _ _ rootID HT Hcol))
    as (w' & Hrun & Hio' & Hlive' & Hcs & _ & Hdata).
  exists w'. rewrite Hdata. auto.
Qed.

Lemma renamed_rows (tree : Ast.Tree) (rs : list Row) :
  List.map
    (fun r =>
       if matches (zip ["root_id"] [VText (Ast.TreeID tree)]) r
       then assign (zip ["box"; "path"; "hpath"]
                        [VText (Ast.Box tree); VText (Ast.Path tree); VText (Ast.HPath tree)]) r
       else r) rs
  = renamed tree <$> rs.
Proof.
  apply (list_fmap_ext _ (renamed tree) rs). intros _ r _.
  unfold renamed, under_root, matches. cbn [zip zip_with forallb fst snd].
  rewrite andb_true_r.
  destruct (decide (r !! "root_id" = Some (VText (Ast.TreeID tree)))) as [Heq|Hne].
  - rewrite bool_decide_eq_true_2 by exact Heq. reflexivity.
  - rewrite bool_decide_eq_false_2 by exact Hne. reflexivity.
Qed.

Lemma exec_update_path (d : Database) (tbl : string) (T : Table) (tree : Ast.Tree) :
  tables d !! tbl = Some T ->
  Forall (fun c => c ∈ columns T) ["box"; "path"; "hpath"; "root_id"] ->
  exec (UPDATE_SET_WHERE tbl ["box"; "path"; "hpath"] ["root_id"])
       [VText (Ast.Box tree); VText (Ast.Path tree); VText (Ast.HPath tree);
        VText (Ast.TreeID tree)] d
  = inr (put_table d tbl (with_rows T (renamed tree <$> rows T))).
Proof.
  intros HT Hcols. unfold exec. rewrite HT.
  rewrite (has_columns_true T (["box"; "path"; "hpath"] ++ ["root_id"])) by exact Hcols.
  rewrite bool_decide_eq_true_2 by reflexivity.
  cbn [negb]. rewrite <- renamed_rows. reflexivity.
Qed.

(** One [UPDATE tbl SET box = ?, path = ?, hpath = ? WHERE root_id = ?]
    of [batchUpdatePath]. *)
Lemma update_step (t : Tx) (tree : Ast.Tree) (tbl : string) (T : Table) (w : World) :
  faultless w -> live t w = true ->
  tables (data w) !! tbl = Some T ->
  Forall (fun c => c ∈ columns T) ["box"; "path"; "hpath"; "root_id"] ->
  exists w',
    execStmtTx env t (UPDATE_SET_WHERE tbl ["box"; "path"; "hpath"] ["root_id"])
               [VText (Ast.Box tree); VText (Ast.Path tree); VText (Ast.HPath tree);
                VText (Ast.TreeID tree)] w = (Ret None, w')
    /\ faultless w' /\ live t w' = true
    /\ caseSensitive w' = caseSensitive w
    /\ tables (data w') = <[tbl := with_rows T (renamed tree <$> rows T)]> (tables (data w)).
Proof.
  intros Hio Hlive HT Hcols.
  destruct (execStmtTx_ok t _ _ w _ Hio Hlive (exec_update_path _ _ _ tree HT Hcols))
    as (w' & Hrun & Hio' & Hlive' & Hcs & _ & Hdata).
  exists w'. rewrite Hdata. auto.
Qed.

Lemma renamed_other_column (tree : Ast.Tree) (r : Row) (c : string) :
  c ∉ ["box"; "path"; "hpath"] -> renamed tree r !! c = r !! c.
Proof.
  intros Hc. rewrite !not_elem_of_cons in Hc. destruct Hc as (Hbox & Hpath & Hhpath & _).
  unfold renamed. destruct (decide _); [|reflexivity].
  rewrite !lookup_insert_ne by congruence. reflexivity.
Qed.

Lemma renamed_other_root (tree : Ast.Tree) (r : Row) :
  ~ under_root (Ast.TreeID tree) r -> renamed tree r = r.
Proof. intros Hr. unfold renamed. destruct (decide _); [contradiction|reflexivity]. Qed.

Lemma renamed_under_root (tree : Ast.Tree) (r : Row) :
  under_root (Ast.TreeID tree) r ->
  renamed tree r !! "box" = Some (VText (Ast.Box tree))
  /\ renamed tree r !! "path" = Some (VText (Ast.Path tree))
  /\ renamed tree r !! "hpath" = Some (VText (Ast.HPath tree)).
Proof.
  intros Hr. unfold renamed. destruct (decide _); [|contradiction].
  repeat split.
  - rewrite !lookup_insert_ne by discriminate. apply lookup_insert_eq.
  - rewrite lookup_insert_ne by discriminate. apply lookup_insert_eq.
  - apply lookup_insert_eq.
Qed.
End Statements.

(** *** Deleting the rows of a root *)

Section DeleteByRoot.
Import GoStrings Sqlite Store StoreVocabulary.
Context (env : Env).

Lemma rows_of_lookup (d : Database) (t : string) (T : Table) :
  tables d !! t = Some T -> rows_of d t = rows T.
Proof. intros HT. unfold rows_of. rewrite HT. reflexivity. Qed.

(** C1 (as amended).  In a live transaction of a faultless world whose
    tables carry a root id, [deleteByRootID] returns no error and leaves
    in blocks, blocks_fts, spans, assets, refs, file_annotation_refs and
    attributes exactly the rows that are not under the root, in their
    order.  It does the same to blocks_fts_case_insensitive when the
    case-sensitive mode is off; when it is on, that table is left as it
    is. *)
Theorem deleteByRootID_removes_rows_of_root
    (w : World) (t : Tx) (rootID : string) (context : gmap string string) :
  faultless w ->
  live t w = true ->
  Forall (fun tbl => has_column (data w) tbl "root_id") root_tables ->
  exists w',
    deleteByRootID env t rootID context w = (Ret None, w')
    /\ Forall (fun tbl => rows_of (data w') tbl = without_root rootID (rows_of (data w) tbl))
              ["blocks"; "blocks_fts"; "spans"; "assets"; "refs"; "file_annotation_refs";
               "attributes"]
    /\ rows_of (data w') "blocks_fts_case_insensitive"
       = (if caseSensitive w
          then rows_of (data w) "blocks_fts_case_insensitive"
          else without_root rootID (rows_of (data w) "blocks_fts_case_insensitive")).
Proof.
  intros Hio Hlive Hschema. unfold root_tables in Hschema.
  apply Forall_cons in Hschema as [(Tb & HTb & Hcb) Hschema].
  apply Forall_cons in Hschema as [(Tf & HTf & Hcf) Hschema].
  apply Forall_cons in Hschema as [(Ti & HTi & Hci) Hschema].
  apply Forall_cons in Hschema as [(Ts & HTs & Hcs) Hschema].
  apply Forall_cons in Hschema as [(Ta & HTa & Hca) Hschema].
  apply Forall_cons in Hschema as [(Tr & HTr & Hcr) Hschema].
  apply Forall_cons in Hschema as [(Tn & HTn & Hcn) Hschema].
  apply Forall_cons in Hschema as [(Tt & HTt & Hct) _].
  unfold deleteByRootID.
  (* blocks *)
  destruct (delete_step env t rootID "blocks" Tb w Hio Hlive HTb Hcb)
    as (w1 & Hrun1 & Hio1 & Hlive1 & Hmode1 & Htab1).
  rewrite (and_then_ok _ _ _ _ Hrun1).
  (* blocks_fts *)
  assert (HTf1 : tables (data w1) !! "blocks_fts" = Some Tf)
    by (rewrite Htab1, lookup_insert_ne by discriminate; exact HTf).
  destruct (delete_step env t rootID "blocks_fts" Tf w1 Hio1 Hlive1 HTf1 Hcf)
    as (w2 & Hrun2 & Hio2 & Hlive2 & Hmode2 & Htab2).
  rewrite (and_then_ok _ _ _ _ Hrun2). rewrite Htab1 in Htab2.
  (* blocks_fts_case_insensitive, by the mode *)
  assert (Hmode : caseSensitive w2 = caseSensitive w) by congruence.
  assert (Hstep3 : exists w3,
             (fun w0 =>
                if negb (caseSensitive w0)
                then execStmtTx env t
                       (DELETE_FROM_WHERE "blocks_fts_case_insensitive" ["root_id"])
                       [VText rootID] w0
                else ret None w0) w2 = (Ret None, w3)
             /\ faultless w3 /\ live t w3 = true
             /\ tables (data w3)
                = (if caseSensitive w
                   then <["blocks_fts" := with_rows Tf (without_root rootID (rows Tf))]>
                          (<["blocks" := with_rows Tb (without_root rootID (rows Tb))]>
                             (tables (data w)))
                   else <["blocks_fts_case_insensitive" :=
                            with_rows Ti (without_root rootID (rows Ti))]>
                          (<["blocks_fts" := with_rows Tf (without_root rootID (rows Tf))]>
                             (<["blocks" := with_rows Tb (without_root rootID (rows Tb))]>
                                (tables (data w)))))).
  { cbv beta. rewrite Hmode. destruct (caseSensitive w); cbn [negb].
    - exists w2. auto.
    - assert (HTi2 : tables (data w2) !! "blocks_fts_case_insensitive" = Some Ti)
        by (rewrite Htab2, !lookup_insert_ne by discriminate; exact HTi).
      destruct (delete_step env t rootID _ Ti w2 Hio2 Hlive2 HTi2 Hci)
        as (w3 & Hrun3 & Hio3 & Hlive3 & _ & Htab3).
      exists w3. rewrite Htab2 in Htab3. auto. }
  destruct Hstep3 as (w3 & Hrun3 & Hio3 & Hlive3 & Htab3).
  rewrite (and_then_ok _ _ _ _ Hrun3).
  assert (Hkeep3 : forall tbl,
             tbl <> "blocks" -> tbl <> "blocks_fts" -> tbl <> "blocks_fts_case_insensitive" ->
             tables (data w3) !! tbl = tables (data w) !! tbl).
  { intros tbl H1 H2 H3. rewrite Htab3.
    destruct (caseSensitive w); rewrite !lookup_insert_ne by congruence; reflexivity. }
  (* spans *)
  assert (HTs3 : tables (data w3) !! "spans" = Some Ts)
    by (rewrite Hkeep3 by discriminate; exact HTs).
  destruct (delete_step env t rootID "spans" Ts w3 Hio3 Hlive3 HTs3 Hcs)
    as (w4 & Hrun4 & Hio4 & Hlive4 & _ & Htab4).
  rewrite (and_then_ok _ _ _ _ Hrun4).
  (* assets *)
  assert (HTa4 : tables (data w4) !! "assets" = Some Ta)
    by (rewrite Htab4, lookup_insert_ne, Hkeep3 by discriminate; exact HTa).
  destruct (delete_step env t rootID "assets" Ta w4 Hio4 Hlive4 HTa4 Hca)
    as (w5 & Hrun5 & Hio5 & Hlive5 & _ & Htab5).
  rewrite (and_then_ok _ _ _ _ Hrun5). rewrite Htab4 in Htab5.
  (* refs *)
  assert (HTr5 : tables (data w5) !! "refs" = Some Tr)
    by (rewrite Htab5, !lookup_insert_ne, Hkeep3 by discriminate; exact HTr).
  destruct (delete_step env t rootID "refs" Tr w5 Hio5 Hlive5 HTr5 Hcr)
    as (w6 & Hrun6 & Hio6 & Hlive6 & _ & Htab6).
  rewrite (and_then_ok _ _ _ _ Hrun6). rewrite Htab5 in Htab6.
  (* file_annotation_refs *)
  assert (HTn6 : tables (data w6) !! "file_annotation_refs" = Some Tn)
    by (rewrite Htab6, !lookup_insert_ne, Hkeep3 by discriminate; exact HTn).
  destruct (delete_step env t rootID "file_annotation_refs" Tn w6 Hio6 Hlive6 HTn6 Hcn)
    as (w7 & Hrun7 & Hio7 & Hlive7 & _ & Htab7).
  rewrite (and_then_ok _ _ _ _ Hrun7). rewrite Htab6 in Htab7.
  (* attributes *)
  assert (HTt7 : tables (data w7) !! "attributes" = Some Tt)
    by (rewrite Htab7, !lookup_insert_ne, Hkeep3 by discriminate; exact HTt).
  destruct (delete_step env t rootID "attributes" Tt w7 Hio7 Hlive7 HTt7 Hct)
    as (w8 & Hrun8 & Hio8 & Hlive8 & _ & Htab8).
  rewrite (and_then_ok _ _ _ _ Hrun8). rewrite Htab7 in Htab8.
  (* ClearCache, Publish *)
  exists (log (EPublish (EvtSQLDeleteBlocks env) [rootID]) (log EClearCache w8)).
  split; [reflexivity|].
  change (data (log (EPublish (EvtSQLDeleteBlocks env) [rootID]) (log EClearCache w8)))
    with (data w8).
  split.
  - repeat (apply Forall_cons; split); try apply Forall_nil_2;
      unfold rows_of; rewrite Htab8, ?HTb, ?HTf, ?HTs, ?HTa, ?HTr, ?HTn, ?HTt;
      repeat (rewrite lookup_insert_ne by discriminate);
      first [ rewrite lookup_insert_eq; reflexivity
            | rewrite Htab3; destruct (caseSensitive w);
              repeat (rewrite lookup_insert_ne by discriminate);
              rewrite lookup_insert_eq; reflexivity ].
  - unfold rows_of. rewrite Htab8, HTi.
    rewrite !lookup_insert_ne by discriminate. rewrite Htab3.
    destruct (caseSensitive w).
    + rewrite !lookup_insert_ne by discriminate. rewrite HTi. reflexivity.
    + rewrite lookup_insert_eq. reflexivity.
Qed.
End DeleteByRoot.

(** *** Renaming the path of a root *)

Section Rename.
Import GoStrings Sqlite Store StoreVocabulary.
Context (env : Env).

(** C4 (as amended).  In a live transaction of a faultless world,
    [batchUpdatePath] returns no error and replaces, in blocks and in
    blocks_fts, every row under the tree's root by the row with the
    tree's box, path and display path; blocks_fts_case_insensitive is
    treated alike when the case-sensitive mode is off and left as it is
    when the mode is on.  A renamed row differs from the row it replaces
    in the columns box, path and hpath at most (so not in content or
    markdown); a row under another root, and every other table, is
    untouched. *)
Theorem batchUpdatePath_renames_rows_of_root
    (w : World) (t : Tx) (tree : Ast.Tree) (context : gmap string string) :
  faultless w ->
  live t w = true ->
  Forall (fun tbl => table_with (data w) tbl ["box"; "path"; "hpath"; "root_id"])
         block_tables ->
  exists w',
    batchUpdatePath env t tree context w = (Ret None, w')
    /\ rows_of (data w') "blocks" = renamed tree <$> rows_of (data w) "blocks"
    /\ rows_of (data w') "blocks_fts" = renamed tree <$> rows_of (data w) "blocks_fts"
    /\ rows_of (data w') "blocks_fts_case_insensitive"
       = (if caseSensitive w
          then rows_of (data w) "blocks_fts_case_insensitive"
          else renamed tree <$> rows_of (data w) "blocks_fts_case_insensitive")
    /\ (forall tbl, tbl ∉ block_tables -> tables (data w') !! tbl = tables (data w) !! tbl)
    /\ (forall r c, c ∉ ["box"; "path"; "hpath"] -> renamed tree r !! c = r !! c)
    /\ (forall r, ~ under_root (Ast.TreeID tree) r -> renamed tree r = r)
    /\ (forall r, under_root (Ast.TreeID tree) r ->
                  renamed tree r !! "box" = Some (VText (Ast.Box tree))
                  /\ renamed tree r !! "path" = Some (VText (Ast.Path tree))
                  /\ renamed tree r !! "hpath" = Some (VText (Ast.HPath tree))).
Proof.
  intros Hio Hlive Hschema. unfold block_tables in Hschema.
  apply Forall_cons in Hschema as [(Tb & HTb & Hcb) Hschema].
  apply Forall_cons in Hschema as [(Tf & HTf & Hcf) Hschema].
  apply Forall_cons in Hschema as [(Ti & HTi & Hci) _].
  unfold batchUpdatePath.
  destruct (update_step env t tree "blocks" Tb w Hio Hlive HTb Hcb)
    as (w1 & Hrun1 & Hio1 & Hlive1 & Hmode1 & Htab1).
  rewrite (and_then_ok _ _ _ _ Hrun1).
  assert (HTf1 : tables (data w1) !! "blocks_fts" = Some Tf)
    by (rewrite Htab1, lookup_insert_ne by discriminate; exact HTf).
  destruct (update_step env t tree "blocks_fts" Tf w1 Hio1 Hlive1 HTf1 Hcf)
    as (w2 & Hrun2 & Hio2 & Hlive2 & Hmode2 & Htab2).
  rewrite (and_then_ok _ _ _ _ Hrun2). rewrite Htab1 in Htab2.
  assert (Hmode : caseSensitive w2 = caseSensitive w) by congruence.
  assert (Hstep3 : exists w3,
             (fun w0 =>
                if negb (caseSensitive w0)
                then execStmtTx env t
                       (UPDATE_SET_WHERE "blocks_fts_case_insensitive"
                                         ["box"; "path"; "hpath"] ["root_id"])
                       [VText (Ast.Box tree); VText (Ast.Path tree);
                        VText (Ast.HPath tree); VText (Ast.TreeID tree)] w0
                else ret None w0) w2 = (Ret None, w3)
             /\ tables (data w3)
                = (if caseSensitive w
                   then <["blocks_fts" := with_rows Tf (renamed tree <$> rows Tf)]>
                          (<["blocks" := with_rows Tb (renamed tree <$> rows Tb)]>
                             (tables (data w)))
                   else <["blocks_fts_case_insensitive" :=
                            with_rows Ti (renamed tree <$> rows Ti)]>
                          (<["blocks_fts" := with_rows Tf (renamed tree <$> rows Tf)]>
                             (<["blocks" := with_rows Tb (renamed tree <$> rows Tb)]>
                                (tables (data w)))))).
  { cbv beta. rewrite Hmode. destruct (caseSensitive w); cbn [negb].
    - exists w2. auto.
    - assert (HTi2 : tables (data w2) !! "blocks_fts_case_insensitive" = Some Ti)
        by (rewrite Htab2, !lookup_insert_ne by discriminate; exact HTi).
      destruct (update_step env t tree _ Ti w2 Hio2 Hlive2 HTi2 Hci)
        as (w3 & Hrun3 & _ & _ & _ & Htab3).
      exists w3. rewrite Htab2 in Htab3. auto. }
  destruct Hstep3 as (w3 & Hrun3 & Htab3).
  rewrite (and_then_ok _ _ _ _ Hrun3).
  eexists. split; [reflexivity|].
  cbn [data log]. unfold rows_of. rewrite Htab3, HTb, HTf, HTi.
  split; [|split; [|split; [|split]]].
  - destruct (caseSensitive w); rewrite ?lookup_insert_ne by discriminate;
      rewrite lookup_insert_eq; reflexivity.
  - destruct (caseSensitive w); rewrite ?lookup_insert_ne by discriminate;
      rewrite lookup_insert_eq; reflexivity.
  - destruct (caseSensitive w).
    + rewrite !lookup_insert_ne by discriminate. rewrite HTi. reflexivity.
    + rewrite lookup_insert_eq. reflexivity.
  - intros tbl Htbl. unfold block_tables in Htbl. rewrite !not_elem_of_cons in Htbl.
    destruct Htbl as (H1 & H2 & H3 & _).
    destruct (caseSensitive w); rewrite !lookup_insert_ne by congruence; reflexivity.
  - split; [apply renamed_other_column|].
    split; [apply renamed_other_root|apply renamed_under_root].
Qed.
End Rename.

(** *** The store at work *)

Section StoreExamples.
Import GoStrings Sqlite Store StoreVocabulary Sample.

Lemma table_with_check (d : Database) (t : string) (cols : list string) (T : Table) :
  tables d !! t = Some T -> forallb (fun c => bool_decide (c ∈ columns T)) cols = true ->
  table_with d t cols.
Proof.
  intros HT Hcols. exists T. split; [exact HT|].
  apply Forall_forall. intros c Hc. rewrite forallb_forall in Hcols.
  apply list_elem_of_In in Hc. apply Hcols in Hc. apply bool_decide_eq_true_1 in Hc. exact Hc.
Qed.

Lemma has_column_check (d : Database) (t c : string) (T : Table) :
  tables d !! t = Some T -> bool_decide (c ∈ columns T) = true -> has_column d t c.
Proof.
  intros HT Hc. exists T. split; [exact HT|]. apply bool_decide_eq_true_1 in Hc. exact Hc.
Qed.

(** C1, the claim as stated fails: in the case-sensitive mode the row of
    root [r1] in blocks_fts_case_insensitive outlives a successful
    [deleteByRootID]. *)
Lemma deleteByRootID_spares_case_insensitive_table :
  exists w',
    deleteByRootID env tx1 "r1" ∅ (in_transaction true []) = (Ret None, w')
    /\ Exists (under_root "r1") (rows_of (data w') "blocks_fts_case_insensitive").
Proof.
  eexists. split; [vm_compute; reflexivity|].
  apply Exists_cons_hd. vm_compute. reflexivity.
Qed.

(** C1 at work, with the case-sensitive mode off. *)
Lemma deleteByRootID_removes_rows_of_root_witness :
  let w := in_transaction false [] in
  exists w',
    deleteByRootID env tx1 "r1" ∅ w = (Ret None, w')
    /\ Forall (fun tbl => rows_of (data w') tbl = without_root "r1" (rows_of (data w) tbl))
              ["blocks"; "blocks_fts"; "spans"; "assets"; "refs"; "file_annotation_refs";
               "attributes"]
    /\ rows_of (data w') "blocks_fts_case_insensitive"
       = (if caseSensitive w
          then rows_of (data w) "blocks_fts_case_insensitive"
          else without_root "r1" (rows_of (data w) "blocks_fts_case_insensitive")).
Proof.
  apply (deleteByRootID_removes_rows_of_root env (in_transaction false []) tx1 "r1" ∅).
  - constructor.
  - reflexivity.
  - repeat (apply Forall_cons; split;
            [eapply has_column_check; vm_compute; reflexivity|]).
    apply Forall_nil_2.
Defined.

(** C4, the claim as stated fails: in the case-sensitive mode the row of
    root [r1] in blocks_fts_case_insensitive keeps its old path after a
    successful [batchUpdatePath], while the row in blocks has the new
    one. *)
Lemma batchUpdatePath_spares_case_insensitive_table :
  exists w',
    batchUpdatePath env tx1 moved ∅ (in_transaction true []) = (Ret None, w')
    /\ rows_of (data w') "blocks_fts_case_insensitive"
       = [block_row "b1" "r1" "/r1.sy" "/One" "one"; block_row "b2" "r2" "/r2.sy" "/Two" "two"]
    /\ (rows_of (data w') "blocks" !! 0%nat) ≫= (fun r => r !! "path")
       = Some (VText "/moved/r1.sy").
Proof.
  eexists. split; [vm_compute; reflexivity|].
  split; vm_compute; reflexivity.
Qed.

(** C4 at work, with the case-sensitive mode off. *)
Lemma batchUpdatePath_renames_rows_of_root_witness :
  let w := in_transaction false [] in
  exists w',
    batchUpdatePath env tx1 moved ∅ w = (Ret None, w')
    /\ rows_of (data w') "blocks" = renamed moved <$> rows_of (data w) "blocks"
    /\ rows_of (data w') "blocks_fts" = renamed moved <$> rows_of (data w) "blocks_fts"
    /\ rows_of (data w') "blocks_fts_case_insensitive"
       = (if caseSensitive w
          then rows_of (data w) "blocks_fts_case_insensitive"
          else renamed moved <$> rows_of (data w) "blocks_fts_case_insensitive")
    /\ (forall tbl, tbl ∉ block_tables -> tables (data w') !! tbl = tables (data w) !! tbl)
    /\ (forall r c, c ∉ ["box"; "path"; "hpath"] -> renamed moved r !! c = r !! c)
    /\ (forall r, ~ under_root (Ast.TreeID moved) r -> renamed moved r = r)
    /\ (forall r, under_root (Ast.TreeID moved) r ->
                  renamed moved r !! "box" = Some (VText (Ast.Box moved))
                  /\ renamed moved r !! "path" = Some (VText (Ast.Path moved))
                  /\ renamed moved r !! "hpath" = Some (VText (Ast.HPath moved))).
Proof.
  apply (batchUpdatePath_renames_rows_of_root env (in_transaction false []) tx1 moved ∅).
  - constructor.
  - reflexivity.
  - repeat (apply Forall_cons; split;
            [eapply table_with_check; vm_compute; reflexivity|]).
    apply Forall_nil_2.
Defined.

(** C5 at work: a malformed disk image ends the process with code 20 and
    without the three files; a locked database is reported to the
    caller. *)
Lemma execStmtTx_corruption_is_fatal_witness :
  (exists w',
      execStmtTx env tx1 delete_r1 [VText "r1"]
                 (in_transaction false [Some "database disk image is malformed"])
      = (Exit 20, w')
      /\ live tx1 w' = false
      /\ db w' = ClosedDB
      /\ (forall p, p ∈ store_files env -> p ∉ disk w')
      /\ data w' = empty_db)
  /\ execStmtTx env tx1 delete_r1 [VText "r1"]
                (in_transaction false [Some "database is locked"])
     = (Ret (Some "database is locked"),
        log (EExec delete_r1 [VText "r1"] (Some "database is locked"))
            (set_io_results [] (in_transaction false [Some "database is locked"]))).
Proof.
  split.
  - destruct (execStmtTx_corruption_is_fatal
                env (in_transaction false [Some "database disk image is malformed"])
                tx1 delete_r1 [VText "r1"] "database disk image is malformed" [] eq_refl)
      as [Hfatal _].
    destruct (Hfatal ltac:(vm_compute; reflexivity))
      as (w' & Hrun & Hlive & _ & _ & Hgone).
    destruct (Hgone ltac:(constructor)) as [Hfiles Hdata].
    exists w'. split; [exact Hrun|]. split; [exact Hlive|].
    split; [|split; [exact Hfiles|exact Hdata]].
    assert (Hw' : Some (db w') = Some ClosedDB).
    { transitivity (Some (db (execStmtTx env tx1 delete_r1 [VText "r1"]
                     (in_transaction false [Some "database disk image is malformed"])).2)).
      - rewrite Hrun. reflexivity.
      - vm_compute. reflexivity. }
    inversion Hw'. reflexivity.
  - apply (execStmtTx_corruption_is_fatal
             env (in_transaction false [Some "database is locked"])
             tx1 delete_r1 [VText "r1"] "database is locked" [] eq_refl).
    vm_compute. reflexivity.
Defined.
End StoreExamples.

(** *** Opening and rebuilding *)

Section Lifecycle.
Import GoStrings Sqlite Store StoreVocabulary.
Context (env : Env).

Lemma closeDatabase_trace (w : World) :
  exists w',
    closeDatabase w = (Ret None, w')
    /\ db w' <> OpenDB /\ (db w <> NilDB -> db w' = ClosedDB)
    /\ tx w' = tx w /\ data w' = data w /\ disk w' = disk w
    /\ io_results w' = io_results w /\ caseSensitive w' = caseSensitive w
    /\ trace w' = trace w ++ closing (db w).
Proof.
  unfold closeDatabase, closing. destruct (db w) eqn:Hdb; eexists; (split; [reflexivity|]);
    simpl; rewrite ?app_nil_r; repeat split; try congruence; try discriminate.
Qed.

Lemma initDBConnection_ok (w : World) :
  faultless w ->
  exists w',
    initDBConnection env w = (Ret tt, w')
    /\ faultless w' /\ db w' = OpenDB
    /\ tx w' = tx w /\ data w' = data w /\ disk w' = disk w
    /\ caseSensitive w' = caseSensitive w
    /\ trace w' = trace w ++ closing (db w) ++ [EOpen (dsn env)].
Proof.
  intros Hio.
  destruct (closeDatabase_trace w)
    as (w1 & Hrun1 & _ & _ & Htx1 & Hdata1 & Hdisk1 & Hio1 & Hcs1 & Htrace1).
  assert (Hclose : (fun w0 => match db w0 with
                              | NilDB => (Ret tt, w0)
                              | _ => bind closeDatabase (fun _ => ret tt) w0
                              end) w = (Ret tt, w1)).
  { cbv beta. unfold bind. rewrite Hrun1. unfold closeDatabase in Hrun1.
    destruct (db w); [inversion Hrun1; reflexivity|reflexivity|reflexivity]. }
  assert (Hio1' : faultless w1) by (unfold faultless; rewrite Hio1; exact Hio).
  exists (log (EOpen (dsn env)) (set_db OpenDB (answered w1))).
  split.
  - unfold initDBConnection. rewrite (bind_Ret _ _ _ _ _ Hclose).
    fold (dsn env). unfold sql_Open.
    rewrite (bind_Ret _ _ _ _ _ (bind_Ret _ _ _ _ _ (next_result_faultless w1 Hio1'))).
    reflexivity.
  - split; [exact (faultless_answered w1 Hio1')|].
    simpl. rewrite Htrace1, <- app_assoc. repeat split; assumption.
Qed.

Lemma db_Exec_ok (s : Stmt) (args : list Value) (w : World) (d' : Database) :
  faultless w -> db w = OpenDB -> exec s args (data w) = inr d' ->
  exists w',
    db_Exec env s args w = (Ret None, w')
    /\ faultless w' /\ db w' = OpenDB
    /\ tx w' = tx w /\ data w' = d' /\ disk w' = {[DBPath env]} ∪ disk w
    /\ caseSensitive w' = caseSensitive w
    /\ trace w' = trace w ++ [EExec s args None].
Proof.
  intros Hio Hdb Hexec.
  exists (log (EExec s args None)
              (set_disk ({[DBPath env]} ∪ disk w) (set_data d' (answered w)))).
  split.
  - unfold db_Exec. rewrite Hdb.
    rewrite (bind_Ret _ _ _ _ _ (next_result_faultless w Hio)).
    unfold apply_stmt. change (data (answered w)) with (data w). rewrite Hexec. reflexivity.
  - split; [exact (faultless_answered w Hio)|]. simpl. repeat split. exact Hdb.
Qed.

Lemma must_Exec_ok (s : Stmt) (w : World) (d' : Database) :
  faultless w -> db w = OpenDB -> exec s [] (data w) = inr d' ->
  exists w',
    must_Exec env s w = (Ret tt, w')
    /\ faultless w' /\ db w' = OpenDB
    /\ tx w' = tx w /\ data w' = d' /\ disk w' = {[DBPath env]} ∪ disk w
    /\ caseSensitive w' = caseSensitive w
    /\ trace w' = trace w ++ [EExec s [] None].
Proof.
  intros Hio Hdb Hexec.
  destruct (db_Exec_ok s [] w d' Hio Hdb Hexec) as (w' & Hrun & Hrest).
  exists w'. split; [|exact Hrest].
  unfold must_Exec. rewrite (bind_Ret _ _ _ _ _ Hrun). reflexivity.
Qed.

Lemma must_seq_ok {A} (stmts : list Stmt) (k : M A) :
  forall (w : World) (d' : Database),
    faultless w -> db w = OpenDB -> run_script stmts (data w) = Some d' ->
    exists w',
      must_seq env stmts k w = k w'
      /\ faultless w' /\ db w' = OpenDB
      /\ tx w' = tx w /\ data w' = d'
      /\ (stmts <> [] -> disk w' = {[DBPath env]} ∪ disk w)
      /\ (stmts = [] -> disk w' = disk w)
      /\ caseSensitive w' = caseSensitive w
      /\ trace w' = trace w ++ ((fun s => EExec s [] None) <$> stmts).
Proof.
  induction stmts as [|s stmts IH]; intros w d' Hio Hdb Hrun; simpl in Hrun.
  - inversion Hrun; subst. exists w. simpl. rewrite app_nil_r.
    repeat split; auto. intros Hne. contradiction.
  - destruct (exec s [] (data w)) as [msg|d1] eqn:Hexec; [discriminate|].
    destruct (must_Exec_ok s w d1 Hio Hdb Hexec)
      as (w1 & Hrun1 & Hio1 & Hdb1 & Htx1 & Hdata1 & Hdisk1 & Hcs1 & Htrace1).
    rewrite <- Hdata1 in Hrun.
    destruct (IH w1 d' Hio1 Hdb1 Hrun)
      as (w' & Hrun' & Hio' & Hdb' & Htx' & Hdata' & Hdisk' & Hdisk0 & Hcs' & Htrace').
    exists w'. split.
    { simpl. rewrite (bind_Ret _ _ _ _ _ Hrun1). exact Hrun'. }
    split; [exact Hio'|]. split; [exact Hdb'|]. split; [congruence|].
    split; [exact Hdata'|]. split.
    { intros _. destruct stmts as [|s' stmts'].
      - rewrite Hdisk0 by reflexivity. exact Hdisk1.
      - rewrite Hdisk' by discriminate. rewrite Hdisk1.
        rewrite (assoc_L (∪)), (idemp_L (∪)). reflexivity. }
    split; [discriminate|]. split; [congruence|].
    rewrite Htrace', Htrace1, fmap_cons, <- app_assoc. reflexivity.
Qed.

Lemma initDBTables_script :
  initDBTables env
  = must_seq env schema_head
      (bind (setDatabaseVer env)
            (fun _ => must_seq env schema_tail (must_Exec env schema_last))).
Proof. reflexivity. Qed.

Lemma Forall_statement_done (stmts : list Stmt) :
  Forall statement_done ((fun s => EExec s [] None) <$> stmts).
Proof. induction stmts; constructor; [exact I|assumption]. Qed.

(** On an open, empty database in a faultless world [initDBTables]
    returns and leaves the full schema. *)
Lemma initDBTables_fresh (w : World) :
  faultless w -> db w = OpenDB -> data w = empty_db ->
  exists w',
    initDBTables env w = (Ret tt, w')
    /\ faultless w' /\ db w' = OpenDB
    /\ tx w' = tx w /\ data w' = fresh_schema env
    /\ disk w' = {[DBPath env]} ∪ disk w
    /\ caseSensitive w' = caseSensitive w
    /\ exists evs, trace w' = trace w ++ evs /\ Forall statement_done evs.
Proof.
  intros Hio Hdb Hdata. rewrite initDBTables_script.
  (* stat *)
  destruct (must_seq_ok schema_head
              (bind (setDatabaseVer env)
                    (fun _ => must_seq env schema_tail (must_Exec env schema_last)))
              w (default empty_db (run_script schema_head empty_db)) Hio Hdb)
    as (w1 & Hrun1 & Hio1 & Hdb1 & Htx1 & Hdata1 & Hdisk1 & _ & Hcs1 & Htrace1).
  { rewrite Hdata. vm_compute. reflexivity. }
  rewrite Hrun1. specialize (Hdisk1 ltac:(discriminate)).
  (* the version row *)
  destruct (db_Exec_ok (INSERT_INTO "stat")
              [VText (StatVerKey env); VText (DatabaseVer env)] w1
              (match exec (INSERT_INTO "stat")
                          [VText (StatVerKey env); VText (DatabaseVer env)]
                          (default empty_db (run_script schema_head empty_db)) with
               | inr d => d
               | inl _ => empty_db
               end) Hio1 Hdb1)
    as (w2 & Hrun2 & Hio2 & Hdb2 & Htx2 & Hdata2 & Hdisk2 & Hcs2 & Htrace2).
  { rewrite Hdata1. vm_compute. reflexivity. }
  assert (Hver : setDatabaseVer env w1 = (Ret tt, w2)).
  { unfold setDatabaseVer. rewrite (bind_Ret _ _ _ _ _ Hrun2). reflexivity. }
  rewrite (bind_Ret _ _ _ _ _ Hver).
  (* the other tables *)
  destruct (must_seq_ok schema_tail (must_Exec env schema_last) w2
              (default empty_db (run_script schema_tail (data w2))) Hio2 Hdb2)
    as (w3 & Hrun3 & Hio3 & Hdb3 & Htx3 & Hdata3 & Hdisk3 & _ & Hcs3 & Htrace3).
  { rewrite Hdata2. vm_compute. reflexivity. }
  rewrite Hrun3. specialize (Hdisk3 ltac:(discriminate)).
  destruct (must_Exec_ok schema_last w3
              (match exec schema_last [] (data w3) with
               | inr d => d
               | inl _ => empty_db
               end) Hio3 Hdb3)
    as (w4 & Hrun4 & Hio4 & Hdb4 & Htx4 & Hdata4 & Hdisk4 & Hcs4 & Htrace4).
  { rewrite Hdata3, Hdata2. vm_compute. reflexivity. }
  exists w4. split; [exact Hrun4|]. split; [exact Hio4|]. split; [exact Hdb4|].
  split; [congruence|]. split.
  { rewrite Hdata4, Hdata3, Hdata2. vm_compute. reflexivity. }
  split.
  { rewrite Hdisk4, Hdisk3, Hdisk2, Hdisk1.
    rewrite !(assoc_L (∪)), !(idemp_L (∪)). reflexivity. }
  split; [congruence|].
  eexists. split.
  { rewrite Htrace4, Htrace3, Htrace2, Htrace1, <- !app_assoc. reflexivity. }
  repeat (apply Forall_app; split); try apply Forall_statement_done;
    repeat constructor.
Qed.
End Lifecycle.

Section InitDatabaseFacts.
Import GoStrings Sqlite Store StoreVocabulary.
Context (env : Env).

Lemma bind_emit {A} (e : Effect) (k : unit -> M A) (w : World) :
  bind (emit e) k w = k tt (log e w).
Proof. reflexivity. Qed.

Lemma removed_fields (path : string) (w : World) :
  db (removed env path w) = db w
  /\ tx (removed env path w) = tx w
  /\ caseSensitive (removed env path w) = caseSensitive w
  /\ io_results (removed env path w) = tail (io_results w)
  /\ trace (removed env path w) = trace w ++ [ERemoveAll path None].
Proof. unfold removed. destruct (under path (DBPath env)); repeat split. Qed.

Lemma faultless_tail (w w' : World) :
  faultless w -> io_results w' = tail (io_results w) -> faultless w'.
Proof.
  unfold faultless. intros Hio ->. destruct (io_results w); [constructor|].
  apply Forall_cons in Hio as [_ Hio]. exact Hio.
Qed.

Lemma files_removed_fields (w : World) :
  faultless w ->
  faultless (files_removed env w)
  /\ db (files_removed env w) = db w
  /\ tx (files_removed env w) = tx w
  /\ caseSensitive (files_removed env w) = caseSensitive w
  /\ trace (files_removed env w) = trace w ++ removals env.
Proof.
  intros Hio. unfold files_removed.
  set (w1 := removed env (DBPath env) w).
  set (w2 := removed env (DBPath env +:+ "-shm") w1).
  destruct (removed_fields (DBPath env) w) as (Hdb1 & Htx1 & Hcs1 & Hio1 & Htr1).
  destruct (removed_fields (DBPath env +:+ "-shm") w1) as (Hdb2 & Htx2 & Hcs2 & Hio2 & Htr2).
  destruct (removed_fields (DBPath env +:+ "-wal") w2) as (Hdb3 & Htx3 & Hcs3 & Hio3 & Htr3).
  fold w1 in Hdb1, Htx1, Hcs1, Hio1, Htr1. fold w2 in Hdb2, Htx2, Hcs2, Hio2, Htr2.
  assert (Hf1 : faultless w1) by (eapply faultless_tail; eassumption).
  assert (Hf2 : faultless w2) by (eapply faultless_tail; eassumption).
  split; [eapply faultless_tail; eassumption|].
  split; [congruence|]. split; [congruence|]. split; [congruence|].
  rewrite Htr3, Htr2, Htr1, <- !app_assoc. reflexivity.
Qed.

Lemma append_suffix_ne (s x : string) : x <> "" -> s +:+ x <> s.
Proof.
  intros Hx. induction s as [|c s IH]; simpl; [exact Hx|].
  intros Heq. inversion Heq. contradiction.
Qed.

Lemma getDatabaseVer_ok (w : World) :
  faultless w ->
  getDatabaseVer env w = (Ret (stored_version env (data w)), answered w).
Proof.
  intros Hio. unfold getDatabaseVer.
  rewrite (bind_Ret _ _ _ _ _ (next_result_faultless w Hio)). reflexivity.
Qed.

Lemma Forall_benign_opening (forceRebuild : bool) (h : Handle) :
  Forall benign (opening env forceRebuild h).
Proof. destruct forceRebuild, h; repeat constructor. Qed.

(** From the closing of the connection on. *)
Lemma rebuild_from_close (w : World) :
  faultless w -> db w = OpenDB -> consistent env w ->
  exists w',
    bind closeDatabase
      (fun _ =>
         bind (IsExist (DBPath env))
           (fun exists_ : bool =>
              bind (if exists_
                    then bind (removeDatabaseFile env)
                           (fun err => match err with
                                       | Some _ => emit EPushClearProgress
                                       | None => ret tt
                                       end)
                    else ret tt)
                (fun _ => bind (initDBConnection env)
                            (fun _ => bind (initDBTables env)
                                        (fun _ => ret (None : option string)))))) w
    = (Ret None, w')
    /\ db w' = OpenDB
    /\ data w' = fresh_schema env
    /\ DBPath env ∈ disk w'
    /\ (DBPath env ∈ disk w ->
        ~ DBPath env +:+ "-shm" ∈ disk w' /\ ~ DBPath env +:+ "-wal" ∈ disk w')
    /\ (forall p, p ∈ disk w' -> p = DBPath env \/ p ∈ disk w)
    /\ exists stmts,
        trace w'
        = trace w ++ [EClose]
          ++ (if decide (DBPath env ∈ disk w) then removals env else [])
          ++ [EClose; EOpen (dsn env)] ++ stmts
        /\ Forall statement_done stmts.
Proof.
  intros Hio Hdb Hcons.
  destruct (closeDatabase_trace w)
    as (w1 & Hrun1 & _ & Hdb1 & Htx1 & Hdata1 & Hdisk1 & Hio1 & Hcs1 & Htrace1).
  specialize (Hdb1 ltac:(rewrite Hdb; discriminate)).
  rewrite Hdb in Htrace1. cbn [closing] in Htrace1.
  assert (Hf1 : faultless w1) by (unfold faultless; rewrite Hio1; exact Hio).
  (* the files *)
  assert (Hfiles : exists w2,
             bind (if bool_decide (DBPath env ∈ disk w1)
                   then bind (removeDatabaseFile env)
                          (fun err => match err with
                                      | Some _ => emit EPushClearProgress
                                      | None => ret tt
                                      end)
                   else ret tt)
               (fun _ => bind (initDBConnection env)
                           (fun _ => bind (initDBTables env) (fun _ => ret (None : option string)))) w1
             = bind (initDBConnection env)
                 (fun _ => bind (initDBTables env) (fun _ => ret (None : option string))) w2
             /\ faultless w2 /\ db w2 = ClosedDB /\ data w2 = empty_db
             /\ (DBPath env ∈ disk w ->
                 forall p, p ∈ store_files env -> p ∉ disk w2)
             /\ disk w2 ⊆ disk w
             /\ trace w2
                = trace w1 ++ (if decide (DBPath env ∈ disk w) then removals env else [])).
  { rewrite Hdisk1. destruct (decide (DBPath env ∈ disk w)) as [Hin|Hout].
    - rewrite bool_decide_eq_true_2 by exact Hin.
      destruct (removeDatabaseFile_ok env 0 w1 (faultless_faultless_for _ _ Hf1))
        as [Hrun2 _].
      destruct (files_removed_fields w1 Hf1) as (Hf2 & Hdb2 & Htx2 & Hcs2 & Htrace2).
      exists (files_removed env w1). split.
      { rewrite (bind_Ret _ _ _ _ _ (bind_Ret _ _ _ _ _ Hrun2)). reflexivity. }
      split; [exact Hf2|]. split; [congruence|].
      split; [apply files_removed_data|].
      split; [intros _ p Hp; apply files_removed_gone; exact Hp|].
      split; [|exact Htrace2].
      intros p Hp. unfold files_removed in Hp.
      apply disk_removed in Hp as [Hp _]. apply disk_removed in Hp as [Hp _].
      apply disk_removed in Hp as [Hp _]. rewrite Hdisk1 in Hp. exact Hp.
    - rewrite bool_decide_eq_false_2 by exact Hout.
      exists w1. split; [reflexivity|]. split; [exact Hf1|]. split; [exact Hdb1|].
      split; [rewrite Hdata1; apply Hcons; exact Hout|].
      split; [intros Hin; contradiction|].
      split; [rewrite Hdisk1; reflexivity|]. rewrite app_nil_r. reflexivity. }
  destruct Hfiles as (w2 & Hrun2 & Hf2 & Hdb2 & Hdata2 & Hgone2 & Hdisk2 & Htrace2).
  (* the connection and the schema *)
  destruct (initDBConnection_ok env w2 Hf2)
    as (w3 & Hrun3 & Hf3 & Hdb3 & Htx3 & Hdata3 & Hdisk3 & Hcs3 & Htrace3).
  rewrite Hdb2 in Htrace3. cbn [closing] in Htrace3.
  destruct (initDBTables_fresh env w3 Hf3 Hdb3 ltac:(congruence))
    as (w4 & Hrun4 & Hf4 & Hdb4 & Htx4 & Hdata4 & Hdisk4 & Hcs4 & stmts & Htrace4 & Hstmts).
  exists w4. split.
  { rewrite (bind_Ret _ _ _ _ _ Hrun1).
    unfold IsExist at 1. unfold bind at 1. rewrite Hrun2.
    rewrite (bind_Ret _ _ _ _ _ Hrun3), (bind_Ret _ _ _ _ _ Hrun4). reflexivity. }
  split; [exact Hdb4|]. split; [exact Hdata4|].
  split; [rewrite Hdisk4; apply elem_of_union_l, elem_of_singleton; reflexivity|].
  split.
  { intros Hin. rewrite Hdisk4, Hdisk3. split; intros Hp;
      apply elem_of_union in Hp as [Hp|Hp];
      try (apply elem_of_singleton in Hp; revert Hp; apply append_suffix_ne; discriminate);
      revert Hp; apply (Hgone2 Hin); unfold store_files; rewrite !elem_of_cons; auto. }
  split.
  { intros p Hp. rewrite Hdisk4, Hdisk3 in Hp. apply elem_of_union in Hp as [Hp|Hp].
    - left. apply elem_of_singleton in Hp. exact Hp.
    - right. apply Hdisk2. exact Hp. }
  exists stmts. split; [|exact Hstmts].
  rewrite Htrace4, Htrace3, Htrace2, Htrace1, <- !app_assoc. reflexivity.
Qed.
End InitDatabaseFacts.

Section InitDatabaseTheorem.
Import GoStrings Sqlite Store StoreVocabulary.
Context (env : Env).

Lemma bind_ret {A B} (a : A) (k : A -> M B) (w : World) : bind (ret a) k w = k a w.
Proof. reflexivity. Qed.

(** C7 (as amended).  In a faultless and consistent world [InitDatabase] returns no
    error and leaves the store open.  Called with [forceRebuild] false on
    a store whose version row holds the expected version, it leaves the
    content of the database and the files on disk as they are and runs no
    statement and no removal.  Otherwise it closes the connection,
    removes the database file with its -shm and -wal files when the
    database file exists, opens the connection again and then runs the
    statements that leave the full schema: every table empty, both
    full-text tables among them, and the version stored. *)
Theorem InitDatabase_reuses_or_rebuilds (w : World) (forceRebuild : bool) :
  faultless w ->
  consistent env w ->
  exists w',
    InitDatabase env forceRebuild w = (Ret None, w')
    /\ db w' = OpenDB
    /\ if negb forceRebuild && String.eqb (DatabaseVer env) (stored_version env (data w))
       then reused w w'
       else rebuilt env w w'.
Proof.
  intros Hio Hcons.
  set (w2 := log (ECacheEnabled false) (log EClearCache w)).
  set (w3 := log EBootProgress w2).
  set (w4 := if forceRebuild then log EClearQueue w3 else w3).
  assert (Hf4 : faultless w4) by (unfold w4; destruct forceRebuild; exact Hio).
  destruct (initDBConnection_ok env w4 Hf4)
    as (w5 & Hrun5 & Hf5 & Hdb5 & Htx5 & Hdata5 & Hdisk5 & Hcs5 & Htrace5).
  assert (Hdata4 : data w4 = data w) by (unfold w4; destruct forceRebuild; reflexivity).
  assert (Hdisk4 : disk w4 = disk w) by (unfold w4; destruct forceRebuild; reflexivity).
  assert (Hdb4 : db w4 = db w) by (unfold w4; destruct forceRebuild; reflexivity).
  assert (Htrace4 : trace w4
                    = trace w ++ [EClearCache; ECacheEnabled false; EBootProgress]
                      ++ (if forceRebuild then [EClearQueue] else [])).
  { unfold w4, w3, w2. destruct forceRebuild; simpl; rewrite <- !app_assoc; reflexivity. }
  set (w6 := log (EInitBlockTree forceRebuild) w5).
  assert (Htrace6 : trace w6 = trace w ++ opening env forceRebuild (db w)).
  { unfold w6, opening. simpl. rewrite Htrace5, Htrace4, Hdb4, <- !app_assoc. reflexivity. }
  (* the version check *)
  destruct (negb forceRebuild && String.eqb (DatabaseVer env) (stored_version env (data w)))
    eqn:Hcurrent.
  - (* reuse *)
    apply andb_prop in Hcurrent as [Hforce Hver].
    destruct forceRebuild; [discriminate|].
    exists (log (ECacheEnabled true) (answered w6)).
    split.
    { unfold InitDatabase, ClearCache, disableCache, enableCache.
      rewrite bind_emit. cbv beta. rewrite bind_emit. cbv beta.
      fold w2. erewrite bind_Ret; [reflexivity|].
      rewrite bind_emit. cbv beta. fold w3. rewrite bind_ret.
      change w3 with w4. rewrite (bind_Ret _ _ _ _ _ Hrun5).
      rewrite bind_emit. cbv beta. fold w6. cbn [negb].
      rewrite (bind_Ret _ _ _ _ _ (bind_Ret _ _ _ _ _ (getDatabaseVer_ok env w6 Hf5))).
      cbv beta. change (data w6) with (data w5). rewrite Hdata5, Hdata4, Hver.
      reflexivity. }
    split; [exact Hdb5|].
    split; [simpl; congruence|]. split; [simpl; congruence|].
    exists (opening env false (db w) ++ [ECacheEnabled true]). split.
    { simpl. change (trace w5 ++ [EInitBlockTree false]) with (trace w6).
      rewrite Htrace6, <- app_assoc. reflexivity. }
    apply Forall_app. split; [apply Forall_benign_opening|repeat constructor].
  - (* rebuild *)
    set (w7 := if forceRebuild then w6 else answered w6).
    assert (Hf7 : faultless w7).
    { unfold w7. destruct forceRebuild; [exact Hf5|exact (faultless_answered w6 Hf5)]. }
    assert (H7 : db w7 = OpenDB /\ data w7 = data w /\ disk w7 = disk w
                 /\ trace w7 = trace w6).
    { unfold w7. destruct forceRebuild; simpl; repeat split; congruence. }
    destruct H7 as (Hdb7 & Hdata7 & Hdisk7 & Htrace7).
    assert (Hcons7 : consistent env w7).
    { unfold consistent. rewrite Hdisk7, Hdata7. exact Hcons. }
    destruct (rebuild_from_close env w7 Hf7 Hdb7 Hcons7)
      as (w8 & Hrun8 & Hdb8 & Hdata8 & Hin8 & Hgone8 & Hkept8 & stmts & Htrace8 & Hstmts).
    exists (log (ECacheEnabled true) w8).
    split.
    { unfold InitDatabase, ClearCache, disableCache, enableCache.
      rewrite bind_emit. cbv beta. rewrite bind_emit. cbv beta.
      fold w2. erewrite bind_Ret; [reflexivity|].
      rewrite bind_emit. cbv beta. fold w3.
      destruct forceRebuild.
      - rewrite bind_emit. cbv beta. change (log EClearQueue w3) with w4.
        rewrite (bind_Ret _ _ _ _ _ Hrun5).
        rewrite bind_emit. cbv beta. fold w6. cbn [negb]. rewrite bind_ret.
        exact Hrun8.
      - rewrite bind_ret. change w3 with w4. rewrite (bind_Ret _ _ _ _ _ Hrun5).
        rewrite bind_emit. cbv beta. fold w6. cbn [negb].
        rewrite (bind_Ret _ _ _ _ _ (bind_Ret _ _ _ _ _ (getDatabaseVer_ok env w6 Hf5))).
        cbv beta. change (data w6) with (data w5). rewrite Hdata5, Hdata4.
        cbn [negb andb] in Hcurrent. rewrite Hcurrent. exact Hrun8. }
    split; [exact Hdb8|].
    unfold rebuilt. cbn [data disk trace log]. rewrite Hdisk7 in Hgone8, Hkept8, Htrace8.
    split; [exact Hdata8|]. split; [exact Hin8|]. split; [exact Hgone8|].
    split; [exact Hkept8|].
    exists (opening env forceRebuild (db w)), stmts.
    split; [|split; [apply Forall_benign_opening|exact Hstmts]].
    rewrite Htrace8, Htrace7, Htrace6, <- !app_assoc. reflexivity.
Qed.
End InitDatabaseTheorem.

Section InitDatabaseWitness.
Import GoStrings Sqlite Store StoreVocabulary Sample.

Lemma at_rest_consistent (d : Database) : consistent env (at_rest d).
Proof.
  intros Hout. exfalso. apply Hout.
  apply (bool_decide_unpack _). vm_compute. exact I.
Qed.

(** C7 at work: the store of the expected version is reused, the store
    without a version row is rebuilt. *)
Lemma InitDatabase_reuses_or_rebuilds_witness :
  (exists w',
      InitDatabase env false (at_rest (fresh_schema env)) = (Ret None, w')
      /\ db w' = OpenDB
      /\ reused (at_rest (fresh_schema env)) w')
  /\ (exists w',
         InitDatabase env false (at_rest indexed_db) = (Ret None, w')
         /\ db w' = OpenDB
         /\ rebuilt env (at_rest indexed_db) w').
Proof.
  split.
  - destruct (InitDatabase_reuses_or_rebuilds env (at_rest (fresh_schema env)) false)
      as (w' & Hrun & Hdb & Hcase).
    + constructor.
    + apply at_rest_consistent.
    + exists w'. split; [exact Hrun|]. split; [exact Hdb|].
      assert (Hcurrent : negb false
                         && String.eqb (DatabaseVer env)
                              (stored_version env (data (at_rest (fresh_schema env))))
                         = true) by (vm_compute; reflexivity).
      rewrite Hcurrent in Hcase. exact Hcase.
  - destruct (InitDatabase_reuses_or_rebuilds env (at_rest indexed_db) false)
      as (w' & Hrun & Hdb & Hcase).
    + constructor.
    + apply at_rest_consistent.
    + exists w'. split; [exact Hrun|]. split; [exact Hdb|].
      assert (Hcurrent : negb false
                         && String.eqb (DatabaseVer env)
                              (stored_version env (data (at_rest indexed_db)))
                         = false) by (vm_compute; reflexivity).
      rewrite Hcurrent in Hcase. exact Hcase.
Defined.

(** C7, the claim as stated fails: the database file is missing, its
    -shm and -wal files are on disk.  The forced rebuild returns, tries
    no removal, and both files are still there: the removal is behind
    [gulu.File.IsExist(util.DBPath)]. *)
Lemma InitDatabase_keeps_side_files_without_database_file :
  fst (InitDatabase env true StoreSample.side_files_only) = Ret None
  /\ (DBPath env ∉ disk StoreSample.side_files_only)
  /\ DBPath env +:+ "-shm" ∈ disk (snd (InitDatabase env true StoreSample.side_files_only))
  /\ DBPath env +:+ "-wal" ∈ disk (snd (InitDatabase env true StoreSample.side_files_only))
  /\ Forall (fun e => match e with ERemoveAll _ _ => False | _ => True end)
            (trace (snd (InitDatabase env true StoreSample.side_files_only))).
Proof.
  split; [vm_compute; reflexivity|].
  split; [apply (bool_decide_unpack _); vm_compute; exact I|].
  split; [apply (bool_decide_unpack _); vm_compute; exact I|].
  split; [apply (bool_decide_unpack _); vm_compute; exact I|].
  vm_compute. repeat constructor.
Qed.
End InitDatabaseWitness.

(** *** The templating adapter *)

Section Substitution.
Import GoStrings Template Vocabulary.

Lemma append_cons (x : ascii) (a b : string) : String x a +:+ b = String x (a +:+ b).
Proof. reflexivity. Qed.

Lemma append_nil_r (a : string) : a +:+ "" = a.
Proof. induction a as [|x a IH]; [reflexivity|]. rewrite append_cons, IH. reflexivity. Qed.

Lemma append_assoc (a b c : string) : (a +:+ b) +:+ c = a +:+ (b +:+ c).
Proof.
  induction a as [|x a IH]; [reflexivity|]. rewrite !append_cons, IH. reflexivity.
Qed.

Lemma placeholder_free_app (a b : string) :
  placeholder_free a -> placeholder_free b -> placeholder_free (a +:+ b).
Proof.
  unfold placeholder_free. intros Ha Hb. induction a as [|x a IH]; [exact Hb|].
  rewrite append_cons. cbn [list_ascii_of_string] in *.
  apply Forall_cons in Ha as [Hx Ha]. constructor; [exact Hx|apply IH, Ha].
Qed.

(** Before the first [?] nothing is replaced. *)
Lemma Replace1_after_prefix (pre s arg : string) :
  placeholder_free pre -> Replace1 (pre +:+ s) "?" arg = pre +:+ Replace1 s "?" arg.
Proof.
  unfold placeholder_free. induction pre as [|c pre IH]; intros Hpre; [reflexivity|].
  cbn [list_ascii_of_string] in Hpre. apply Forall_cons in Hpre as [Hc Hpre].
  rewrite !append_cons.
  cbn [Replace1 HasPrefix]. destruct (Ascii.eqb c "?") eqn:E.
  - apply Ascii.eqb_eq in E. contradiction.
  - rewrite (IH Hpre). reflexivity.
Qed.

Lemma Replace1_placeholder (s arg : string) :
  Replace1 (String "?" s) "?" arg = arg +:+ s.
Proof. reflexivity. Qed.

Lemma Replace1_free (s arg : string) : placeholder_free s -> Replace1 s "?" arg = s.
Proof.
  intros Hs. pose proof (Replace1_after_prefix s "" arg Hs) as Hrun.
  rewrite append_nil_r in Hrun. rewrite Hrun. apply append_nil_r.
Qed.

Lemma substitute_free (s : string) (args : list string) :
  placeholder_free s -> substitute s args = s.
Proof.
  intros Hs. unfold substitute. induction args as [|arg args IH]; [reflexivity|].
  cbn [fold_left]. rewrite (Replace1_free s arg Hs). exact IH.
Qed.

Lemma substitute_positional_nil (stmt : string) : substitute_positional stmt [] = stmt.
Proof. destruct stmt; reflexivity. Qed.

(** With arguments free of [?], the loop of replacements fills the
    placeholders of the statement in their order. *)
Lemma substitute_after_prefix (stmt : string) :
  forall (args : list string) (pre : string),
    placeholder_free pre -> Forall placeholder_free args ->
    substitute (pre +:+ stmt) args = pre +:+ substitute_positional stmt args.
Proof.
  induction stmt as [|c stmt IH]; intros args pre Hpre Hargs.
  - destruct args; cbn [substitute_positional];
      apply substitute_free;
      (apply placeholder_free_app; [exact Hpre|exact (Forall_nil_2 _)]).
  - destruct args as [|arg args]; [reflexivity|].
    apply Forall_cons in Hargs as [Harg Hargs].
    cbn [substitute_positional]. destruct (Ascii.eqb c "?") eqn:E.
    + apply Ascii.eqb_eq in E. subst c.
      change (substitute (pre +:+ String "?" stmt) (arg :: args))
        with (substitute (Replace1 (pre +:+ String "?" stmt) "?" arg) args).
      rewrite (Replace1_after_prefix _ _ _ Hpre), Replace1_placeholder.
      rewrite <- append_assoc, IH, append_assoc; [reflexivity| |exact Hargs].
      apply placeholder_free_app; assumption.
    + change (pre +:+ String c stmt) with (pre +:+ (String c "" +:+ stmt)).
      rewrite <- append_assoc, IH, append_assoc; [reflexivity| |constructor; assumption].
      apply placeholder_free_app; [exact Hpre|].
      unfold placeholder_free. cbn [list_ascii_of_string]. constructor; [|constructor].
      intros ->. discriminate.
Qed.

Lemma substitute_is_positional (stmt : string) (args : list string) :
  Forall placeholder_free args -> substitute stmt args = substitute_positional stmt args.
Proof.
  intros Hargs. apply (substitute_after_prefix stmt args "" (Forall_nil_2 _) Hargs).
Qed.
End Substitution.

Section TemplateAdapter.
Import GoStrings Template Vocabulary.
Context `{Queries}.

(** A list cut to [limit] elements holds no more than [limit]. *)
Lemma capped {A} (limit : Z) (l : list A) :
  0 <= limit -> Z.of_nat (length (take (Z.to_nat limit) l)) <= limit.
Proof. intros Hlimit. rewrite length_take. lia. Qed.

(** C9 (as amended).  [SQLTemplateFuncs] sets the four names queryBlocks,
    getBlock, querySpans and querySQL and no other.  queryBlocks and
    querySpans replace, for each argument in turn, the first [?] still in
    the statement, and run the result (queryBlocks on page 1); querySQL
    runs its statement as it is.  When no argument holds a [?], the
    replacement is positional: the i-th argument stands where the i-th
    [?] of the statement stood.  The results are capped: queryBlocks and
    querySpans return the first rows of what the store answers, 512 at
    most, and querySQL the first rows, 1024 at most. *)
Theorem SQLTemplateFuncs_registers_capped_queries (templateFuncMap : gmap string Func) :
  dom (SQLTemplateFuncs templateFuncMap) = template_names ∪ dom templateFuncMap
  /\ (forall name, name ∉ template_names ->
                   SQLTemplateFuncs templateFuncMap !! name = templateFuncMap !! name)
  /\ SQLTemplateFuncs templateFuncMap !! "queryBlocks" = Some (FuncBlocks queryBlocks)
  /\ SQLTemplateFuncs templateFuncMap !! "getBlock" = Some (FuncBlock getBlock)
  /\ SQLTemplateFuncs templateFuncMap !! "querySpans" = Some (FuncSpans querySpans)
  /\ SQLTemplateFuncs templateFuncMap !! "querySQL" = Some (FuncRows querySQL)
  /\ (forall stmt args,
         queryBlocks stmt args = SelectBlocksRawStmt (substitute stmt args) 1 512
         /\ querySpans stmt args = SelectSpansRawStmt (substitute stmt args) 512)
  /\ (forall stmt, querySQL stmt = fst (Query stmt 1024))
  /\ (forall stmt args,
         Forall placeholder_free args ->
         substitute stmt args = substitute_positional stmt args)
  /\ (forall stmt args,
         Z.of_nat (length (queryBlocks stmt args)) <= 512
         /\ exists rest, blocks_for (substitute stmt args) 1 = queryBlocks stmt args ++ rest)
  /\ (forall stmt args,
         Z.of_nat (length (querySpans stmt args)) <= 512
         /\ exists rest, spans_for (substitute stmt args) = querySpans stmt args ++ rest)
  /\ (forall stmt,
         Z.of_nat (length (querySQL stmt)) <= 1024
         /\ exists rest, fst (rows_for stmt) = querySQL stmt ++ rest).
Proof.
  unfold SQLTemplateFuncs, template_names.
  split.
  { rewrite !dom_insert_L. apply set_eq. intros name.
    rewrite !elem_of_union, !elem_of_singleton. tauto. }
  split.
  { intros name Hname. rewrite !not_elem_of_union, !not_elem_of_singleton in Hname.
    destruct Hname as (((H1 & H2) & H3) & H4).
    rewrite !lookup_insert_ne by congruence. reflexivity. }
  split; [rewrite !lookup_insert_ne by discriminate; apply lookup_insert_eq|].
  split; [rewrite !lookup_insert_ne by discriminate; apply lookup_insert_eq|].
  split; [rewrite !lookup_insert_ne by discriminate; apply lookup_insert_eq|].
  split; [apply lookup_insert_eq|].
  split; [intros stmt args; split; reflexivity|].
  split; [intros stmt; reflexivity|].
  split; [intros stmt args; apply substitute_is_positional|].
  split.
  { intros stmt args. unfold queryBlocks, SelectBlocksRawStmt. split.
    - apply capped. lia.
    - eexists. symmetry. apply take_drop. }
  split.
  { intros stmt args. unfold querySpans, SelectSpansRawStmt. split.
    - apply capped. lia.
    - eexists. symmetry. apply take_drop. }
  intros stmt. unfold querySQL, Query. cbn [fst]. split.
  - apply capped. lia.
  - eexists. symmetry. apply take_drop.
Qed.
End TemplateAdapter.

Section TemplateExamples.
Import GoStrings Template Vocabulary Sample.

(** C9, the claim as stated fails: the first argument holds a [?], and
    the second argument lands inside the first instead of taking the
    place of the second [?] of the statement. *)
Lemma queryBlocks_substitution_is_not_positional :
  let stmt := "SELECT * FROM blocks WHERE content = '?' AND id = '?'" in
  let args := ["why?"; "b1"] in
  Block.Content <$> queryBlocks stmt args
  = ["SELECT * FROM blocks WHERE content = 'whyb1' AND id = '?'"]
  /\ substitute_positional stmt args
     = "SELECT * FROM blocks WHERE content = 'why?' AND id = 'b1'".
Proof. split; vm_compute; reflexivity. Qed.

(** C9 at work: on the store that answers with the statement, and on
    the store that holds 600 blocks, 600 spans and 2000 rows, of which
    512, 512 and 1024 are returned. *)
Lemma SQLTemplateFuncs_registers_capped_queries_witness :
  dom (SQLTemplateFuncs ∅) = template_names
  /\ Block.Content <$> queryBlocks "SELECT * FROM blocks WHERE id = '?' AND box = '?'"
                                 ["b1"; "box0"]
     = ["SELECT * FROM blocks WHERE id = 'b1' AND box = 'box0'"]
  /\ substitute "SELECT * FROM blocks WHERE id = '?' AND box = '?'" ["b1"; "box0"]
     = substitute_positional "SELECT * FROM blocks WHERE id = '?' AND box = '?'"
                             ["b1"; "box0"]
  /\ Z.of_nat (length (queryBlocks "SELECT * FROM blocks" [])) <= 512
  /\ length (@blocks_for plenty "SELECT * FROM blocks" 1) = 600%nat
  /\ length (@queryBlocks plenty "SELECT * FROM blocks" []) = 512%nat
  /\ Z.of_nat (length (@queryBlocks plenty "SELECT * FROM blocks" [])) <= 512
  /\ length (@querySpans plenty "SELECT * FROM spans" []) = 512%nat
  /\ length (@querySQL plenty "SELECT * FROM blocks") = 1024%nat
  /\ Z.of_nat (length (@querySQL plenty "SELECT * FROM blocks")) <= 1024.
Proof.
  destruct (SQLTemplateFuncs_registers_capped_queries ∅)
    as (Hdom & _ & _ & _ & _ & _ & _ & _ & Hpositional & Hblocks & _ & _).
  destruct (@SQLTemplateFuncs_registers_capped_queries plenty ∅)
    as (_ & _ & _ & _ & _ & _ & _ & _ & _ & Hblocks' & _ & Hrows').
  split.
  { rewrite Hdom, dom_empty_L. apply (right_id_L ∅ (∪)). }
  split; [vm_compute; reflexivity|].
  split.
  { apply Hpositional. unfold placeholder_free.
    repeat (constructor; [repeat constructor; discriminate|]). constructor. }
  split; [apply (Hblocks "SELECT * FROM blocks" [])|].
  split; [vm_compute; reflexivity|].
  split; [vm_compute; reflexivity|].
  split; [apply (Hblocks' "SELECT * FROM blocks" [])|].
  split; [vm_compute; reflexivity|].
  split; [vm_compute; reflexivity|].
  apply (Hrows' "SELECT * FROM blocks").
Defined.
End TemplateExamples.

(** *** Deleting by box and by path *)

Section DeleteWhere.
Import GoStrings Sqlite Store StoreVocabulary Deletion RunVocabulary.
Context (env : Env).

Lemma matches_satisfies (conds : list (string * Value)) (r : Row) :
  matches conds r = true <-> satisfies conds r.
Proof.
  unfold matches, satisfies. induction conds as [|cv conds IH]; simpl.
  - split; [constructor|reflexivity].
  - rewrite andb_true_iff, Forall_cons, IH, bool_decide_eq_true. reflexivity.
Qed.

Lemma filter_rows_without (conds : list (string * Value)) (rs : list Row) :
  List.filter (fun r => negb (matches conds r)) rs = rows_without conds rs.
Proof.
  unfold rows_without. apply List_filter_decide. intros r.
  rewrite negb_true_iff, <- matches_satisfies. destruct (matches conds r); split; congruence.
Qed.

Lemma exec_delete_where (d : Database) (tbl : string) (cols : list string)
    (args : list Value) :
  table_with d tbl cols -> length args = length cols ->
  exec (DELETE_FROM_WHERE tbl cols) args d = inr (delete_where tbl (zip cols args) d).
Proof.
  intros (T & HT & Hcols) Hargs. unfold exec, delete_where. rewrite HT.
  rewrite (has_columns_true T cols Hcols).
  rewrite bool_decide_eq_true_2 by exact Hargs.
  cbn [negb]. rewrite filter_rows_without. reflexivity.
Qed.

Lemma table_with_delete_where (d : Database) (tbl tbl' : string)
    (conds : list (string * Value)) (cols : list string) :
  table_with d tbl' cols -> table_with (delete_where tbl conds d) tbl' cols.
Proof.
  intros (T & HT & Hcols). unfold delete_where.
  destruct (tables d !! tbl) as [T0|] eqn:HT0; [|exists T; auto].
  destruct (decide (tbl = tbl')) as [->|Hne].
  - rewrite HT in HT0. inversion HT0; subst T0.
    exists (with_rows T (rows_without conds (rows T))).
    split; [apply lookup_insert_eq|exact Hcols].
  - exists T. split; [|exact Hcols].
    rewrite tables_put_table, lookup_insert_ne by exact Hne. exact HT.
Qed.

Lemma rows_of_delete_where_eq (d : Database) (tbl : string) (conds : list (string * Value)) :
  rows_of (delete_where tbl conds d) tbl = rows_without conds (rows_of d tbl).
Proof.
  unfold rows_of, delete_where. destruct (tables d !! tbl) as [T|] eqn:HT.
  - rewrite tables_put_table, lookup_insert_eq. reflexivity.
  - rewrite HT. reflexivity.
Qed.

Lemma tables_delete_where_ne (d : Database) (tbl tbl' : string)
    (conds : list (string * Value)) :
  tbl <> tbl' -> tables (delete_where tbl conds d) !! tbl' = tables d !! tbl'.
Proof.
  intros Hne. unfold delete_where. destruct (tables d !! tbl) as [T|]; [|reflexivity].
  rewrite tables_put_table, lookup_insert_ne by exact Hne. reflexivity.
Qed.

Lemma rows_of_delete_where_ne (d : Database) (tbl tbl' : string)
    (conds : list (string * Value)) :
  tbl <> tbl' -> rows_of (delete_where tbl conds d) tbl' = rows_of d tbl'.
Proof.
  intros Hne. unfold rows_of. rewrite tables_delete_where_ne by exact Hne. reflexivity.
Qed.

(** A statement the store accepts, run in the live transaction of a
    faultless world: the one effect is the statement. *)
Lemma execStmtTx_done (t : Tx) (s : Stmt) (args : list Value) (w : World) (d' : Database) :
  faultless w -> live t w = true -> exec s args (data w) = inr d' ->
  exists w',
    execStmtTx env t s args w = (Ret None, w')
    /\ faultless w' /\ live t w' = true
    /\ caseSensitive w' = caseSensitive w
    /\ data w' = d'
    /\ trace w' = trace w ++ [EExec s args None].
Proof.
  intros Hio Hlive Hexec.
  exists (log (EExec s args None)
              (set_disk ({[DBPath env]} ∪ disk w) (set_data d' (answered w)))).
  split.
  - assert (Hrun : tx_Exec env t s args w
                   = (Ret None,
                      log (EExec s args None)
                          (set_disk ({[DBPath env]} ∪ disk w) (set_data d' (answered w))))).
    { unfold tx_Exec.
      rewrite (bind_Ret _ _ _ _ _ (next_result_faultless w Hio)).
      assert (Hlive' : live t (answered w) = true) by exact Hlive.
      rewrite Hlive'. unfold apply_stmt.
      change (data (answered w)) with (data w). rewrite Hexec. reflexivity. }
    unfold execStmtTx. rewrite (bind_Ret _ _ _ _ _ Hrun). reflexivity.
  - split; [exact (faultless_answered w Hio)|]. split; [exact Hlive|].
    repeat split.
Qed.

(** One [DELETE FROM tbl WHERE c1 = ? AND ...] in a live transaction. *)
Lemma delete_where_step (t : Tx) (tbl : string) (cols : list string) (args : list Value)
    (w : World) :
  faultless w -> live t w = true ->
  table_with (data w) tbl cols -> length args = length cols ->
  exists w',
    execStmtTx env t (DELETE_FROM_WHERE tbl cols) args w = (Ret None, w')
    /\ faultless w' /\ live t w' = true
    /\ caseSensitive w' = caseSensitive w
    /\ data w' = delete_where tbl (zip cols args) (data w)
    /\ trace w' = trace w ++ [EExec (DELETE_FROM_WHERE tbl cols) args None].
Proof.
  intros Hio Hlive Htbl Hargs.
  apply execStmtTx_done; [exact Hio|exact Hlive|].
  apply exec_delete_where; assumption.
Qed.

Lemma effects_app (w w' : World) (evs : list Effect) :
  trace w' = trace w ++ evs -> effects w w' = evs.
Proof. intros Htrace. unfold effects. rewrite Htrace. apply drop_app_length. Qed.
End DeleteWhere.

Section Extends.
Import Sqlite Store StoreVocabulary RunVocabulary.

Lemma extends_refl (P : Effect -> Prop) (w : World) : extends P w w.
Proof. exists []. rewrite app_nil_r. split; [reflexivity|constructor]. Qed.

Lemma extends_same (P : Effect -> Prop) (w w' : World) : trace w' = trace w -> extends P w w'.
Proof. intros Htrace. exists []. rewrite app_nil_r. split; [exact Htrace|constructor]. Qed.

Lemma extends_trans (P : Effect -> Prop) (w1 w2 w3 : World) :
  extends P w1 w2 -> extends P w2 w3 -> extends P w1 w3.
Proof.
  intros (evs1 & H1 & HP1) (evs2 & H2 & HP2). exists (evs1 ++ evs2).
  split; [rewrite H2, H1, app_assoc; reflexivity|apply Forall_app; auto].
Qed.

Lemma extends_one (P : Effect -> Prop) (w w' : World) (e : Effect) :
  trace w' = trace w ++ [e] -> P e -> extends P w w'.
Proof. intros Htrace He. exists [e]. split; [exact Htrace|repeat constructor; exact He]. Qed.

Lemma extends_log (P : Effect -> Prop) (w : World) (e : Effect) : P e -> extends P w (log e w).
Proof. apply extends_one. reflexivity. Qed.

Lemma extends_impl (P Q : Effect -> Prop) (w w' : World) :
  (forall e, P e -> Q e) -> extends P w w' -> extends Q w w'.
Proof.
  intros HPQ (evs & Htrace & HP). exists evs. split; [exact Htrace|].
  eapply Forall_impl; eassumption.
Qed.

Lemma extends_effects (P : Effect -> Prop) (w w' : World) :
  extends P w w' -> Forall P (effects w w').
Proof.
  intros (evs & Htrace & HP). unfold effects. rewrite Htrace, drop_app_length. exact HP.
Qed.
End Extends.

Section DeleteByBox.
Import GoStrings Sqlite Store StoreVocabulary Deletion RunVocabulary.
Context (env : Env).

Lemma statement_done_unpublished (e : Effect) : statement_done e -> ~ published e.
Proof. destruct e; simpl; tauto. Qed.

(** One [DELETE] of the functions that delete by box. *)
Lemma delete_box_step (t : Tx) (tbl box : string) (w : World) :
  faultless w -> live t w = true -> table_with (data w) tbl ["box"] ->
  exists w',
    execStmtTx env t (DELETE_FROM_WHERE tbl ["box"]) [VText box] w = (Ret None, w')
    /\ faultless w' /\ live t w' = true
    /\ caseSensitive w' = caseSensitive w
    /\ data w' = delete_where tbl [("box", VText box)] (data w)
    /\ extends (fun e => ~ published e) w w'.
Proof.
  intros Hio Hlive Htbl.
  destruct (delete_where_step env t tbl ["box"] [VText box] w Hio Hlive Htbl eq_refl)
    as (w' & Hrun & Hio' & Hlive' & Hcs & Hdata & Htrace).
  exists w'. repeat (split; [assumption|]).
  eapply extends_one; [exact Htrace|]. simpl. tauto.
Qed.

Lemma deleteBlocksByBoxTx_done (t : Tx) (box : string) (w : World) :
  faultless w -> live t w = true ->
  Forall (fun tbl => table_with (data w) tbl ["box"]) block_tables ->
  exists w',
    deleteBlocksByBoxTx env t box w = (Ret None, w')
    /\ faultless w' /\ live t w' = true
    /\ caseSensitive w' = caseSensitive w
    /\ data w'
       = (let d := delete_where "blocks_fts" [("box", VText box)]
                     (delete_where "blocks" [("box", VText box)] (data w)) in
          if caseSensitive w then d
          else delete_where "blocks_fts_case_insensitive" [("box", VText box)] d)
    /\ extends (fun e => ~ published e) w w'.
Proof.
  intros Hio Hlive Hschema. unfold block_tables in Hschema.
  apply Forall_cons in Hschema as [Hb Hschema].
  apply Forall_cons in Hschema as [Hf Hschema].
  apply Forall_cons in Hschema as [Hi _].
  unfold deleteBlocksByBoxTx.
  destruct (delete_box_step t "blocks" box w Hio Hlive Hb)
    as (w1 & Hrun1 & Hio1 & Hlive1 & Hcs1 & Hdata1 & Hext1).
  rewrite (and_then_ok _ _ _ _ Hrun1).
  destruct (delete_box_step t "blocks_fts" box w1 Hio1 Hlive1)
    as (w2 & Hrun2 & Hio2 & Hlive2 & Hcs2 & Hdata2 & Hext2).
  { rewrite Hdata1. apply table_with_delete_where. exact Hf. }
  rewrite (and_then_ok _ _ _ _ Hrun2). rewrite Hdata1 in Hdata2.
  assert (Hmode : caseSensitive w2 = caseSensitive w) by congruence.
  assert (Hext12 : extends (fun e => ~ published e) w w2) by (eapply extends_trans; eassumption).
  unfold unless_caseSensitive at 1. unfold and_then at 1. unfold bind at 1.
  rewrite Hmode. cbv zeta. destruct (caseSensitive w); cbn [negb].
  - cbn [ret]. unfold ClearCache. rewrite bind_emit. cbv beta.
    eexists. split; [reflexivity|]. cbn [data log caseSensitive].
    repeat (split; [assumption|]).
    eapply extends_trans; [exact Hext12|]. apply extends_log. simpl. tauto.
  - destruct (delete_box_step t "blocks_fts_case_insensitive" box w2 Hio2 Hlive2)
      as (w3 & Hrun3 & Hio3 & Hlive3 & Hcs3 & Hdata3 & Hext3).
    { rewrite Hdata2. do 2 apply table_with_delete_where. exact Hi. }
    rewrite Hrun3. unfold ClearCache. rewrite bind_emit. cbv beta.
    eexists. split; [reflexivity|]. cbn [data log caseSensitive].
    split; [assumption|]. split; [assumption|]. split; [congruence|].
    split; [congruence|].
    eapply extends_trans; [exact Hext12|]. eapply extends_trans; [exact Hext3|].
    apply extends_log. simpl. tauto.
Qed.

(** X1.  In a live transaction of a faultless world whose tables carry a
    box, [deleteByBoxTx] returns no error and leaves in blocks,
    blocks_fts, spans, assets, attributes, refs and file_annotation_refs
    exactly the rows that are not in the box, in their order.  It does
    the same to blocks_fts_case_insensitive when the case-sensitive mode
    is off; when it is on, that table is left as it is.  Every other
    table is untouched, and no event is published. *)
Theorem deleteByBoxTx_removes_rows_of_box (w : World) (t : Tx) (box : string) :
  faultless w ->
  live t w = true ->
  Forall (fun tbl => table_with (data w) tbl ["box"]) root_tables ->
  exists w',
    deleteByBoxTx env t box w = (Ret None, w')
    /\ Forall (fun tbl => rows_of (data w') tbl = without_box box (rows_of (data w) tbl))
              ["blocks"; "blocks_fts"; "spans"; "assets"; "attributes"; "refs";
               "file_annotation_refs"]
    /\ rows_of (data w') "blocks_fts_case_insensitive"
       = (if caseSensitive w
          then rows_of (data w) "blocks_fts_case_insensitive"
          else without_box box (rows_of (data w) "blocks_fts_case_insensitive"))
    /\ (forall tbl, tbl ∉ root_tables -> tables (data w') !! tbl = tables (data w) !! tbl)
    /\ Forall (fun e => ~ published e) (effects w w').
Proof.
  intros Hio Hlive Hschema.
  assert (Hblocks : Forall (fun tbl => table_with (data w) tbl ["box"]) block_tables).
  { unfold root_tables in Hschema. unfold block_tables.
    apply Forall_cons in Hschema as [Hb Hschema].
    apply Forall_cons in Hschema as [Hf Hschema].
    apply Forall_cons in Hschema as [Hi _]. repeat constructor; assumption. }
  unfold root_tables in Hschema.
  apply Forall_cons in Hschema as [_ Hschema].
  apply Forall_cons in Hschema as [_ Hschema].
  apply Forall_cons in Hschema as [_ Hschema].
  apply Forall_cons in Hschema as [Hs Hschema].
  apply Forall_cons in Hschema as [Ha Hschema].
  apply Forall_cons in Hschema as [Hr Hschema].
  apply Forall_cons in Hschema as [Hn Hschema].
  apply Forall_cons in Hschema as [Ht _].
  unfold deleteByBoxTx.
  destruct (deleteBlocksByBoxTx_done t box w Hio Hlive Hblocks)
    as (w1 & Hrun1 & Hio1 & Hlive1 & Hcs1 & Hdata1 & Hext1).
  rewrite (and_then_ok _ _ _ _ Hrun1). cbv zeta in Hdata1.
  assert (Hkeep1 : forall tbl cols,
             table_with (data w) tbl cols -> table_with (data w1) tbl cols).
  { intros tbl cols Htbl. rewrite Hdata1.
    destruct (caseSensitive w); repeat apply table_with_delete_where; exact Htbl. }
  destruct (delete_box_step t "spans" box w1 Hio1 Hlive1 (Hkeep1 _ _ Hs))
    as (w2 & Hrun2 & Hio2 & Hlive2 & Hcs2 & Hdata2 & Hext2).
  unfold deleteSpansByBoxTx. rewrite (and_then_ok _ _ _ _ Hrun2).
  destruct (delete_box_step t "assets" box w2 Hio2 Hlive2)
    as (w3 & Hrun3 & Hio3 & Hlive3 & Hcs3 & Hdata3 & Hext3).
  { rewrite Hdata2. apply table_with_delete_where, Hkeep1, Ha. }
  unfold deleteAssetsByBoxTx. rewrite (and_then_ok _ _ _ _ Hrun3). rewrite Hdata2 in Hdata3.
  destruct (delete_box_step t "attributes" box w3 Hio3 Hlive3)
    as (w4 & Hrun4 & Hio4 & Hlive4 & Hcs4 & Hdata4 & Hext4).
  { rewrite Hdata3. do 2 apply table_with_delete_where. apply Hkeep1, Ht. }
  unfold deleteAttributesByBoxTx. rewrite (and_then_ok _ _ _ _ Hrun4).
  rewrite Hdata3 in Hdata4.
  destruct (delete_box_step t "refs" box w4 Hio4 Hlive4)
    as (w5 & Hrun5 & Hio5 & Hlive5 & Hcs5 & Hdata5 & Hext5).
  { rewrite Hdata4. do 3 apply table_with_delete_where. apply Hkeep1, Hr. }
  unfold deleteBlockRefsByBoxTx. rewrite (and_then_ok _ _ _ _ Hrun5).
  rewrite Hdata4 in Hdata5.
  destruct (delete_box_step t "file_annotation_refs" box w5 Hio5 Hlive5)
    as (w6 & Hrun6 & Hio6 & Hlive6 & Hcs6 & Hdata6 & Hext6).
  { rewrite Hdata5. do 4 apply table_with_delete_where. apply Hkeep1, Hn. }
  unfold deleteFileAnnotationRefsByBoxTx. rewrite (and_then_ok _ _ _ _ Hrun6).
  rewrite Hdata5 in Hdata6.
  exists w6. split; [reflexivity|].
  rewrite Hdata6, Hdata1. unfold without_box.
  split; [|split; [|split]].
  - destruct (caseSensitive w);
      repeat (apply Forall_cons; split); try apply Forall_nil_2;
      repeat first [ rewrite rows_of_delete_where_eq
                   | rewrite rows_of_delete_where_ne by discriminate ];
      reflexivity.
  - destruct (caseSensitive w);
      repeat first [ rewrite rows_of_delete_where_eq
                   | rewrite rows_of_delete_where_ne by discriminate ];
      reflexivity.
  - intros tbl Htbl. unfold root_tables in Htbl. rewrite !not_elem_of_cons in Htbl.
    destruct Htbl as (H1 & H2 & H3 & H4 & H5 & H6 & H7 & H8 & _).
    destruct (caseSensitive w);
      rewrite !tables_delete_where_ne by congruence; reflexivity.
  - apply extends_effects.
    repeat (eapply extends_trans; [eassumption|]). apply extends_refl.
Qed.
End DeleteByBox.

(** *** Stopping at the first error *)

Section StopsAtFirstError.
Import GoStrings Sqlite Store StoreVocabulary Deletion RunVocabulary.
Context (env : Env).

(** [tx.Exec] returns, with the statement as its one effect. *)
Lemma tx_Exec_outcome (t : Tx) (s : Stmt) (args : list Value) (w : World) :
  exists err w',
    tx_Exec env t s args w = (Ret err, w')
    /\ trace w' = trace w ++ [EExec s args err].
Proof.
  unfold tx_Exec, bind, next_result.
  destruct (io_results w) as [|[msg|] rest].
  - destruct (live t w) eqn:Hlive.
    + unfold apply_stmt. destruct (exec s args (data w)); eexists _, _; split; reflexivity.
    + eexists _, _; split; reflexivity.
  - eexists _, _; split; reflexivity.
  - cbv beta iota.
    change (live t (set_io_results rest w)) with (live t w).
    destruct (live t w) eqn:Hlive.
    + unfold apply_stmt. change (data (set_io_results rest w)) with (data w).
      destruct (exec s args (data w)); eexists _, _; split; reflexivity.
    + eexists _, _; split; reflexivity.
Qed.

Lemma os_RemoveAll_extends (path : string) (w : World) :
  exists err w', os_RemoveAll env path w = (Ret err, w') /\ extends unannounced w w'.
Proof.
  unfold os_RemoveAll, bind, next_result.
  destruct (io_results w) as [|[msg|] rest]; eexists _, _; (split; [reflexivity|]);
    (eapply extends_one;
     [cbn [trace log]; try (destruct (under path (DBPath env))); reflexivity|exact I]).
Qed.

Lemma removeDatabaseFile_extends (w : World) :
  exists err w', removeDatabaseFile env w = (Ret err, w') /\ extends unannounced w w'.
Proof.
  unfold removeDatabaseFile, and_then.
  destruct (os_RemoveAll_extends (DBPath env) w) as (e1 & w1 & Hrun1 & Hext1).
  rewrite (bind_Ret _ _ _ _ _ Hrun1).
  destruct e1 as [msg|]; [eexists _, _; split; [reflexivity|exact Hext1]|].
  destruct (os_RemoveAll_extends (DBPath env +:+ "-shm") w1) as (e2 & w2 & Hrun2 & Hext2).
  rewrite (bind_Ret _ _ _ _ _ Hrun2).
  assert (Hext12 : extends unannounced w w2) by (eapply extends_trans; eassumption).
  destruct e2 as [msg|]; [eexists _, _; split; [reflexivity|exact Hext12]|].
  destruct (os_RemoveAll_extends (DBPath env +:+ "-wal") w2) as (e3 & w3 & Hrun3 & Hext3).
  rewrite (bind_Ret _ _ _ _ _ Hrun3).
  assert (Hext13 : extends unannounced w w3) by (eapply extends_trans; eassumption).
  destruct e3 as [msg|]; eexists _, _; (split; [reflexivity|exact Hext13]).
Qed.

Lemma tx_Rollback_extends (t : Tx) (w : World) :
  exists w', tx_Rollback t w = (Ret tt, w') /\ extends unannounced w w'.
Proof.
  unfold tx_Rollback. destruct (tx w) as [[t' d0]|].
  - destruct (bool_decide (tx_id t' = tx_id t)); eexists; (split; [reflexivity|]).
    + apply (extends_log unannounced (set_tx None (set_data d0 w)) ERollback). exact I.
    + apply extends_refl.
  - eexists. split; [reflexivity|apply extends_refl].
Qed.

Lemma closeDatabase_extends (w : World) :
  exists w', closeDatabase w = (Ret None, w') /\ extends unannounced w w'.
Proof.
  unfold closeDatabase. destruct (db w); eexists; (split; [reflexivity|]);
    first [apply extends_refl | apply (extends_log unannounced (set_db ClosedDB w) EClose); exact I].
Qed.

(** [execStmtTx] on its own. *)
Lemma execStmtTx_stops (t : Tx) (s : Stmt) (args : list Value) :
  stops_at_first_error env [] (execStmtTx env t s args).
Proof.
  intros w. unfold execStmtTx.
  destruct (tx_Exec_outcome t s args w) as (err & w1 & Hrun1 & Htrace1).
  rewrite (bind_Ret _ _ _ _ _ Hrun1).
  destruct err as [msg|].
  - destruct (Contains msg malformed) eqn:Hmsg.
    + destruct (tx_Rollback_extends t w1) as (w2 & Hrun2 & Hext2).
      destruct (closeDatabase_extends w2) as (w3 & Hrun3 & Hext3).
      destruct (removeDatabaseFile_extends w3) as (e4 & w4 & Hrun4 & Hext4).
      assert (Hrun : bind (bind (tx_Rollback t)
                             (fun _ => bind closeDatabase
                                         (fun _ => bind (removeDatabaseFile env)
                                                     (fun _ => LogFatalf (ExitCodeReadOnlyDatabase env)))))
                          (fun _ : unit => ret (Some msg)) w1
                     = (Exit (ExitCodeReadOnlyDatabase env),
                        log (EExit (ExitCodeReadOnlyDatabase env)) w4)).
      { erewrite bind_Exit; [reflexivity|].
        rewrite (bind_Ret _ _ _ _ _ Hrun2), (bind_Ret _ _ _ _ _ Hrun3),
          (bind_Ret _ _ _ _ _ Hrun4). reflexivity. }
      rewrite Hrun. split; [reflexivity|].
      assert (Hext : extends unannounced w1 (log (EExit (ExitCodeReadOnlyDatabase env)) w4)).
      { eapply extends_trans; [exact Hext2|]. eapply extends_trans; [exact Hext3|].
        eapply extends_trans; [exact Hext4|]. apply extends_log. exact I. }
      destruct Hext as (rest & Htrace & Hrest).
      exists [], s, args, msg, rest. rewrite Htrace, Htrace1, <- app_assoc.
      split; [reflexivity|]. split; [constructor|]. split; [exact Hmsg|exact Hrest].
    + cbn [bind ret]. exists [], s, args. split; [exact Htrace1|constructor].
  - cbn [ret]. exists [EExec s args None]. rewrite app_nil_r.
    split; [exact Htrace1|]. repeat constructor.
Qed.

(** [if err = m; err != nil { return }] and then [k]. *)
Lemma stops_and_then (finish : list Effect) (m k : M (option string)) :
  stops_at_first_error env [] m -> stops_at_first_error env finish k ->
  stops_at_first_error env finish (and_then m k).
Proof.
  intros Hm Hk w. specialize (Hm w). unfold and_then, bind.
  destruct (m w) as [[[msg|]|code|] w1].
  - exact Hm.
  - destruct Hm as (stmts1 & Htrace1 & Hstmts1). rewrite app_nil_r in Htrace1.
    specialize (Hk w1). destruct (k w1) as [[[msg|]|code|] w2].
    + destruct Hk as (stmts2 & s & args & Htrace2 & Hstmts2).
      exists (stmts1 ++ stmts2), s, args.
      rewrite Htrace2, Htrace1, <- !app_assoc.
      split; [reflexivity|apply Forall_app; auto].
    + destruct Hk as (stmts2 & Htrace2 & Hstmts2).
      exists (stmts1 ++ stmts2).
      rewrite Htrace2, Htrace1, <- !app_assoc.
      split; [reflexivity|apply Forall_app; auto].
    + destruct Hk as (Hcode & stmts2 & s & args & msg & rest & Htrace2 & Hstmts2 & Hmsg & Hrest).
      split; [exact Hcode|].
      exists (stmts1 ++ stmts2), s, args, msg, rest.
      rewrite Htrace2, Htrace1, <- !app_assoc.
      split; [reflexivity|]. split; [apply Forall_app; auto|]. auto.
    + exact Hk.
  - exact Hm.
  - exact Hm.
Qed.

(** A statement that runs only when the case-sensitive mode is off. *)
Lemma stops_unless_caseSensitive (m : M (option string)) :
  stops_at_first_error env [] m ->
  stops_at_first_error env []
    (fun w => if negb (caseSensitive w) then m w else ret None w).
Proof.
  intros Hm w. cbv beta. destruct (negb (caseSensitive w)); [apply Hm|].
  cbn [ret]. exists []. rewrite !app_nil_r. split; [reflexivity|constructor].
Qed.

(** The cache is cleared and the event published. *)
Lemma stops_announce (topic : string) (payload : list string) :
  stops_at_first_error env [EClearCache; EPublish topic payload]
    (bind ClearCache (fun _ => bind (Publish topic payload) (fun _ => ret None))).
Proof.
  intros w. cbn. exists []. cbn. rewrite <- app_assoc. split; [reflexivity|constructor].
Qed.

(** X2.  [deleteByRootID], [batchUpdatePath] and [batchUpdateHPath]
    stop at the first statement that fails, whatever the world they run
    in.  When every statement succeeds, the effects are the statements,
    then the clearing of the cache, then the one event.  When a statement
    fails, it is the last effect, its error is what the function returns,
    and neither is the cache cleared nor an event published; when the
    error tells of a malformed disk image, the process ends with the exit
    code for a read-only database instead.  None of the three panics. *)
Theorem mutations_stop_at_first_error (t : Tx) (rootID : string) (tree : Ast.Tree)
    (context : gmap string string) :
  stops_at_first_error env
    [EClearCache; EPublish (EvtSQLDeleteBlocks env) [rootID]]
    (deleteByRootID env t rootID context)
  /\ stops_at_first_error env
       [EClearCache;
        EPublish (EvtSQLUpdateBlocksHPaths env) ["1"; evtHash env (Ast.TreeID tree)]]
       (batchUpdatePath env t tree context)
  /\ stops_at_first_error env
       [EClearCache;
        EPublish (EvtSQLUpdateBlocksHPaths env) ["1"; evtHash env (Ast.TreeID tree)]]
       (batchUpdateHPath env t tree context).
Proof.
  split; [|split].
  - unfold deleteByRootID.
    repeat first [ apply stops_announce
                 | apply stops_and_then
                 | apply execStmtTx_stops
                 | apply (stops_unless_caseSensitive (execStmtTx env t _ _)) ].
  - unfold batchUpdatePath. cbv zeta.
    repeat first [ apply stops_announce
                 | apply stops_and_then
                 | apply execStmtTx_stops
                 | apply (stops_unless_caseSensitive (execStmtTx env t _ _)) ].
  - unfold batchUpdateHPath. cbv zeta.
    repeat first [ apply stops_announce
                 | apply stops_and_then
                 | apply execStmtTx_stops
                 | apply (stops_unless_caseSensitive (execStmtTx env t _ _)) ].
Qed.
End StopsAtFirstError.

(** *** Removing the files *)

Section RemovalStops.
Import GoStrings Sqlite Store StoreVocabulary RunVocabulary.
Context (env : Env).

Lemma and_then_err (m k : M (option string)) (w w' : World) (msg : string) :
  m w = (Ret (Some msg), w') -> and_then m k w = (Ret (Some msg), w').
Proof. intros Hm. unfold and_then. rewrite (bind_Ret _ _ _ _ _ Hm). reflexivity. Qed.

Lemma os_RemoveAll_failed (path msg : string) (rest : list (option string)) (w : World) :
  io_results w = Some msg :: rest ->
  os_RemoveAll env path w
  = (Ret (Some msg), log (ERemoveAll path (Some msg)) (set_io_results rest w)).
Proof.
  intros Hio. unfold os_RemoveAll.
  rewrite (bind_Ret _ _ _ _ _ (next_result_cons _ _ _ Hio)). reflexivity.
Qed.

Lemma os_RemoveAll_succeeded (path : string) (rest : list (option string)) (w : World) :
  io_results w = None :: rest ->
  os_RemoveAll env path w = (Ret None, removed env path w)
  /\ io_results (removed env path w) = rest.
Proof.
  intros Hio.
  destruct (os_RemoveAll_ok env 0 path w) as [Hrun _].
  { unfold faultless_for. rewrite Hio. repeat constructor. }
  split; [exact Hrun|].
  destruct (removed_fields env path w) as (_ & _ & _ & Hrest & _).
  rewrite Hrest, Hio. reflexivity.
Qed.

(** X3.  [removeDatabaseFile] stops at the first removal that fails:
    when the first [k] removals succeed and the next one fails, the
    error of that one is returned, the first [k] of the three files
    (the database file, its -shm file, its -wal file) are gone with
    everything below them, every other path is still on disk, and no
    further removal is tried. *)
Theorem removeDatabaseFile_stops_at_first_failure
    (w : World) (k : nat) (msg : string) (rest : list (option string)) :
  (k < 3)%nat ->
  io_results w = replicate k None ++ Some msg :: rest ->
  exists w',
    removeDatabaseFile env w = (Ret (Some msg), w')
    /\ io_results w' = rest
    /\ effects w w'
       = ((fun p => ERemoveAll p None) <$> take k (store_files env))
         ++ [ERemoveAll (nth k (store_files env) "") (Some msg)]
    /\ (forall p, p ∈ disk w'
                  <-> p ∈ disk w
                      /\ Forall (fun f => under f p = false) (take k (store_files env)))
    /\ db w' = db w /\ tx w' = tx w.
Proof.
  intros Hk Hio. unfold removeDatabaseFile.
  destruct k as [|[|[|k]]]; [| | |lia]; cbn [replicate app] in Hio.
  - rewrite (and_then_err _ _ _ _ _ (os_RemoveAll_failed _ _ _ _ Hio)).
    eexists. split; [reflexivity|]. cbn [io_results log set_io_results disk db tx].
    split; [reflexivity|]. split; [apply effects_app; reflexivity|].
    split; [|split; reflexivity].
    intros p. cbn [take]. split; [intros Hp; split; [exact Hp|constructor]|tauto].
  - destruct (os_RemoveAll_succeeded (DBPath env) _ w Hio) as [Hrun1 Hio1].
    rewrite (and_then_ok _ _ _ _ Hrun1).
    rewrite (and_then_err _ _ _ _ _ (os_RemoveAll_failed _ _ _ _ Hio1)).
    destruct (removed_fields env (DBPath env) w) as (Hdb1 & Htx1 & _ & _ & Htrace1).
    eexists. split; [reflexivity|]. cbn [io_results log set_io_results disk db tx].
    split; [reflexivity|].
    split; [apply effects_app; cbn [trace log set_io_results];
            rewrite Htrace1, <- app_assoc; reflexivity|].
    split; [|split; assumption].
    intros p. rewrite disk_removed. cbn [take store_files].
    rewrite Forall_cons, Forall_nil. tauto.
  - destruct (os_RemoveAll_succeeded (DBPath env) _ w Hio) as [Hrun1 Hio1].
    rewrite (and_then_ok _ _ _ _ Hrun1).
    destruct (os_RemoveAll_succeeded (DBPath env +:+ "-shm") _ _ Hio1) as [Hrun2 Hio2].
    rewrite (and_then_ok _ _ _ _ Hrun2).
    rewrite (and_then_err _ _ _ _ _ (os_RemoveAll_failed _ _ _ _ Hio2)).
    destruct (removed_fields env (DBPath env) w) as (Hdb1 & Htx1 & _ & _ & Htrace1).
    destruct (removed_fields env (DBPath env +:+ "-shm") (removed env (DBPath env) w))
      as (Hdb2 & Htx2 & _ & _ & Htrace2).
    eexists. split; [reflexivity|]. cbn [io_results log set_io_results disk db tx].
    split; [reflexivity|].
    split; [apply effects_app; cbn [trace log set_io_results];
            rewrite Htrace2, Htrace1, <- !app_assoc; reflexivity|].
    split; [|split; congruence].
    intros p. rewrite !disk_removed. cbn [take store_files].
    rewrite !Forall_cons, Forall_nil. tauto.
Qed.
End RemovalStops.

(** *** How [InitDatabase] ends *)

Section InitDatabaseEnds.
Import GoStrings Sqlite Store StoreVocabulary RunVocabulary.
Context (env : Env).

Lemma ends_extends {A} (Q : A -> World -> Prop) (w w1 : World) (r : Result A * World) :
  extends cache_left_off w w1 -> ends env cache_left_off Q w1 r -> ends env cache_left_off Q w r.
Proof.
  intros Hext. destruct r as [[a|code|] w']; simpl; [| |tauto].
  - intros [HQ Hext1]. split; [exact HQ|eapply extends_trans; eassumption].
  - intros (Hcode & evs & Htrace & Hevs). split; [exact Hcode|].
    destruct Hext as (evs0 & Htrace0 & Hevs0).
    exists (evs0 ++ evs). rewrite Htrace, Htrace0, <- !app_assoc.
    split; [reflexivity|apply Forall_app; auto].
Qed.

Lemma ends_bind {A B} (Q : A -> World -> Prop) (R : B -> World -> Prop)
    (m : M A) (k : A -> M B) (w : World) :
  ends env cache_left_off Q w (m w) ->
  (forall a w1, Q a w1 -> ends env cache_left_off R w1 (k a w1)) ->
  ends env cache_left_off R w (bind m k w).
Proof.
  intros Hm Hk. unfold bind. destruct (m w) as [[a|code|] w1]; simpl in Hm.
  - destruct Hm as [HQ Hext]. eapply ends_extends; [exact Hext|]. apply Hk. exact HQ.
  - exact Hm.
  - contradiction.
Qed.

Lemma ends_weaken {A} (Q Q' : A -> World -> Prop) (w : World) (r : Result A * World) :
  (forall a w', Q a w' -> Q' a w') -> ends env cache_left_off Q w r -> ends env cache_left_off Q' w r.
Proof.
  intros HQ. destruct r as [[a|code|] w']; simpl; [|tauto|tauto].
  intros [Ha Hext]. split; [apply HQ; exact Ha|exact Hext].
Qed.

Lemma ends_emit (e : Effect) (w : World) :
  cache_left_off e -> ends env cache_left_off (fun _ w' => db w' = db w /\ disk w' = disk w) w (emit e w).
Proof. intros He. simpl. split; [split; reflexivity|]. apply extends_log. exact He. Qed.

Lemma ends_LogFatalf {A} (Q : A -> World -> Prop) (w : World) :
  ends env cache_left_off Q w (LogFatalf (ExitCodeReadOnlyDatabase env) w).
Proof. simpl. split; [reflexivity|]. exists []. split; [reflexivity|constructor]. Qed.

Lemma next_result_same (w : World) :
  exists r w', next_result w = (Ret r, w') /\ db w' = db w /\ trace w' = trace w
               /\ data w' = data w /\ disk w' = disk w /\ tx w' = tx w.
Proof.
  unfold next_result. destruct (io_results w); eexists _, _; repeat split.
Qed.

Lemma ends_closeDatabase (w : World) :
  ends env cache_left_off (fun _ w' => True) w (closeDatabase w).
Proof.
  unfold closeDatabase. destruct (db w); simpl; (split; [exact I|]);
    first [apply extends_refl | apply (extends_log cache_left_off (set_db ClosedDB w) EClose); discriminate].
Qed.

Lemma ends_initDBConnection (w : World) :
  ends env cache_left_off (fun _ w' => db w' = OpenDB) w (initDBConnection env w).
Proof.
  unfold initDBConnection.
  apply (ends_bind (fun _ _ => True)).
  { destruct (db w) eqn:Hdb; [simpl; split; [exact I|apply extends_refl]| |];
      (apply (ends_bind (fun _ _ => True)); [apply ends_closeDatabase|]);
      intros; simpl; (split; [exact I|apply extends_refl]). }
  intros _ w1 _. cbv zeta. unfold sql_Open, bind, next_result.
  destruct (io_results w1) as [|[msg|] rest]; cbn.
  - split; [reflexivity|]. apply (extends_log cache_left_off (set_db OpenDB w1)). discriminate.
  - split; [reflexivity|]. exists []. split; [reflexivity|constructor].
  - split; [reflexivity|].
    apply (extends_log cache_left_off (set_db OpenDB (set_io_results rest w1))). discriminate.
Qed.

Lemma ends_db_Exec (s : Stmt) (args : list Value) (w : World) :
  db w = OpenDB ->
  ends env cache_left_off (fun _ w' => db w' = OpenDB) w (db_Exec env s args w).
Proof.
  intros Hdb. unfold db_Exec. rewrite Hdb.
  destruct (next_result_same w) as (r & w1 & Hnext & Hdb1 & Htrace & _).
  rewrite (bind_Ret _ _ _ _ _ Hnext).
  apply (ends_extends _ w w1); [apply extends_same; exact Htrace|].
  destruct r as [msg|].
  - cbn. split; [congruence|]. apply (extends_log cache_left_off w1). discriminate.
  - unfold apply_stmt. destruct (exec s args (data w1)); cbn.
    + split; [congruence|]. apply (extends_log cache_left_off w1). discriminate.
    + split; [congruence|].
      apply (extends_log cache_left_off (set_disk _ (set_data _ w1))). discriminate.
Qed.

Lemma ends_must_Exec (s : Stmt) (w : World) :
  db w = OpenDB ->
  ends env cache_left_off (fun _ w' => db w' = OpenDB) w (must_Exec env s w).
Proof.
  intros Hdb. unfold must_Exec.
  apply (ends_bind (fun _ w' => db w' = OpenDB)); [apply ends_db_Exec; exact Hdb|].
  intros [msg|] w1 Hdb1; [apply ends_LogFatalf|].
  simpl. split; [exact Hdb1|apply extends_refl].
Qed.

Lemma ends_must_seq {A} (R : A -> World -> Prop) (stmts : list Stmt) (k : M A) :
  (forall w, db w = OpenDB -> ends env cache_left_off R w (k w)) ->
  forall w, db w = OpenDB -> ends env cache_left_off R w (must_seq env stmts k w).
Proof.
  intros Hk. induction stmts as [|s stmts IH]; intros w Hdb; [apply Hk; exact Hdb|].
  simpl. apply (ends_bind (fun _ w' => db w' = OpenDB)); [apply ends_must_Exec; exact Hdb|].
  intros _ w1 Hdb1. apply IH. exact Hdb1.
Qed.

Lemma ends_initDBTables (w : World) :
  db w = OpenDB ->
  ends env cache_left_off (fun _ w' => db w' = OpenDB) w (initDBTables env w).
Proof.
  rewrite initDBTables_script. revert w. apply ends_must_seq. intros w Hdb.
  apply (ends_bind (fun _ w' => db w' = OpenDB)).
  { unfold setDatabaseVer.
    apply (ends_bind (fun _ w' => db w' = OpenDB)); [apply ends_db_Exec; exact Hdb|].
    intros _ w1 Hdb1. simpl. split; [exact Hdb1|apply extends_refl]. }
  intros _ w1 Hdb1. revert w1 Hdb1. apply ends_must_seq. intros w1 Hdb1.
  apply ends_must_Exec. exact Hdb1.
Qed.

Lemma ends_os_RemoveAll (path : string) (w : World) :
  ends env cache_left_off (fun _ _ => True) w (os_RemoveAll env path w).
Proof.
  unfold os_RemoveAll.
  destruct (next_result_same w) as (r & w1 & Hnext & _ & Htrace & _).
  rewrite (bind_Ret _ _ _ _ _ Hnext).
  apply (ends_extends _ w w1); [apply extends_same; exact Htrace|].
  destruct r as [msg|]; cbn; (split; [exact I|]).
  - apply (extends_log cache_left_off w1). discriminate.
  - eapply extends_one;
      [cbn [trace log]; destruct (under path (DBPath env)); reflexivity|discriminate].
Qed.

Lemma ends_removeDatabaseFile (w : World) :
  ends env cache_left_off (fun _ _ => True) w (removeDatabaseFile env w).
Proof.
  unfold removeDatabaseFile, and_then.
  repeat (apply (ends_bind (fun _ _ => True)); [apply ends_os_RemoveAll|];
          intros [msg|] ? _; [simpl; split; [exact I|apply extends_refl]|]).
  simpl. split; [exact I|apply extends_refl].
Qed.

Lemma ends_getDatabaseVer (w : World) :
  db w = OpenDB ->
  ends env cache_left_off (fun _ w' => db w' = OpenDB) w (getDatabaseVer env w).
Proof.
  intros Hdb. unfold getDatabaseVer.
  destruct (next_result_same w) as (r & w1 & Hnext & Hdb1 & Htrace & _).
  rewrite (bind_Ret _ _ _ _ _ Hnext).
  destruct r as [msg|]; simpl; (split; [congruence|apply extends_same; exact Htrace]).
Qed.

(** X4.  Whatever the state of the store and whatever the driver and
    the file system answer, [InitDatabase] does not panic and returns no
    error.  Either it returns [nil] with the store open, and the cache is
    enabled again as its last effect and not before; or it ends the
    process with the exit code for a read-only database, the exit being
    its last effect, and the cache has not been enabled again. *)
Theorem InitDatabase_returns_nil_or_exits (w : World) (forceRebuild : bool) :
  match InitDatabase env forceRebuild w with
  | (Ret err, w') =>
      err = None /\ db w' = OpenDB
      /\ exists evs, effects w w' = evs ++ [ECacheEnabled true] /\ Forall cache_left_off evs
  | (Exit code, w') =>
      code = ExitCodeReadOnlyDatabase env
      /\ exists evs, effects w w' = evs ++ [EExit code] /\ Forall cache_left_off evs
  | (Panic, _) => False
  end.
Proof.
  unfold InitDatabase, ClearCache, disableCache, enableCache.
  rewrite bind_emit. cbv beta. rewrite bind_emit. cbv beta.
  set (wc := log (ECacheEnabled false) (log EClearCache w)).
  assert (Hext2 : extends cache_left_off w wc).
  { exists [EClearCache; ECacheEnabled false]. split.
    - unfold wc. cbn [trace log]. rewrite <- app_assoc. reflexivity.
    - repeat constructor; discriminate. }
  match goal with
  | |- context [bind ?body (fun err => bind (emit (ECacheEnabled true)) _)] =>
      assert (Hbody : ends env cache_left_off (fun err w' => err = None /\ db w' = OpenDB)
                        wc (body wc));
        [|apply (ends_extends _ w wc _ Hext2) in Hbody; unfold bind at 1;
          destruct (body wc) as [[err|code|] w3]]
  end.
  { clear Hext2. generalize wc. clear wc. intros w0.
    apply (ends_bind (fun _ _ => True)).
    { simpl. split; [exact I|apply extends_log; discriminate]. }
    intros _ w1 _.
    apply (ends_bind (fun _ _ => True)).
    { destruct forceRebuild; simpl; (split; [exact I|]);
        [apply extends_log; discriminate|apply extends_refl]. }
    intros _ w2 _.
    apply (ends_bind (fun _ w' => db w' = OpenDB)); [apply ends_initDBConnection|].
    intros _ w3 Hdb3.
    apply (ends_bind (fun _ w' => db w' = OpenDB)).
    { simpl. split; [exact Hdb3|apply extends_log; discriminate]. }
    intros _ w4 Hdb4.
    apply (ends_bind (fun _ w' => db w' = OpenDB)).
    { destruct forceRebuild; cbn [negb].
      - simpl. split; [exact Hdb4|apply extends_refl].
      - apply (ends_bind (fun _ w' => db w' = OpenDB)); [apply ends_getDatabaseVer; exact Hdb4|].
        intros ver w5 Hdb5. simpl. split; [exact Hdb5|apply extends_refl]. }
    intros [|] w5 Hdb5.
    { simpl. split; [split; [reflexivity|exact Hdb5]|apply extends_refl]. }
    apply (ends_bind (fun _ _ => True)); [apply ends_closeDatabase|].
    intros _ w6 _.
    apply (ends_bind (fun _ _ => True)).
    { simpl. split; [exact I|apply extends_refl]. }
    intros exists_ w7 _.
    apply (ends_bind (fun _ _ => True)).
    { destruct exists_; [|simpl; split; [exact I|apply extends_refl]].
      apply (ends_bind (fun _ _ => True)); [apply ends_removeDatabaseFile|].
      intros [msg|] w8 _; simpl; (split; [exact I|]);
        [apply extends_log; discriminate|apply extends_refl]. }
    intros _ w8 _.
    apply (ends_bind (fun _ w' => db w' = OpenDB)); [apply ends_initDBConnection|].
    intros _ w9 Hdb9.
    apply (ends_bind (fun _ w' => db w' = OpenDB)); [apply ends_initDBTables; exact Hdb9|].
    intros _ w10 Hdb10. simpl. split; [split; [reflexivity|exact Hdb10]|apply extends_refl]. }
  all: simpl in Hbody.
  - destruct Hbody as [[-> Hdb] (evs & Htrace & Hevs)].
    rewrite bind_emit. cbn [ret log db].
    split; [reflexivity|]. split; [exact Hdb|].
    exists evs. split; [|exact Hevs].
    apply effects_app. cbn [trace log]. rewrite Htrace, <- app_assoc. reflexivity.
  - destruct Hbody as (Hcode & evs & Htrace & Hevs).
    split; [exact Hcode|]. exists evs. split; [|exact Hevs].
    apply effects_app. exact Htrace.
  - contradiction.
Qed.
End InitDatabaseEnds.

(** *** Renaming the display path of a root *)

Section RenameHPath.
Import GoStrings Sqlite Store StoreVocabulary Deletion RunVocabulary.
Context (env : Env).

Lemma with_hpath_rows (tree : Ast.Tree) (rs : list Row) :
  List.map
    (fun r =>
       if matches (zip ["root_id"] [VText (Ast.TreeID tree)]) r
       then assign (zip ["hpath"] [VText (Ast.HPath tree)]) r
       else r) rs
  = with_hpath tree <$> rs.
Proof.
  apply (list_fmap_ext _ (with_hpath tree) rs). intros _ r _.
  unfold with_hpath, under_root, matches. cbn [zip zip_with forallb fst snd].
  rewrite andb_true_r.
  destruct (decide (r !! "root_id" = Some (VText (Ast.TreeID tree)))) as [Heq|Hne].
  - rewrite bool_decide_eq_true_2 by exact Heq. reflexivity.
  - rewrite bool_decide_eq_false_2 by exact Hne. reflexivity.
Qed.

Lemma exec_update_hpath (d : Database) (tbl : string) (tree : Ast.Tree) :
  table_with d tbl ["hpath"; "root_id"] ->
  exec (UPDATE_SET_WHERE tbl ["hpath"] ["root_id"])
       [VText (Ast.HPath tree); VText (Ast.TreeID tree)] d
  = inr (map_rows tbl (with_hpath tree) d).
Proof.
  intros (T & HT & Hcols). unfold exec, map_rows. rewrite HT.
  rewrite (has_columns_true T (["hpath"] ++ ["root_id"])) by exact Hcols.
  rewrite bool_decide_eq_true_2 by reflexivity.
  cbn [negb]. rewrite <- with_hpath_rows. reflexivity.
Qed.

Lemma table_with_map_rows (d : Database) (tbl tbl' : string) (f : Row -> Row)
    (cols : list string) :
  table_with d tbl' cols -> table_with (map_rows tbl f d) tbl' cols.
Proof.
  intros (T & HT & Hcols). unfold map_rows.
  destruct (tables d !! tbl) as [T0|] eqn:HT0; [|exists T; auto].
  destruct (decide (tbl = tbl')) as [->|Hne].
  - rewrite HT in HT0. inversion HT0; subst T0.
    exists (with_rows T (f <$> rows T)).
    split; [apply lookup_insert_eq|exact Hcols].
  - exists T. split; [|exact Hcols].
    rewrite tables_put_table, lookup_insert_ne by exact Hne. exact HT.
Qed.

Lemma rows_of_map_rows_eq (d : Database) (tbl : string) (f : Row -> Row) :
  rows_of (map_rows tbl f d) tbl = f <$> rows_of d tbl.
Proof.
  unfold rows_of, map_rows. destruct (tables d !! tbl) as [T|] eqn:HT.
  - rewrite tables_put_table, lookup_insert_eq. reflexivity.
  - rewrite HT. reflexivity.
Qed.

Lemma tables_map_rows_ne (d : Database) (tbl tbl' : string) (f : Row -> Row) :
  tbl <> tbl' -> tables (map_rows tbl f d) !! tbl' = tables d !! tbl'.
Proof.
  intros Hne. unfold map_rows. destruct (tables d !! tbl) as [T|]; [|reflexivity].
  rewrite tables_put_table, lookup_insert_ne by exact Hne. reflexivity.
Qed.

Lemma rows_of_map_rows_ne (d : Database) (tbl tbl' : string) (f : Row -> Row) :
  tbl <> tbl' -> rows_of (map_rows tbl f d) tbl' = rows_of d tbl'.
Proof.
  intros Hne. unfold rows_of. rewrite tables_map_rows_ne by exact Hne. reflexivity.
Qed.

(** One [UPDATE tbl SET hpath = ? WHERE root_id = ?] of
    [batchUpdateHPath]. *)
Lemma update_hpath_step (t : Tx) (tree : Ast.Tree) (tbl : string) (w : World) :
  faultless w -> live t w = true ->
  table_with (data w) tbl ["hpath"; "root_id"] ->
  exists w',
    execStmtTx env t (UPDATE_SET_WHERE tbl ["hpath"] ["root_id"])
               [VText (Ast.HPath tree); VText (Ast.TreeID tree)] w = (Ret None, w')
    /\ faultless w' /\ live t w' = true
    /\ caseSensitive w' = caseSensitive w
    /\ data w' = map_rows tbl (with_hpath tree) (data w).
Proof.
  intros Hio Hlive Htbl.
  destruct (execStmtTx_done env t _ _ w _ Hio Hlive (exec_update_hpath _ _ tree Htbl))
    as (w' & Hrun & Hio' & Hlive' & Hcs & Hdata & _).
  exists w'. auto.
Qed.

Lemma with_hpath_other_column (tree : Ast.Tree) (r : Row) (c : string) :
  c <> "hpath" -> with_hpath tree r !! c = r !! c.
Proof.
  intros Hc. unfold with_hpath. destruct (decide _); [|reflexivity].
  rewrite lookup_insert_ne by congruence. reflexivity.
Qed.

Lemma with_hpath_renamed (tree : Ast.Tree) (r : Row) :
  with_hpath tree (renamed tree r) = renamed tree r.
Proof.
  unfold with_hpath, renamed, under_root.
  destruct (decide (r !! "root_id" = Some (VText (Ast.TreeID tree)))) as [Hr|Hr].
  - rewrite decide_True by (rewrite !lookup_insert_ne by discriminate; exact Hr).
    apply insert_insert_eq.
  - rewrite decide_False by exact Hr. reflexivity.
Qed.

(** X5.  In a live transaction of a faultless world, [batchUpdateHPath]
    returns no error and gives, in blocks and in blocks_fts, every row
    under the tree's root the tree's display path;
    blocks_fts_case_insensitive is treated alike when the case-sensitive
    mode is off and left as it is when the mode is on.  No column but
    hpath changes, a row under another root and every other table are
    untouched, and a row that [batchUpdatePath] has renamed for the same
    tree is left as it is. *)
Theorem batchUpdateHPath_sets_hpath_only
    (w : World) (t : Tx) (tree : Ast.Tree) (context : gmap string string) :
  faultless w ->
  live t w = true ->
  Forall (fun tbl => table_with (data w) tbl ["hpath"; "root_id"]) block_tables ->
  exists w',
    batchUpdateHPath env t tree context w = (Ret None, w')
    /\ rows_of (data w') "blocks" = with_hpath tree <$> rows_of (data w) "blocks"
    /\ rows_of (data w') "blocks_fts" = with_hpath tree <$> rows_of (data w) "blocks_fts"
    /\ rows_of (data w') "blocks_fts_case_insensitive"
       = (if caseSensitive w
          then rows_of (data w) "blocks_fts_case_insensitive"
          else with_hpath tree <$> rows_of (data w) "blocks_fts_case_insensitive")
    /\ (forall tbl, tbl ∉ block_tables -> tables (data w') !! tbl = tables (data w) !! tbl)
    /\ (forall r c, c <> "hpath" -> with_hpath tree r !! c = r !! c)
    /\ (forall r, ~ under_root (Ast.TreeID tree) r -> with_hpath tree r = r)
    /\ (forall r, under_root (Ast.TreeID tree) r ->
                  with_hpath tree r !! "hpath" = Some (VText (Ast.HPath tree)))
    /\ (forall r, with_hpath tree (renamed tree r) = renamed tree r).
Proof.
  intros Hio Hlive Hschema. unfold block_tables in Hschema.
  apply Forall_cons in Hschema as [Hb Hschema].
  apply Forall_cons in Hschema as [Hf Hschema].
  apply Forall_cons in Hschema as [Hi _].
  unfold batchUpdateHPath. cbv zeta.
  destruct (update_hpath_step t tree "blocks" w Hio Hlive Hb)
    as (w1 & Hrun1 & Hio1 & Hlive1 & Hcs1 & Hdata1).
  rewrite (and_then_ok _ _ _ _ Hrun1).
  destruct (update_hpath_step t tree "blocks_fts" w1 Hio1 Hlive1)
    as (w2 & Hrun2 & Hio2 & Hlive2 & Hcs2 & Hdata2).
  { rewrite Hdata1. apply table_with_map_rows. exact Hf. }
  rewrite (and_then_ok _ _ _ _ Hrun2). rewrite Hdata1 in Hdata2.
  assert (Hmode : caseSensitive w2 = caseSensitive w) by congruence.
  assert (Hstep3 : exists w3,
             (fun w0 =>
                if negb (caseSensitive w0)
                then execStmtTx env t
                       (UPDATE_SET_WHERE "blocks_fts_case_insensitive" ["hpath"] ["root_id"])
                       [VText (Ast.HPath tree); VText (Ast.TreeID tree)] w0
                else ret None w0) w2 = (Ret None, w3)
             /\ data w3
                = (if caseSensitive w then data w2
                   else map_rows "blocks_fts_case_insensitive" (with_hpath tree) (data w2))).
  { cbv beta. rewrite Hmode. destruct (caseSensitive w); cbn [negb].
    - exists w2. auto.
    - destruct (update_hpath_step t tree "blocks_fts_case_insensitive" w2 Hio2 Hlive2)
        as (w3 & Hrun3 & _ & _ & _ & Hdata3).
      { rewrite Hdata2. do 2 apply table_with_map_rows. exact Hi. }
      exists w3. auto. }
  destruct Hstep3 as (w3 & Hrun3 & Hdata3).
  rewrite (and_then_ok _ _ _ _ Hrun3).
  eexists. split; [reflexivity|].
  cbn [data log]. rewrite Hdata3, Hdata2.
  split; [|split; [|split; [|split]]].
  - destruct (caseSensitive w);
      rewrite ?rows_of_map_rows_ne by discriminate; apply rows_of_map_rows_eq.
  - destruct (caseSensitive w);
      rewrite ?rows_of_map_rows_ne by discriminate;
      rewrite rows_of_map_rows_eq, rows_of_map_rows_ne by discriminate; reflexivity.
  - destruct (caseSensitive w).
    + rewrite !rows_of_map_rows_ne by discriminate. reflexivity.
    + rewrite rows_of_map_rows_eq, !rows_of_map_rows_ne by discriminate. reflexivity.
  - intros tbl Htbl. unfold block_tables in Htbl. rewrite !not_elem_of_cons in Htbl.
    destruct Htbl as (H1 & H2 & H3 & _).
    destruct (caseSensitive w); rewrite !tables_map_rows_ne by congruence; reflexivity.
  - split; [apply with_hpath_other_column|].
    split; [|split; [|apply with_hpath_renamed]].
    + intros r Hr. unfold with_hpath. destruct (decide _); [contradiction|reflexivity].
    + intros r Hr. unfold with_hpath. destruct (decide _); [|contradiction].
      apply lookup_insert_eq.
Qed.
End RenameHPath.

(** *** Deleting references; inserting *)

Section DeleteRefs.
Import GoStrings Sqlite Store StoreVocabulary Deletion RunVocabulary.
Context (env : Env).

Lemma elem_of_without_path (box path : string) (rs : list Row) (r : Row) :
  r ∈ without_path box path rs
  <-> r ∈ rs /\ ~ (r !! "box" = Some (VText box) /\ r !! "path" = Some (VText path)).
Proof.
  unfold without_path, rows_without, satisfies. rewrite list_elem_of_filter.
  rewrite !Forall_cons, Forall_nil. cbn [fst snd]. tauto.
Qed.

(** One [DELETE FROM tbl WHERE box = ? AND path = ?]. *)
Lemma delete_path_step (t : Tx) (tbl box path : string) (w : World) :
  faultless w -> live t w = true -> table_with (data w) tbl ["box"; "path"] ->
  exists w',
    execStmtTx env t (DELETE_FROM_WHERE tbl ["box"; "path"]) [VText box; VText path] w
    = (Ret None, w')
    /\ rows_of (data w') tbl = without_path box path (rows_of (data w) tbl)
    /\ (forall tbl', tbl' <> tbl -> tables (data w') !! tbl' = tables (data w) !! tbl').
Proof.
  intros Hio Hlive Htbl.
  destruct (delete_where_step env t tbl ["box"; "path"] [VText box; VText path] w
              Hio Hlive Htbl eq_refl)
    as (w' & Hrun & _ & _ & _ & Hdata & _).
  exists w'. split; [exact Hrun|]. rewrite Hdata. split.
  - apply rows_of_delete_where_eq.
  - intros tbl' Hne. apply tables_delete_where_ne. congruence.
Qed.

(** X6.  In a live transaction of a faultless world, [deleteRefsByPath]
    and [deleteRefsByPathTx] remove from refs the rows that are both in
    the box and at the path, and [deleteFileAnnotationRefsByPath] and
    [deleteFileAnnotationRefsByPathTx] do the same to
    file_annotation_refs; a row that is in the box at another path, or
    at the path in another box, stays, and every other table is
    untouched: the references and the file annotation references of a
    document are deleted by two calls.  [deleteRefsByBoxTx] removes the
    rows of the box from both tables. *)
Theorem refs_are_deleted_by_box_and_path (w : World) (t : Tx) (box path : string) :
  faultless w ->
  live t w = true ->
  table_with (data w) "refs" ["box"; "path"] ->
  table_with (data w) "file_annotation_refs" ["box"; "path"] ->
  (exists w',
      deleteRefsByPath env t box path w = (Ret None, w')
      /\ deleteRefsByPathTx env t box path w = (Ret None, w')
      /\ rows_of (data w') "refs" = without_path box path (rows_of (data w) "refs")
      /\ (forall tbl, tbl <> "refs" -> tables (data w') !! tbl = tables (data w) !! tbl))
  /\ (exists w',
         deleteFileAnnotationRefsByPath env t box path w = (Ret None, w')
         /\ deleteFileAnnotationRefsByPathTx env t box path w = (Ret None, w')
         /\ rows_of (data w') "file_annotation_refs"
            = without_path box path (rows_of (data w) "file_annotation_refs")
         /\ (forall tbl, tbl <> "file_annotation_refs" ->
                         tables (data w') !! tbl = tables (data w) !! tbl))
  /\ (exists w',
         deleteRefsByBoxTx env t box w = (Ret None, w')
         /\ rows_of (data w') "refs" = without_box box (rows_of (data w) "refs")
         /\ rows_of (data w') "file_annotation_refs"
            = without_box box (rows_of (data w) "file_annotation_refs")
         /\ (forall tbl, tbl <> "refs" -> tbl <> "file_annotation_refs" ->
                         tables (data w') !! tbl = tables (data w) !! tbl))
  /\ (forall rs r,
         r ∈ without_path box path rs
         <-> r ∈ rs /\ ~ (r !! "box" = Some (VText box) /\ r !! "path" = Some (VText path))).
Proof.
  intros Hio Hlive Hrefs Hfars.
  split; [|split; [|split; [|apply elem_of_without_path]]].
  - destruct (delete_path_step t "refs" box path w Hio Hlive Hrefs)
      as (w' & Hrun & Hrows & Hkeep).
    exists w'. auto.
  - destruct (delete_path_step t "file_annotation_refs" box path w Hio Hlive Hfars)
      as (w' & Hrun & Hrows & Hkeep).
    exists w'. auto.
  - assert (Hfars' : table_with (data w) "file_annotation_refs" ["box"]).
    { destruct Hfars as (T & HT & Hcols). exists T. split; [exact HT|].
      apply Forall_cons in Hcols as [Hc _]. repeat constructor. exact Hc. }
    assert (Hrefs' : table_with (data w) "refs" ["box"]).
    { destruct Hrefs as (T & HT & Hcols). exists T. split; [exact HT|].
      apply Forall_cons in Hcols as [Hc _]. repeat constructor. exact Hc. }
    unfold deleteRefsByBoxTx, deleteFileAnnotationRefsByBoxTx, deleteBlockRefsByBoxTx.
    destruct (delete_where_step env t "file_annotation_refs" ["box"] [VText box] w
                Hio Hlive Hfars' eq_refl)
      as (w1 & Hrun1 & Hio1 & Hlive1 & _ & Hdata1 & _).
    rewrite (and_then_ok _ _ _ _ Hrun1).
    destruct (delete_where_step env t "refs" ["box"] [VText box] w1 Hio1 Hlive1)
      as (w2 & Hrun2 & _ & _ & _ & Hdata2 & _); [|reflexivity|].
    { rewrite Hdata1. apply table_with_delete_where. exact Hrefs'. }
    exists w2. split; [exact Hrun2|]. rewrite Hdata2, Hdata1. unfold without_box.
    cbn [zip zip_with].
    split; [|split].
    + rewrite rows_of_delete_where_eq, rows_of_delete_where_ne by discriminate. reflexivity.
    + rewrite rows_of_delete_where_ne by discriminate. apply rows_of_delete_where_eq.
    + intros tbl H1 H2. rewrite !tables_delete_where_ne by congruence. reflexivity.
Qed.
End DeleteRefs.

Section Insert.
Import GoStrings Sqlite Store StoreVocabulary Deletion RunVocabulary.
Context (env : Env).

Lemma tx_Prepare_cases (t : Tx) (s : Stmt) (w : World) :
  exists err w',
    tx_Prepare t s w = (Ret err, w')
    /\ trace w' = trace w /\ db w' = db w /\ tx w' = tx w
    /\ caseSensitive w' = caseSensitive w /\ data w' = data w /\ disk w' = disk w.
Proof.
  unfold tx_Prepare, bind, next_result.
  destruct (io_results w) as [|[msg|] rest].
  - destruct (live t w); eexists _, _; repeat split.
  - eexists _, _; repeat split.
  - change (live t (set_io_results rest w)) with (live t w).
    destruct (live t w); eexists _, _; repeat split.
Qed.

Lemma tx_Exec_cases (t : Tx) (s : Stmt) (args : list Value) (w : World) :
  exists err w',
    tx_Exec env t s args w = (Ret err, w')
    /\ trace w' = trace w ++ [EExec s args err]
    /\ db w' = db w /\ tx w' = tx w /\ caseSensitive w' = caseSensitive w
    /\ match err with
       | None =>
           live t w = true /\ exec s args (data w) = inr (data w')
           /\ disk w' = {[DBPath env]} ∪ disk w
       | Some _ => data w' = data w /\ disk w' = disk w
       end.
Proof.
  unfold tx_Exec, bind, next_result.
  destruct (io_results w) as [|[msg|] rest].
  - destruct (live t w) eqn:Hlive.
    + unfold apply_stmt. destruct (exec s args (data w)) eqn:Hexec;
        eexists _, _; (split; [reflexivity|]); cbn; repeat split.
    + eexists _, _; (split; [reflexivity|]); cbn; repeat split.
  - eexists _, _; (split; [reflexivity|]); cbn; repeat split.
  - cbv beta iota. change (live t (set_io_results rest w)) with (live t w).
    destruct (live t w) eqn:Hlive.
    + unfold apply_stmt. change (data (set_io_results rest w)) with (data w).
      destruct (exec s args (data w)) eqn:Hexec;
        eexists _, _; (split; [reflexivity|]); cbn; repeat split.
    + eexists _, _; (split; [reflexivity|]); cbn; repeat split.
Qed.

(** X7.  Whatever the world and whatever the driver answers,
    [prepareExecInsertTx] returns: it never ends the process, not even on
    the error of a malformed disk image that is fatal in [execStmtTx];
    the handle, the transaction and the files other than the database
    file are as before, and at most the statement itself is run.  When
    it returns no error, the transaction is live and the content is what
    the statement makes of the content before; when it returns an
    error, the content and the files are as before. *)
Theorem prepareExecInsertTx_returns_every_error
    (w : World) (t : Tx) (stmtSQL : Stmt) (args : list Value) :
  exists err w',
    prepareExecInsertTx env t stmtSQL args w = (Ret err, w')
    /\ db w' = db w /\ tx w' = tx w /\ caseSensitive w' = caseSensitive w
    /\ (effects w w' = [] \/ effects w w' = [EExec stmtSQL args err])
    /\ match err with
       | None =>
           live t w = true /\ exec stmtSQL args (data w) = inr (data w')
           /\ disk w' = {[DBPath env]} ∪ disk w
       | Some _ => data w' = data w /\ disk w' = disk w
       end.
Proof.
  unfold prepareExecInsertTx.
  destruct (tx_Prepare_cases t stmtSQL w)
    as (err1 & w1 & Hrun1 & Htrace1 & Hdb1 & Htx1 & Hcs1 & Hdata1 & Hdisk1).
  rewrite (bind_Ret _ _ _ _ _ Hrun1).
  destruct err1 as [msg|].
  - exists (Some msg), w1. split; [reflexivity|].
    repeat (split; [assumption|]).
    split; [left; apply effects_app; rewrite app_nil_r; exact Htrace1|]. auto.
  - destruct (tx_Exec_cases t stmtSQL args w1)
      as (err & w' & Hrun & Htrace & Hdb & Htx & Hcs & Hcase).
    rewrite (bind_Ret _ _ _ _ _ Hrun).
    exists err, w'. split; [reflexivity|].
    split; [congruence|]. split; [congruence|]. split; [congruence|].
    split; [right; apply effects_app; rewrite Htrace, Htrace1; reflexivity|].
    unfold live in *. rewrite Htx1, Hdata1, Hdisk1 in Hcase. exact Hcase.
Qed.
End Insert.

(** *** Reading an attribute off the text *)

Section IalTextFacts.
Import GoStrings IalText.

Lemma len_append (a b : string) : len (a +:+ b) = len a + len b.
Proof.
  unfold len. induction a as [|c a IH]; [change ("" +:+ b) with b; cbn [String.length]; lia|].
  rewrite append_cons. cbn [String.length]. lia.
Qed.

Lemma drop_bytes_append (a b : string) : drop_bytes (String.length a) (a +:+ b) = b.
Proof. induction a as [|c a IH]; [destruct b; reflexivity|exact IH]. Qed.

Lemma take_bytes_append (a b : string) : take_bytes (String.length a) (a +:+ b) = a.
Proof.
  induction a as [|c a IH]; [destruct b; reflexivity|].
  rewrite append_cons. cbn [String.length take_bytes]. rewrite IH. reflexivity.
Qed.

Lemma slice_from_append (a b : string) : slice_from (a +:+ b) (len a) = b.
Proof. unfold slice_from, len. rewrite Nat2Z.id. apply drop_bytes_append. Qed.

Lemma slice_to_append (a b : string) : slice_to (a +:+ b) (len a) = a.
Proof. unfold slice_to, len. rewrite Nat2Z.id. apply take_bytes_append. Qed.

Lemma len_nonneg (s : string) : 0 <= len s.
Proof. unfold len. lia. Qed.

Lemma len_not_negative (s : string) : (0 >? len s) = false.
Proof. rewrite Z.gtb_ltb. apply Z.ltb_ge, len_nonneg. Qed.

(** The first quote after a text without one. *)
Lemma Index_from_quote (value rest : string) (i : Z) :
  no_quote value -> Index_from i (value +:+ quote +:+ rest) quote = i + len value.
Proof.
  unfold no_quote. revert i. induction value as [|c value IH]; intros i Hvalue.
  - unfold len. simpl. lia.
  - cbn [list_ascii_of_string] in Hvalue. apply Forall_cons in Hvalue as [Hc Hvalue].
    rewrite append_cons. cbn [Index_from HasPrefix quote].
    destruct (Ascii.eqb c (ascii_of_nat 34)) eqn:E.
    + apply Ascii.eqb_eq in E. contradiction.
    + rewrite (IH (i + 1) Hvalue). unfold len. cbn [String.length]. lia.
Qed.

(** X8.  [ialAttr] reads the value that follows the first place where
    the name occurs in the text, be it inside another word: it skips the
    name and two more bytes, whatever they are, and returns the bytes up
    to the next quote.  For a name that does not occur it returns the
    empty string.  It panics when fewer than two bytes follow that first
    occurrence, and when no quote follows the two bytes. *)
Theorem ialAttr_reads_after_first_occurrence (pre name sep value post : string) :
  Index (pre +:+ name +:+ sep +:+ value +:+ quote +:+ post) name = len pre ->
  String.length sep = 2%nat ->
  no_quote value ->
  ialAttr (pre +:+ name +:+ sep +:+ value +:+ quote +:+ post) name = Some value
  /\ (forall ial, Index ial name = -1 -> ialAttr ial name = Some "")
  /\ (forall tail,
         Index (pre +:+ name +:+ tail) name = len pre ->
         (String.length tail < 2)%nat ->
         ialAttr (pre +:+ name +:+ tail) name = None)
  /\ (Index (pre +:+ name +:+ sep +:+ value) name = len pre ->
      ialAttr (pre +:+ name +:+ sep +:+ value) name = None).
Proof.
  intros Hidx Hsep Hvalue.
  assert (Hfrom : forall rest,
             slice_from_checked (pre +:+ name +:+ sep +:+ rest) (len pre + len name + 2)
             = Some rest).
  { intros rest. unfold slice_from_checked.
    replace (len pre + len name + 2) with (len ((pre +:+ name) +:+ sep))
      by (rewrite !len_append; unfold len at 3; rewrite Hsep; lia).
    rewrite <- !append_assoc.
    replace (0 <=? len ((pre +:+ name) +:+ sep)) with true
      by (symmetry; apply Z.leb_le, len_nonneg).
    replace (len ((pre +:+ name) +:+ sep) <=? len (((pre +:+ name) +:+ sep) +:+ rest))
      with true
      by (symmetry; apply Z.leb_le; rewrite (len_append _ rest);
          pose proof (len_nonneg rest); lia).
    cbn [andb]. rewrite slice_from_append. reflexivity. }
  split; [|split; [|split]].
  - unfold ialAttr. rewrite Hidx. cbv zeta.
    rewrite len_not_negative.
    rewrite Hfrom. unfold Index.
    rewrite (Index_from_quote value post 0 Hvalue), Z.add_0_l.
    unfold slice_to_checked.
    replace (0 <=? len value) with true by (symmetry; apply Z.leb_le, len_nonneg).
    replace (len value <=? len (value +:+ quote +:+ post)) with true
      by (symmetry; apply Z.leb_le; rewrite len_append;
          pose proof (len_nonneg (quote +:+ post)); lia).
    cbn [andb]. rewrite slice_to_append. reflexivity.
  - intros ial Hnone. unfold ialAttr. rewrite Hnone. reflexivity.
  - intros tail Hidx' Htail. unfold ialAttr. rewrite Hidx'. cbv zeta.
    rewrite len_not_negative.
    unfold slice_from_checked.
    replace (len pre + len name + 2 <=? len (pre +:+ name +:+ tail)) with false;
      [rewrite andb_false_r; reflexivity|].
    symmetry. apply Z.leb_gt. rewrite !len_append. unfold len at 3. lia.
  - intros Hidx'. unfold ialAttr. rewrite Hidx'. cbv zeta.
    rewrite len_not_negative.
    rewrite Hfrom.
    assert (Hnone : Index value quote = -1).
    { clear -Hvalue. unfold Index. generalize 0.
      unfold no_quote in Hvalue. induction value as [|c value IH]; intros i; [reflexivity|].
      cbn [list_ascii_of_string] in Hvalue. apply Forall_cons in Hvalue as [Hc Hvalue].
      cbn [Index_from HasPrefix quote].
      destruct (Ascii.eqb c (ascii_of_nat 34)) eqn:E.
      - apply Ascii.eqb_eq in E. contradiction.
      - apply IH. exact Hvalue. }
    rewrite Hnone. reflexivity.
Qed.
End IalTextFacts.

(** *** Tags *)

Section Tags.
Import GoStrings Ast Extraction TreeVocabulary.
Context `{Collaborators}.

Lemma tags_of_app (ns ms : list Node) : tags_of (ns ++ ms) = tags_of ns +:+ tags_of ms.
Proof.
  induction ns as [|n ns IH]; [reflexivity|].
  cbn [app]. unfold tags_of in *. cbn [fold_right]. rewrite IH.
  destruct (IsTextMarkType n "tag"); [|reflexivity].
  rewrite !append_assoc. reflexivity.
Qed.

(** The walker of [tagFromNode] adds to the buffer the tags of the
    nodes below the node it is started on, in document order. *)
Lemma tag_walk (n : Node) :
  forall (ancestors : list Node) (tagBuilder : string),
    Walk (fun (_ : list Node) (n : Node) (entering : bool) (tagBuilder : string) =>
            if negb entering then Some (WalkContinue, tagBuilder)
            else if IsTextMarkType n "tag"
                 then Some (WalkContinue, tagBuilder +:+ "#" +:+ NodeContent n +:+ "# ")
                 else Some (WalkContinue, tagBuilder))
         ancestors n tagBuilder
    = Some (tagBuilder +:+ tags_of (preorder n)).
Proof.
  induction n as [d cs IH] using Node_children_ind. intros ancestors tagBuilder.
  rewrite Walk_unfold. cbn [negb].
  set (walker := fun (_ : list Node) (n : Node) (entering : bool) (tagBuilder : string) =>
                   if negb entering then Some (WalkContinue, tagBuilder)
                   else if IsTextMarkType n "tag"
                        then Some (WalkContinue, tagBuilder +:+ "#" +:+ NodeContent n +:+ "# ")
                        else Some (WalkContinue, tagBuilder)) in *.
  assert (Hchildren : forall ancestors' b,
             WalkChildren walker ancestors' cs b
             = Some (b +:+ tags_of (concat (List.map preorder cs)))).
  { clear -IH. intros ancestors'.
    induction IH as [|c cs' Hc _ IHcs]; intros b.
    - cbn. rewrite append_nil_r. reflexivity.
    - cbn [WalkChildren List.map concat]. rewrite Hc, IHcs, tags_of_app, append_assoc.
      reflexivity. }
  cbn [preorder]. fold (preorder (MkNode d cs)).
  change (tags_of (MkNode d cs :: concat (List.map preorder cs)))
    with (if IsTextMarkType (MkNode d cs) "tag"
          then "#" +:+ NodeContent (MkNode d cs) +:+ "# "
               +:+ tags_of (concat (List.map preorder cs))
          else tags_of (concat (List.map preorder cs))).
  destruct (IsTextMarkType (MkNode d cs) "tag");
    change (WalkContinue =? WalkStop) with false;
    change (WalkContinue =? WalkSkipChildren) with false; cbv iota;
    cbn [Children]; rewrite Hchildren; cbn [negb];
    rewrite ?append_assoc; reflexivity.
Qed.

(** X9.  For a node that is not a document, [tagFromNode] gives the
    tags of the text marks of type "tag" at and below the node, in
    document order, each written between two [#] and followed by a
    space, the whole trimmed: the walk skips no child and a tag inside
    another text mark is collected as well.  For a document node the tags
    come from its "tags" attribute alone: its children play no part. *)
Theorem tagFromNode_collects_tags_in_document_order (node : Node) :
  (Type_ (data node) <> NodeDocument ->
   tagFromNode node = TrimSpace (tags_of (preorder node)))
  /\ (Type_ (data node) = NodeDocument ->
      forall children, tagFromNode (MkNode (data node) children) = tagFromNode node).
Proof.
  split.
  - intros Hnode. unfold tagFromNode.
    destruct (decide (Type_ (data node) = NodeDocument)); [contradiction|].
    cbv zeta. rewrite tag_walk. reflexivity.
  - intros Hnode children. unfold tagFromNode. cbn [data].
    destruct (decide (Type_ (data node) = NodeDocument)); [|contradiction].
    reflexivity.
Qed.
End Tags.

(** *** When [buildBlockFromNode] returns *)

Section BlockReturns.
Import GoStrings Ast Extraction TreeVocabulary.
Context `{Collaborators}.
Variable indexAssetPath : bool.

(** With a [BlockID] that is at hand, the loop over the attributes
    returns, and touches the supply of identifiers only. *)
Lemma attributes_of_returns entries typ (bid rootID boxID p : string) (st : XState) :
  exists attrs st',
    attributes_of entries typ (ret bid) rootID boxID p st = Some (attrs, st')
    /\ ocr_queue st' = ocr_queue st /\ (next_id st <= next_id st')%nat.
Proof.
  revert st. induction entries as [|[name val] entries IH]; intros st.
  - eexists _, _. split; [reflexivity|]. split; [reflexivity|lia].
  - cbn [attributes_of]. destruct (negb (isAttr name)); [apply IH|].
    unfold bind at 1. unfold NewNodeID at 1. unfold bind at 1. unfold ret at 1.
    unfold bind at 1.
    destruct (IH {| next_id := Datatypes.S (next_id st); ocr_queue := ocr_queue st |})
      as (rest & st' & Hrest & Hq & Hid).
    rewrite Hrest. eexists _, _. split; [reflexivity|].
    cbn in Hq, Hid. split; [exact Hq|lia].
Qed.

Lemma queue_unless_OCRed_returns (n : Node) (st : XState) :
  exists st', queue_unless_OCRed n st = Some (tt, st') /\ next_id st' = next_id st.
Proof.
  unfold queue_unless_OCRed. destruct (negb (IsNodeOCRed n)); eexists; split; reflexivity.
Qed.

(** X10.  [buildBlockFromNode] reads [n.Parent.ID] for every node that
    is not a document.  Called on such a node without a parent it
    panics; on a document, and on every node with a parent, it returns
    a block with the identifier of the node, and for a document with no
    parent, no markdown and the title as content, and the queue of nodes
    to be read by OCR is left alone. *)
Theorem buildBlockFromNode_panics_without_parent
    (ancestors : list Node) (n : Node) (tree : Tree) (st : XState) :
  (buildBlockFromNode indexAssetPath ancestors n tree st = None
   <-> Type_ (data n) <> NodeDocument /\ ancestors = [])
  /\ (Type_ (data n) = NodeDocument ->
      exists block attrs st',
        buildBlockFromNode indexAssetPath ancestors n tree st = Some (block, attrs, st')
        /\ Block.ID block = ID (data n)
        /\ Block.ParentID block = ""
        /\ Block.Markdown block = ""
        /\ Block.Content block = ReplaceAll (IALAttr n "title") Zwsp ""
        /\ Block.FContent block = Block.Content block
        /\ ocr_queue st' = ocr_queue st).
Proof.
  unfold buildBlockFromNode. cbv zeta.
  match goal with
  | |- context [bind ?F ?K st] => set (fields := F); set (rest := K)
  end.
  assert (Hrest : forall f st1, exists block attrs st',
             rest f st1 = Some (block, attrs, st')
             /\ ocr_queue st' = ocr_queue st1
             /\ Block.ID block = ID (data n)
             /\ Block.ParentID block = f.1.2
             /\ Block.Markdown block = ReplaceAll f.1.1.2 Zwsp ""
             /\ Block.Content block = ReplaceAll f.1.1.1.1 Zwsp ""
             /\ Block.FContent block = ReplaceAll f.1.1.1.2 Zwsp "").
  { intros [[[[content fcontent] markdown] parentID] length] st1. unfold rest.
    match goal with
    | |- context [attributes_of ?es ?typ (ret ?bid) ?r ?b ?p] =>
        destruct (attributes_of_returns es typ bid r b p st1) as (attrs & st' & Hrun & Hq & _)
    end.
    unfold bind. rewrite Hrun. eexists _, _, _. split; [reflexivity|].
    cbn. repeat split. exact Hq. }
  assert (Hfields : (fields st = None <-> Type_ (data n) <> NodeDocument /\ ancestors = [])
                    /\ (Type_ (data n) = NodeDocument ->
                        fields st
                        = Some ((IALAttr n "title", IALAttr n "title", "", "",
                                 RuneCountInString (IALAttr n "title")), st))).
  { unfold fields.
    destruct (decide (Type_ (data n) = NodeDocument)) as [Hdoc|Hother].
    - split; [|intros _; reflexivity].
      split; [discriminate|intros [Hne _]; contradiction].
    - split; [|intros Hdoc; contradiction].
      unfold bind, queue_unless_OCRed, PushNodeOCRQueue, parentID_of, bind, deref_ID,
        Parent, ret, panic.
      destruct (IsContainerBlock n); destruct (negb (IsNodeOCRed n));
        try destruct (negb (IsNodeOCRed (FirstLeafBlock n)));
        destruct ancestors as [|parent ancestors']; cbn [head];
        (split; [intros Hnone; first [discriminate | split; [exact Hother|reflexivity]]
                |intros [_ Hnil]; first [discriminate | reflexivity]]). }
  destruct Hfields as [Hnone Hdoc].
  split.
  - unfold bind at 1. destruct (fields st) as [[f st1]|] eqn:Hf.
    + destruct (Hrest f st1) as (block & attrs & st' & Hrun & _). rewrite Hrun.
      split; [discriminate|]. intros Hpanic. apply Hnone in Hpanic. discriminate.
    + split; [intros _; apply Hnone; reflexivity|reflexivity].
  - intros Htype. unfold bind at 1. rewrite (Hdoc Htype).
    destruct (Hrest (IALAttr n "title", IALAttr n "title", "", "",
                     RuneCountInString (IALAttr n "title")) st)
      as (block & attrs & st' & Hrun & Hq & Hid & Hparent & Hmd & Hcontent & Hfcontent).
    exists block, attrs, st'. split; [exact Hrun|].
    cbn [fst snd] in *. repeat split; try assumption. congruence.
Qed.
End BlockReturns.

(** *** Zero-width spaces *)

Section ZeroWidthSpaces.
Import GoStrings Ast Extraction TreeVocabulary.

Lemma HasPrefix_Zwsp (c : ascii) (s : string) :
  HasPrefix (String c s) Zwsp
  = Ascii.eqb c (ascii_of_nat 226)
    && match s with
       | String x (String y _) =>
           Ascii.eqb x (ascii_of_nat 128) && Ascii.eqb y (ascii_of_nat 139)
       | _ => false
       end.
Proof.
  unfold Zwsp. cbn [HasPrefix].
  destruct (Ascii.eqb c (ascii_of_nat 226)); [|reflexivity].
  destruct s as [|x [|y s]]; cbn [andb]; [reflexivity| |].
  - destruct (Ascii.eqb x (ascii_of_nat 128)); reflexivity.
  - destruct (Ascii.eqb x (ascii_of_nat 128)); [|reflexivity].
    destruct (Ascii.eqb y (ascii_of_nat 139)); reflexivity.
Qed.

(** An occurrence at the head is dropped as a whole. *)
Lemma ReplaceAll_Zwsp_head (s : string) :
  ReplaceAll (Zwsp +:+ s) Zwsp "" = ReplaceAll s Zwsp "".
Proof. reflexivity. Qed.

(** A byte that does not start an occurrence is kept. *)
Lemma ReplaceAll_Zwsp_keep (c : ascii) (s : string) :
  HasPrefix (String c s) Zwsp = false ->
  ReplaceAll (String c s) Zwsp "" = String c (ReplaceAll s Zwsp "").
Proof.
  intros Hc. unfold ReplaceAll. cbn [ReplaceAll_skip]. rewrite Hc. reflexivity.
Qed.

Lemma leads_apart_tail (c : ascii) (s : string) : leads_apart (String c s) -> leads_apart s.
Proof. intros [_ Hs]. exact Hs. Qed.

Lemma leads_apart_drop (k : nat) (s : string) : leads_apart s -> leads_apart (drop_bytes k s).
Proof.
  revert s. induction k as [|k IH]; intros s Hs; [destruct s; exact Hs|].
  destruct s as [|c s]; [exact Hs|]. cbn [drop_bytes]. apply IH, (leads_apart_tail c), Hs.
Qed.

Lemma not_lead (x : ascii) : ~ lead x -> Ascii.eqb x (ascii_of_nat 226) = false.
Proof. intros Hx. apply Ascii.eqb_neq. exact Hx. Qed.

(** After the removal of the zero-width spaces, none is left. *)
Lemma ReplaceAll_Zwsp_free (n : nat) :
  forall (s : string) (i : Z),
    (String.length s <= n)%nat -> leads_apart s ->
    Index_from i (ReplaceAll s Zwsp "") Zwsp = -1.
Proof.
  induction n as [n IH] using lt_wf_ind. intros s i Hlen Hs.
  destruct s as [|c s]; [reflexivity|].
  destruct (HasPrefix (String c s) Zwsp) eqn:Hhead.
  - destruct (HasPrefix_inv _ _ Hhead) as [rest Hrest]. rewrite Hrest.
    rewrite ReplaceAll_Zwsp_head.
    assert (Hdrop : rest = drop_bytes 3 (String c s)).
    { rewrite Hrest. symmetry. apply (drop_bytes_append Zwsp rest). }
    apply (IH (String.length rest)).
    + assert (String.length (String c s) = (3 + String.length rest)%nat).
      { rewrite Hrest. clear. unfold Zwsp. rewrite !append_cons. cbn [String.length].
        change ("" +:+ rest) with rest. reflexivity. }
      lia.
    + lia.
    + rewrite Hdrop. apply leads_apart_drop. exact Hs.
  - rewrite (ReplaceAll_Zwsp_keep c s Hhead).
    assert (Hrest : forall j, Index_from j (ReplaceAll s Zwsp "") Zwsp = -1).
    { intros j. apply (IH (String.length s)); [cbn [String.length] in Hlen; lia|lia|].
      apply (leads_apart_tail c). exact Hs. }
    cbn [Index_from]. rewrite Hrest.
    replace (HasPrefix (String c (ReplaceAll s Zwsp "")) Zwsp) with false;
      [reflexivity|].
    symmetry. rewrite HasPrefix_Zwsp.
    destruct (Ascii.eqb c (ascii_of_nat 226)) eqn:Hc; [|reflexivity].
    apply Ascii.eqb_eq in Hc. cbn [andb].
    rewrite HasPrefix_Zwsp in Hhead.
    replace (Ascii.eqb c (ascii_of_nat 226)) with true in Hhead
      by (symmetry; apply Ascii.eqb_eq; exact Hc).
    cbn [andb] in Hhead. destruct Hs as [Hlead Hs]. specialize (Hlead Hc).
    destruct s as [|x s]; [reflexivity|].
    assert (Hx : ~ lead x) by (destruct s; tauto).
    assert (Hkeepx : HasPrefix (String x s) Zwsp = false)
      by (rewrite HasPrefix_Zwsp, (not_lead x Hx); reflexivity).
    rewrite (ReplaceAll_Zwsp_keep x s Hkeepx).
    destruct (Ascii.eqb x (ascii_of_nat 128)) eqn:Hxa.
    2:{ destruct (ReplaceAll s Zwsp ""); reflexivity. }
    destruct s as [|y s]; [reflexivity|].
    assert (Hy : ~ lead y) by tauto.
    assert (Hkeepy : HasPrefix (String y s) Zwsp = false)
      by (rewrite HasPrefix_Zwsp, (not_lead y Hy); reflexivity).
    rewrite (ReplaceAll_Zwsp_keep y s Hkeepy).
    cbn [andb] in Hhead. rewrite Hhead. reflexivity.
Qed.

Lemma ReplaceAll_Zwsp_contains (s : string) :
  leads_apart s -> Contains (ReplaceAll s Zwsp "") Zwsp = false.
Proof.
  intros Hs. unfold Contains, Index.
  rewrite (ReplaceAll_Zwsp_free (String.length s) s 0 (le_n _) Hs). reflexivity.
Qed.

Context `{Collaborators}.
Variable indexAssetPath : bool.

(** The three texts of a block are the rendered texts without their
    zero-width spaces. *)
Lemma buildBlockFromNode_texts ancestors n tree st block attrs st' :
  buildBlockFromNode indexAssetPath ancestors n tree st = Some (block, attrs, st') ->
  exists content fcontent markdown,
    Block.Content block = ReplaceAll content Zwsp ""
    /\ Block.FContent block = ReplaceAll fcontent Zwsp ""
    /\ Block.Markdown block = ReplaceAll markdown Zwsp ""
    /\ (content = IALAttr n "title"
        \/ content = NodeStaticContent n [] true indexAssetPath true)
    /\ (fcontent = IALAttr n "title" \/ fcontent = ""
        \/ fcontent = NodeStaticContent (FirstLeafBlock n) [] true false true)
    /\ (markdown = "" \/ markdown = ExportNodeStdMd n).
Proof.
  unfold buildBlockFromNode. cbv zeta.
  match goal with
  | |- context [bind ?F ?K st] => set (fields := F); set (rest := K)
  end.
  intros Hrun. unfold bind at 1 in Hrun.
  destruct (fields st) as [[[[[[content fcontent] markdown] parentID] length] st1]|] eqn:Hf;
    [|discriminate].
  unfold rest, bind in Hrun.
  match type of Hrun with
  | match ?run with _ => _ end = _ => destruct run as [[attrs0 st2]|]; [|discriminate]
  end.
  inversion Hrun; subst block attrs st'. cbn.
  exists content, fcontent, markdown. repeat (split; [reflexivity|]).
  unfold fields in Hf. clear -Hf.
  destruct (decide (Type_ (data n) = NodeDocument)).
  - inversion Hf; subst. auto.
  - unfold bind, queue_unless_OCRed, PushNodeOCRQueue, parentID_of, bind, deref_ID,
      Parent, ret, panic in Hf.
    destruct (IsContainerBlock n); destruct (negb (IsNodeOCRed n));
      try destruct (negb (IsNodeOCRed (FirstLeafBlock n)));
      destruct ancestors as [|parent ancestors']; cbn [head] in Hf;
      try discriminate; inversion Hf; subst; auto.
Qed.

(** X11.  When the rendered content of the node, the rendered content
    of its first leaf, its markdown and its title are such that no byte
    E2 follows another at a distance of one or two (as in every
    well-formed UTF-8 text), the content, the first-leaf content and the
    markdown of the block that [buildBlockFromNode] returns hold no
    zero-width space.  The condition is needed: the
    removal makes one pass, and from the six bytes E2 80 E2 80 8B 8B it
    leaves a zero-width space. *)
Theorem stored_texts_hold_no_zero_width_space
    (ancestors : list Node) (n : Node) (tree : Tree) (st : XState)
    (block : Block.t) (attrs : list Attribute.t) (st' : XState) :
  leads_apart (NodeStaticContent n [] true indexAssetPath true) ->
  leads_apart (NodeStaticContent (FirstLeafBlock n) [] true false true) ->
  leads_apart (ExportNodeStdMd n) ->
  leads_apart (IALAttr n "title") ->
  buildBlockFromNode indexAssetPath ancestors n tree st = Some (block, attrs, st') ->
  Contains (Block.Content block) Zwsp = false
  /\ Contains (Block.FContent block) Zwsp = false
  /\ Contains (Block.Markdown block) Zwsp = false
  /\ (forall s, leads_apart s -> Contains (ReplaceAll s Zwsp "") Zwsp = false)
  /\ ReplaceAll (String (ascii_of_nat 226) (String (ascii_of_nat 128) (Zwsp +:+
                   String (ascii_of_nat 139) EmptyString))) Zwsp ""
     = Zwsp.
Proof.
  intros Hcontent Hfcontent Hmarkdown Htitle Hrun.
  destruct (buildBlockFromNode_texts _ _ _ _ _ _ _ Hrun)
    as (content & fcontent & markdown & -> & -> & -> & Hc & Hf & Hm).
  split; [|split; [|split; [|split]]].
  - apply ReplaceAll_Zwsp_contains. destruct Hc as [-> | ->]; auto.
  - apply ReplaceAll_Zwsp_contains. destruct Hf as [-> |[-> | ->]]; auto. exact I.
  - apply ReplaceAll_Zwsp_contains. destruct Hm as [-> | ->]; auto. exact I.
  - apply ReplaceAll_Zwsp_contains.
  - vm_compute. reflexivity.
Qed.
End ZeroWidthSpaces.

(** *** Identifiers of references *)

Section RefIdentifiers.
Import GoStrings Ast Extraction TreeVocabulary.
Context `{Collaborators}.

Lemma buildRef_id tree ancestors n st ref st' :
  buildRef tree ancestors n st = Some (ref, st') ->
  Ref.ID ref = node_id (next_id st)
  /\ st' = {| next_id := Datatypes.S (next_id st); ocr_queue := ocr_queue st |}.
Proof.
  unfold buildRef. destruct (GetBlockRef n) as [[defBlockID text] subtype].
  unfold bind, NewNodeID, deref_ID. destruct (ParentBlock ancestors n); [|discriminate].
  unfold ret. intros Hrun. inversion Hrun; subst. split; reflexivity.
Qed.

Lemma buildEmbedRef_id tree n st ref st' :
  buildEmbedRef tree n st = Some (ref, st') ->
  Ref.ID ref = node_id (next_id st)
  /\ st' = {| next_id := Datatypes.S (next_id st); ocr_queue := ocr_queue st |}.
Proof.
  unfold buildEmbedRef, bind, NewNodeID, ret. intros Hrun. inversion Hrun; subst.
  split; reflexivity.
Qed.

(** A key that is beyond all the keys drawn so far is new. *)
Lemma fresh_key (n0 k : nat) (ks kf : list nat) :
  NoDup (ks ++ kf) -> Forall (fun j => (n0 <= j < k)%nat) (ks ++ kf) -> (n0 <= k)%nat ->
  NoDup ((ks ++ [k]) ++ kf)
  /\ Forall (fun j => (n0 <= j < Datatypes.S k)%nat) ((ks ++ [k]) ++ kf)
  /\ NoDup (ks ++ kf ++ [k])
  /\ Forall (fun j => (n0 <= j < Datatypes.S k)%nat) (ks ++ kf ++ [k])
  /\ Forall (fun j => (n0 <= j < Datatypes.S k)%nat) (ks ++ kf).
Proof.
  intros Hdup Hrange Hk.
  assert (Hwider : Forall (fun j => (n0 <= j < Datatypes.S k)%nat) (ks ++ kf)).
  { eapply Forall_impl; [exact Hrange|]. cbv beta. intros j Hj. lia. }
  assert (Hnew : k ∉ ks ++ kf).
  { intros Hin. rewrite Forall_forall in Hrange. apply Hrange in Hin. lia. }
  assert (Hcons : NoDup (k :: ks ++ kf)) by (constructor; assumption).
  assert (Hrange' : Forall (fun j => (n0 <= j < Datatypes.S k)%nat) (k :: ks ++ kf)).
  { constructor; [lia|exact Hwider]. }
  assert (Hp1 : (ks ++ [k]) ++ kf ≡ₚ k :: ks ++ kf).
  { rewrite <- app_assoc. cbn [app]. symmetry. apply Permutation_middle. }
  assert (Hp2 : ks ++ kf ++ [k] ≡ₚ k :: ks ++ kf).
  { rewrite app_assoc. symmetry. apply Permutation_cons_append. }
  split; [|split; [|split; [|split]]].
  - rewrite Hp1. exact Hcons.
  - rewrite Hp1. exact Hrange'.
  - rewrite Hp2. exact Hcons.
  - rewrite Hp2. exact Hrange'.
  - exact Hwider.
Qed.

(** X12.  Every reference and file annotation reference that
    [refsFromTree] returns carries an identifier drawn from
    [ast.NewNodeID] during this call, and no two of them come from the
    same draw: with a supply that never gives the same identifier twice,
    the identifiers are pairwise distinct, across both lists.  (A
    repeated reference that is dropped has used up a draw.)  The queue
    of nodes to be read by OCR is left alone. *)
Theorem refsFromTree_draws_fresh_identifiers
    (tree : Tree) (st : XState) refs fileAnnotationRefs st' :
  refsFromTree tree st = Some ((refs, fileAnnotationRefs), st') ->
  (exists ks kf,
      Ref.ID <$> refs = node_id <$> ks
      /\ FileAnnotationRef.ID <$> fileAnnotationRefs = node_id <$> kf
      /\ NoDup (ks ++ kf)
      /\ Forall (fun k => (next_id st <= k < next_id st')%nat) (ks ++ kf))
  /\ ocr_queue st' = ocr_queue st
  /\ ((forall a b, node_id a = node_id b -> a = b) ->
      NoDup ((Ref.ID <$> refs) ++ (FileAnnotationRef.ID <$> fileAnnotationRefs))).
Proof.
  intros Hrun. unfold refsFromTree in Hrun.
  pose (Inv := fun s : RefsState =>
                 (exists ks kf,
                     Ref.ID <$> s.1.1 = node_id <$> ks
                     /\ FileAnnotationRef.ID <$> s.1.2 = node_id <$> kf
                     /\ NoDup (ks ++ kf)
                     /\ Forall (fun k => (next_id st <= k < next_id s.2)%nat) (ks ++ kf))
                 /\ (next_id st <= next_id s.2)%nat
                 /\ ocr_queue s.2 = ocr_queue st).
  assert (Hinv : Inv ((refs, fileAnnotationRefs), st')).
  { eapply (Walk_keeps (refs_walker tree) Inv); [|exact Hrun|].
    - clear. intros ancestors n entering [[refs fars] st0] status s'.
      unfold refs_walker, Inv. cbn [fst snd].
      intros Hrun ((ks & kf & Hks & Hkf & Hdup & Hrange) & Hle & Hq).
      destruct (fresh_key _ _ _ _ Hdup Hrange Hle)
        as (Hdup1 & Hrange1 & Hdup2 & Hrange2 & Hrange0).
      assert (Hdrawn : forall (refs' : list Ref.t) ref st1,
                 Ref.ID ref = node_id (next_id st0) ->
                 st1 = {| next_id := Datatypes.S (next_id st0); ocr_queue := ocr_queue st0 |} ->
                 (exists ks' kf',
                     Ref.ID <$> add_ref refs ref = node_id <$> ks'
                     /\ FileAnnotationRef.ID <$> fars = node_id <$> kf'
                     /\ NoDup (ks' ++ kf')
                     /\ Forall (fun k => (next_id st <= k < next_id st1)%nat) (ks' ++ kf'))
                 /\ (next_id st <= next_id st1)%nat
                 /\ ocr_queue st1 = ocr_queue st).
      { intros _ ref st1 Hid ->. cbn [next_id ocr_queue].
        split; [|split; [lia|exact Hq]].
        unfold add_ref. destruct (negb (isRepeatedRef refs ref)).
        - exists (ks ++ [next_id st0]), kf.
          rewrite !fmap_app, Hks. cbn [fmap list_fmap]. rewrite Hid. auto.
        - exists ks, kf. auto. }
      destruct entering; [inversion Hrun; subst; cbn [fst snd]; eauto 10|].
      destruct (IsBlockRef n).
      { destruct (buildRef tree ancestors n st0) as [[ref st1]|] eqn:Hbuild; [|discriminate].
        inversion Hrun; subst. cbn [fst snd].
        destruct (buildRef_id _ _ _ _ _ _ Hbuild) as [Hid Hst]. eapply Hdrawn; eauto. }
      destruct (IsFileAnnotationRef n).
      { match type of Hrun with
        | context [-1 =? ?idx] => destruct (-1 =? idx)
        end; [inversion Hrun; subst; cbn [fst snd]; eauto 10|].
        unfold bind, NewNodeID, deref_ID in Hrun.
        destruct (ParentBlock ancestors n); [|discriminate].
        unfold ret in Hrun. inversion Hrun; subst. cbn [fst snd next_id ocr_queue].
        split; [|split; [lia|exact Hq]].
        exists ks, (kf ++ [next_id st0]).
        rewrite !fmap_app, Hkf. cbn [fmap list_fmap FileAnnotationRef.ID]. auto. }
      destruct (IsEmbedBlockRef n).
      { destruct (buildEmbedRef tree n st0) as [[ref st1]|] eqn:Hbuild; [|discriminate].
        inversion Hrun; subst. cbn [fst snd].
        destruct (buildEmbedRef_id _ _ _ _ _ Hbuild) as [Hid Hst]. eapply Hdrawn; eauto. }
      inversion Hrun; subst. cbn [fst snd]. eauto 10.
    - unfold Inv. cbn [fst snd]. split; [|split; [lia|reflexivity]].
      exists [], []. repeat split; constructor. }
  destruct Hinv as ((ks & kf & Hks & Hkf & Hdup & Hrange) & _ & Hq). cbn [fst snd] in *.
  split; [exists ks, kf; auto|]. split; [exact Hq|].
  intros Hinj. rewrite Hks, Hkf, <- fmap_app.
  assert (Hinj' : Inj (=) (=) node_id) by (intros a b Hab; apply Hinj, Hab).
  apply (NoDup_fmap_2 node_id). exact Hdup.
Qed.
End RefIdentifiers.

(** *** The added results at work *)

Section MoreStoreExamples.
Import GoStrings Sqlite Store StoreVocabulary Deletion RunVocabulary Sample.
Import StoreSample.

(** X1 at work: both blocks of the sample store are in box [box0]; the
    rows of the other tables carry no box and stay. *)
Lemma deleteByBoxTx_removes_rows_of_box_witness :
  let w := in_transaction false [] in
  exists w',
    deleteByBoxTx env tx1 "box0" w = (Ret None, w')
    /\ Forall (fun tbl => rows_of (data w') tbl = without_box "box0" (rows_of (data w) tbl))
              ["blocks"; "blocks_fts"; "spans"; "assets"; "attributes"; "refs";
               "file_annotation_refs"]
    /\ rows_of (data w') "blocks_fts_case_insensitive"
       = (if caseSensitive w
          then rows_of (data w) "blocks_fts_case_insensitive"
          else without_box "box0" (rows_of (data w) "blocks_fts_case_insensitive"))
    /\ (forall tbl, tbl ∉ root_tables -> tables (data w') !! tbl = tables (data w) !! tbl)
    /\ Forall (fun e => ~ published e) (effects w w').
Proof.
  apply (deleteByBoxTx_removes_rows_of_box env (in_transaction false []) tx1 "box0").
  - constructor.
  - reflexivity.
  - repeat (apply Forall_cons; split;
            [eapply table_with_check; vm_compute; reflexivity|]).
    apply Forall_nil_2.
Defined.

(** X3 at work: the database file is removed, the removal of the -shm
    file is refused, the -wal file is not tried. *)
Lemma removeDatabaseFile_stops_at_first_failure_witness :
  let w := in_transaction false [None; Some "permission denied"] in
  exists w',
    removeDatabaseFile env w = (Ret (Some "permission denied"), w')
    /\ io_results w' = []
    /\ effects w w'
       = ((fun p => ERemoveAll p None) <$> take 1 (store_files env))
         ++ [ERemoveAll (nth 1 (store_files env) "") (Some "permission denied")]
    /\ (forall p, p ∈ disk w'
                  <-> p ∈ disk w
                      /\ Forall (fun f => under f p = false) (take 1 (store_files env)))
    /\ db w' = db w /\ tx w' = tx w.
Proof.
  apply (removeDatabaseFile_stops_at_first_failure
           env (in_transaction false [None; Some "permission denied"]) 1
           "permission denied" []).
  - lia.
  - reflexivity.
Defined.

(** X5 at work on the sample store. *)
Lemma batchUpdateHPath_sets_hpath_only_witness :
  let w := in_transaction false [] in
  exists w',
    batchUpdateHPath env tx1 moved ∅ w = (Ret None, w')
    /\ rows_of (data w') "blocks" = with_hpath moved <$> rows_of (data w) "blocks"
    /\ rows_of (data w') "blocks_fts" = with_hpath moved <$> rows_of (data w) "blocks_fts"
    /\ rows_of (data w') "blocks_fts_case_insensitive"
       = (if caseSensitive w
          then rows_of (data w) "blocks_fts_case_insensitive"
          else with_hpath moved <$> rows_of (data w) "blocks_fts_case_insensitive")
    /\ (forall tbl, tbl ∉ block_tables -> tables (data w') !! tbl = tables (data w) !! tbl)
    /\ (forall r c, c <> "hpath" -> with_hpath moved r !! c = r !! c)
    /\ (forall r, ~ under_root (Ast.TreeID moved) r -> with_hpath moved r = r)
    /\ (forall r, under_root (Ast.TreeID moved) r ->
                  with_hpath moved r !! "hpath" = Some (VText (Ast.HPath moved)))
    /\ (forall r, with_hpath moved (renamed moved r) = renamed moved r).
Proof.
  apply (batchUpdateHPath_sets_hpath_only env (in_transaction false []) tx1 moved ∅).
  - constructor.
  - reflexivity.
  - repeat (apply Forall_cons; split;
            [eapply table_with_check; vm_compute; reflexivity|]).
    apply Forall_nil_2.
Defined.

(** X6 at work on the store of references: of the three references,
    the one in box [box0] at [/r1.sy] is deleted by path, the one in the
    box at another path and the one at the path in another box stay; by
    box, both references of [box0] are deleted. *)
Lemma refs_are_deleted_by_box_and_path_witness :
  (exists w',
      deleteRefsByPath env tx1 "box0" "/r1.sy" refs_world = (Ret None, w')
      /\ deleteRefsByPathTx env tx1 "box0" "/r1.sy" refs_world = (Ret None, w')
      /\ rows_of (data refs_world) "refs"
         = [ref_row "f1" "box0" "/r1.sy"; ref_row "f2" "box0" "/r2.sy";
            ref_row "f3" "box1" "/r1.sy"]
      /\ rows_of (data w') "refs"
         = [ref_row "f2" "box0" "/r2.sy"; ref_row "f3" "box1" "/r1.sy"]
      /\ rows_of (data w') "file_annotation_refs"
         = rows_of (data refs_world) "file_annotation_refs")
  /\ (exists w',
         deleteFileAnnotationRefsByPath env tx1 "box0" "/r1.sy" refs_world = (Ret None, w')
         /\ deleteFileAnnotationRefsByPathTx env tx1 "box0" "/r1.sy" refs_world
            = (Ret None, w')
         /\ rows_of (data w') "file_annotation_refs"
            = [ref_row "n2" "box0" "/r2.sy"; ref_row "n3" "box1" "/r1.sy"]
         /\ rows_of (data w') "refs" = rows_of (data refs_world) "refs")
  /\ (exists w',
         deleteRefsByBoxTx env tx1 "box0" refs_world = (Ret None, w')
         /\ rows_of (data w') "refs" = [ref_row "f3" "box1" "/r1.sy"]
         /\ rows_of (data w') "file_annotation_refs" = [ref_row "n3" "box1" "/r1.sy"]).
Proof.
  destruct (refs_are_deleted_by_box_and_path env refs_world tx1 "box0" "/r1.sy")
    as (Hrefs & Hannotations & Hbox & _).
  - constructor.
  - reflexivity.
  - eapply table_with_check; vm_compute; reflexivity.
  - eapply table_with_check; vm_compute; reflexivity.
  - split; [|split].
    + destruct Hrefs as (w' & Hrun & HrunTx & Hrows & Hother).
      exists w'. split; [exact Hrun|]. split; [exact HrunTx|].
      split; [vm_compute; reflexivity|].
      split; [rewrite Hrows; vm_compute; reflexivity|].
      unfold rows_of. rewrite Hother by discriminate. reflexivity.
    + destruct Hannotations as (w' & Hrun & HrunTx & Hrows & Hother).
      exists w'. split; [exact Hrun|]. split; [exact HrunTx|].
      split; [rewrite Hrows; vm_compute; reflexivity|].
      unfold rows_of. rewrite Hother by discriminate. reflexivity.
    + destruct Hbox as (w' & Hrun & Hrows & Hrows' & _).
      exists w'. split; [exact Hrun|].
      split; [rewrite Hrows|rewrite Hrows']; vm_compute; reflexivity.
Defined.
End MoreStoreExamples.

Section MoreTextExamples.
Import GoStrings IalText Ast Extraction TreeVocabulary Sample.

(** X8 at work: asked for "name", [ialAttr] answers with the value of
    "custom-name", where the name occurs first. *)
Lemma ialAttr_reads_after_first_occurrence_witness :
  ialAttr ("{: custom-" +:+ "name" +:+ ("=" +:+ quote) +:+ "x" +:+ quote
           +:+ (" name=" +:+ quote +:+ "y" +:+ quote +:+ "}")) "name"
  = Some "x".
Proof.
  refine (proj1 (ialAttr_reads_after_first_occurrence
                   "{: custom-" "name" ("=" +:+ quote) "x"
                   (" name=" +:+ quote +:+ "y" +:+ quote +:+ "}") _ _ _)).
  - vm_compute. reflexivity.
  - reflexivity.
  - unfold no_quote. cbn [list_ascii_of_string]. repeat constructor. discriminate.
Defined.

(** X11 at work on the paragraph that renders as "a", a zero-width
    space, "b". *)
Lemma stored_texts_hold_no_zero_width_space_witness :
  exists block attrs st',
    buildBlockFromNode false [Root doc_zwsp] paragraph_zwsp doc_zwsp start
    = Some (block, attrs, st')
    /\ Contains (Block.Content block) Zwsp = false
    /\ Contains (Block.FContent block) Zwsp = false
    /\ Contains (Block.Markdown block) Zwsp = false.
Proof.
  assert (Hrun : exists r, buildBlockFromNode false [Root doc_zwsp] paragraph_zwsp doc_zwsp start
                           = Some r).
  { eexists. vm_compute. reflexivity. }
  destruct Hrun as [[[block attrs] st'] Hrun].
  exists block, attrs, st'. split; [exact Hrun|].
  assert (Hzwsp : leads_apart ("a" +:+ Zwsp +:+ "b")).
  { vm_compute.
    repeat match goal with
           | |- _ /\ _ => split
           | |- True => exact I
           | |- _ = _ -> _ => let Hc := fresh in intros Hc; try discriminate Hc
           end. }
  destruct (stored_texts_hold_no_zero_width_space
              false [Root doc_zwsp] paragraph_zwsp doc_zwsp start block attrs st')
    as (Hc & Hf & Hm & _).
  - exact Hzwsp.
  - exact Hzwsp.
  - exact Hzwsp.
  - exact I.
  - exact Hrun.
  - auto.
Defined.

(** X12 at work: the three draws for the references of paragraph A give
    the two references that are kept the first and the third
    identifier. *)
Lemma refsFromTree_draws_fresh_identifiers_witness :
  exists refs fileAnnotationRefs st',
    refsFromTree doc_two_refs start = Some ((refs, fileAnnotationRefs), st')
    /\ Ref.ID <$> refs = ["id"; "id''"]
    /\ (exists ks kf,
           Ref.ID <$> refs = node_id <$> ks
           /\ FileAnnotationRef.ID <$> fileAnnotationRefs = node_id <$> kf
           /\ NoDup (ks ++ kf)
           /\ Forall (fun k => (next_id start <= k < next_id st')%nat) (ks ++ kf)).
Proof.
  do 3 eexists. split; [vm_compute; reflexivity|]. split; [reflexivity|].
  eapply (refsFromTree_draws_fresh_identifiers doc_two_refs start).
  vm_compute. reflexivity.
Defined.
End MoreTextExamples.

(* ===================================================================== *)
(** ** The entities of a whole tree                                       *)
(* ===================================================================== *)

Section WalkAssigningFacts.
Import Ast Indexing.
Context {S : Type}
        (walker : list Node -> Node -> bool -> S -> option (WalkStatus * Node * S)).

(** [WalkAssigning], one level unfolded. *)
Lemma WalkAssigning_unfold (ancestors : list Node) (n : Node) (s : S) :
  WalkAssigning walker ancestors n s =
  match walker ancestors n true s with
  | None => None
  | Some (status, n1, s1) =>
      if status =? WalkStop then Some s1
      else
        match (if status =? WalkSkipChildren then Some s1
               else WalkAssigningChildren walker (n1 :: ancestors) (Children n) s1) with
        | None => None
        | Some s2 =>
            match walker ancestors n1 false s2 with
            | None => None
            | Some (_, _, s3) => Some s3
            end
        end
  end.
Proof.
  destruct n as [d cs]. simpl.
  destruct (walker ancestors (MkNode d cs) true s) as [[[status n1] s1]|]; [|reflexivity].
  destruct (status =? WalkStop); [reflexivity|].
  destruct (status =? WalkSkipChildren); [reflexivity|].
  match goal with
  | |- match ?children with _ => _ end = _ =>
      replace children with (WalkAssigningChildren walker (n1 :: ancestors) cs s1);
        [reflexivity|]
  end.
  remember (n1 :: ancestors) as ancestors' eqn:E. clear E.
  revert s1. induction cs as [|c cs' IH]; intros s1; [reflexivity|].
  simpl. destruct (WalkAssigning walker ancestors' c s1); [apply IH|reflexivity].
Qed.

Variable Inv : S -> Prop.
Hypothesis walker_keeps :
  forall ancestors n entering s status n' s',
    walker ancestors n entering s = Some (status, n', s') -> Inv s -> Inv s'.

(** What every call of the walker keeps, the walk keeps. *)
Lemma WalkAssigning_keeps (n : Node) :
  forall ancestors s s', WalkAssigning walker ancestors n s = Some s' -> Inv s -> Inv s'.
Proof.
  induction n as [d cs IH] using Node_children_ind.
  intros ancestors s s' Hwalk Hs. rewrite WalkAssigning_unfold in Hwalk.
  destruct (walker ancestors (MkNode d cs) true s) as [[[status n1] s1]|] eqn:Henter;
    [|discriminate].
  pose proof (walker_keeps _ _ _ _ _ _ _ Henter Hs) as Hs1.
  destruct (status =? WalkStop); [inversion Hwalk; subst; exact Hs1|].
  assert (Hchildren : forall ancestors' s1 s2,
             WalkAssigningChildren walker ancestors' cs s1 = Some s2 -> Inv s1 -> Inv s2).
  { clear -IH. intros ancestors'.
    induction IH as [|c cs' Hc _ IHcs]; intros s1 s2 Hrun H1; simpl in Hrun.
    - inversion Hrun; subst. exact H1.
    - destruct (WalkAssigning walker ancestors' c s1) as [s1'|] eqn:Hwalk; [|discriminate].
      eapply IHcs; [exact Hrun|]. eapply Hc; eassumption. }
  cbn [Children] in Hwalk.
  destruct (if status =? WalkSkipChildren then Some s1
            else WalkAssigningChildren walker (n1 :: ancestors) cs s1)
    as [s2|] eqn:Hmid; [|discriminate].
  assert (Hs2 : Inv s2).
  { destruct (status =? WalkSkipChildren).
    - inversion Hmid; subst. exact Hs1.
    - eapply Hchildren; eassumption. }
  destruct (walker ancestors n1 false s2) as [[[status' n2] s3]|] eqn:Hleave;
    [|discriminate].
  inversion Hwalk; subst. eapply walker_keeps; eassumption.
Qed.
End WalkAssigningFacts.

Section ComputationFacts.
Import Extraction.

(** A computation that returns went through both of its halves. *)
Lemma bind_Some {A B} (m : X A) (k : A -> X B) (st : XState) (r : B * XState) :
  bind m k st = Some r -> exists a st1, m st = Some (a, st1) /\ k a st1 = Some r.
Proof.
  unfold bind. destruct (m st) as [[a st1]|]; [|discriminate].
  intros Hk. exists a, st1. split; [reflexivity|exact Hk].
Qed.

Lemma ret_Some {A} (a : A) (st : XState) (r : A * XState) :
  ret a st = Some r -> r = (a, st).
Proof. unfold ret. intros Hr. inversion Hr. reflexivity. Qed.
End ComputationFacts.

(** Take the computation of a hypothesis apart, bind by bind. *)
Ltac x_inv H :=
  repeat match type of H with
         | Extraction.bind _ _ _ = Some _ =>
             let a := fresh "a" in
             let st := fresh "st" in
             let Hm := fresh "Hm" in
             apply bind_Some in H as (a & st & Hm & H)
         | Extraction.ret _ _ = Some _ =>
             apply ret_Some in H
         end.

Section RowsOfATree.
Import GoStrings Ast Extraction Indexing IndexingVocabulary Vocabulary.
Context `{Collaborators} `{SpanCollaborators}.
Variable indexAssetPath : bool.

Lemma attributes_of_rooted entries typ blockID rootID boxID p st attrs st' :
  attributes_of entries typ blockID rootID boxID p st = Some (attrs, st') ->
  Forall (fun a => isAttr (Attribute.Name a) = true /\ Attribute.Type_ a = typ
                   /\ Attribute.RootID a = rootID /\ Attribute.Box a = boxID
                   /\ Attribute.Path a = p) attrs.
Proof.
  revert st attrs st'.
  induction entries as [|[name val] entries IH]; intros st attrs st' Hrun;
    cbn [attributes_of] in Hrun.
  - apply ret_Some in Hrun. inversion Hrun. constructor.
  - destruct (isAttr name) eqn:Hname; cbn [negb] in Hrun; [|eauto].
    x_inv Hrun. inversion Hrun; subst. constructor.
    + cbn. auto.
    + eapply IH. eassumption.
Qed.

Lemma attributes_of_kept tree entries typ blockID st attrs st' :
  typ = "s" \/ typ = "b" ->
  attributes_of entries typ blockID (ID (data (Root tree))) (Box tree) (Path tree) st
    = Some (attrs, st') ->
  Forall (attribute_kept tree) attrs.
Proof.
  intros Htyp Hrun. apply attributes_of_rooted in Hrun.
  eapply Forall_impl; [exact Hrun|].
  intros a (Hname & Ht & Hr & Hb & Hp).
  split; [exact (isAttr_allow_listed _ Hname)|].
  split; [rewrite Ht; exact Htyp|].
  repeat split; assumption.
Qed.

(** The block of a node: its identifier, its type, and the root, box
    and paths of the tree. *)
Lemma buildBlockFromNode_shape ancestors n tree st block attrs st' :
  buildBlockFromNode indexAssetPath ancestors n tree st = Some (block, attrs, st') ->
  Block.ID block = ID (data n)
  /\ Block.Type_ block = TypeAbbr (NodeTypeString (Type_ (data n)))
  /\ block_of_tree tree block
  /\ Forall (attribute_kept tree) attrs.
Proof.
  unfold buildBlockFromNode. cbv zeta.
  match goal with
  | |- context [bind ?F ?K st] => set (fields := F); set (rest := K)
  end.
  intros Hrun. unfold bind at 1 in Hrun.
  destruct (fields st) as [[[[[[content fcontent] markdown] parentID] length] st1]|] eqn:Hf;
    [|discriminate].
  unfold rest, bind in Hrun.
  match type of Hrun with
  | match ?run with _ => _ end = _ =>
      destruct run as [[attrs0 st2]|] eqn:Hattrs; [|discriminate]
  end.
  inversion Hrun; subst block attrs st'. cbn.
  split; [reflexivity|]. split; [reflexivity|].
  split; [repeat split|].
  eapply attributes_of_kept; [right; reflexivity|exact Hattrs].
Qed.

Lemma buildAttributeFromNode_kept ancestors n tree st attrs st' :
  buildAttributeFromNode ancestors n (ID (data (Root tree))) (Box tree) (Path tree) st
    = Some (attrs, st') ->
  Forall (attribute_kept tree) attrs.
Proof.
  unfold buildAttributeFromNode. intros Hrun.
  destruct (Type_ (data n));
    try (apply ret_Some in Hrun; inversion Hrun; constructor).
  - eapply attributes_of_kept; [right; reflexivity|exact Hrun].
  - eapply attributes_of_kept; [left; reflexivity|exact Hrun].
Qed.

Lemma block_of_tree_assign_Type tree b typ :
  block_of_tree tree b -> block_of_tree tree (assign_Type b typ).
Proof. intros Hb. exact Hb. Qed.

(** The blocks and attributes [buildSpanFromNode] returns are rows of
    the tree. *)
Lemma buildSpanFromNode_kept ancestors n tree st found status n' st' :
  buildSpanFromNode indexAssetPath ancestors n tree
    (ID (data (Root tree))) (Box tree) (Path tree) st = Some (found, status, n', st') ->
  Forall (block_of_tree tree) (blocks found)
  /\ Forall (attribute_kept tree) (attributes found).
Proof.
  unfold buildSpanFromNode. cbv zeta. intros Hrun.
  assert (Hnone : forall (found0 : Entities),
             blocks found0 = [] -> attributes found0 = [] ->
             Forall (block_of_tree tree) (blocks found0)
             /\ Forall (attribute_kept tree) (attributes found0)).
  { intros found0 -> ->. split; constructor. }
  destruct (Type_ (data n)) eqn:Htype;
    try (apply ret_Some in Hrun; inversion Hrun; subst; apply Hnone; reflexivity).
  (* the document *)
  1: { x_inv Hrun. inversion Hrun; subst. apply Hnone; reflexivity. }
  (* the HTML nodes *)
  all: try (
    destruct (ParseFragment (Tokens (data n))) as [err|nodes];
      [apply ret_Some in Hrun; inversion Hrun; subst; apply Hnone; reflexivity|];
    match type of Hrun with
    | (if ?c then _ else _) _ = _ =>
        destruct c;
          [apply ret_Some in Hrun; inversion Hrun; subst; apply Hnone; reflexivity|]
    end;
    cbn [is_html_block_type bool_decide decide_rel] in Hrun;
    apply bind_Some in Hrun as (own & st1 & Hown & Hrun);
    assert (Hown' : Forall (block_of_tree tree) (blocks own)
                    /\ Forall (attribute_kept tree) (attributes own));
      [first
         [ apply ret_Some in Hown; inversion Hown; subst; apply Hnone; reflexivity
         | apply bind_Some in Hown as ([b attrs] & st0 & Hb & Hown);
           apply ret_Some in Hown; inversion Hown; subst; cbn;
           apply buildBlockFromNode_shape in Hb as (_ & _ & Hb & Hattrs);
           split; [constructor; [exact Hb|constructor]|exact Hattrs] ]
      |]).
  (* the text mark and the image *)
  all: try (
    x_inv Hrun;
    match type of Hrun with
    | (if ?c then _ else _) _ = _ => destruct c
    | match ?c with _ => _ end _ = _ => destruct c
    end;
    x_inv Hrun;
    try match type of Hrun with
        | (if ?c then _ else _) _ = _ => destruct c
        end;
    x_inv Hrun; inversion Hrun; subst; apply Hnone; reflexivity).
  (* the HTML nodes, after their own block *)
  all: match type of Hrun with
       | (if bool_decide ?P then _ else _) _ = _ =>
           destruct (bool_decide P) eqn:Hinline
       end.
  all: try (
    apply bind_Some in Hrun as (id & st2 & Hid & Hrun);
    apply bind_Some in Hrun as (updated & st3 & Hupdated & Hrun);
    apply bind_Some in Hrun as ([b attrs] & st4 & Hb & Hrun);
    apply ret_Some in Hrun; inversion Hrun; subst; cbn;
    apply buildBlockFromNode_shape in Hb as (_ & _ & Hb & Hattrs);
    destruct Hown' as [Hown1 Hown2];
    split; apply Forall_app; (split; [assumption|]);
      [constructor; [exact Hb|constructor]|exact Hattrs]).
  all: destruct nodes as [|first_node nodes'];
    [apply ret_Some in Hrun; inversion Hrun; subst; exact Hown'|].
  all: repeat match type of Hrun with
              | (if ?c then _ else _) _ = _ =>
                  destruct c;
                    [apply ret_Some in Hrun; inversion Hrun; subst; exact Hown'|]
              end.
  all: x_inv Hrun; inversion Hrun; subst; cbn; rewrite !app_nil_r; exact Hown'.
Qed.

(** The walker of [fromTree] adds rows of the tree only. *)
Lemma fromTree_walker_keeps tree ancestors n entering (s : Entities * XState)
    status n' s' :
  fromTree_walker indexAssetPath tree ancestors n entering s = Some (status, n', s') ->
  Forall (block_of_tree tree) (blocks s.1)
  /\ Forall (attribute_kept tree) (attributes s.1) ->
  Forall (block_of_tree tree) (blocks s'.1)
  /\ Forall (attribute_kept tree) (attributes s'.1).
Proof.
  destruct s as [found st]. unfold fromTree_walker. cbv zeta.
  intros Hrun [Hblocks Hattrs]. cbn [fst] in Hblocks, Hattrs.
  destruct entering; cbn [negb] in Hrun.
  2: { inversion Hrun; subst. split; assumption. }
  destruct (buildSpanFromNode _ _ _ _ _ _ _ _) as [[[[span_found walkStatus] n1] st1]|]
    eqn:Hspan; [|discriminate].
  apply buildSpanFromNode_kept in Hspan as [Hsb Hsa].
  destruct (buildAttributeFromNode _ _ _ _ _ _) as [[attrs st2]|] eqn:Hattr;
    [|discriminate].
  apply buildAttributeFromNode_kept in Hattr.
  assert (Hb1 : Forall (block_of_tree tree) (blocks (append found span_found))).
  { cbn. apply Forall_app. split; assumption. }
  assert (Ha1 : Forall (attribute_kept tree)
                       (attributes (append found span_found) ++ attrs)).
  { cbn. rewrite !Forall_app. repeat split; assumption. }
  destruct (negb (walkStatus =? -1)).
  { inversion Hrun; subst. split; assumption. }
  destruct (String.eqb "" (ID (data n1)) || negb (IsBlock n1)).
  { inversion Hrun; subst. split; assumption. }
  destruct (buildBlockFromNode _ _ _ _ _) as [[[b battrs] st3]|] eqn:Hb; [|discriminate].
  apply buildBlockFromNode_shape in Hb as (_ & _ & Hb & Hbattrs).
  inversion Hrun; subst. cbn [fst blocks attributes].
  split; apply Forall_app; (split; [assumption|]).
  - constructor; [exact Hb|constructor].
  - exact Hbattrs.
Qed.

(** X13.  Every block [fromTree] returns carries the identifier of the
    tree's root, the tree's box, path and readable path; every attribute
    it returns has an allow-listed name, the type "s" or "b", and the
    root identifier, box and path of the tree.  This holds for the
    blocks and attributes of the HTML nodes and of the converted inline
    HTML as well. *)
Theorem fromTree_rows_belong_to_the_tree
    (ancestors : list Node) (node : Node) (tree : Tree) (st : XState)
    (found : Entities) (st' : XState) :
  fromTree indexAssetPath ancestors node tree st = Some (found, st') ->
  Forall (block_of_tree tree) (blocks found)
  /\ Forall (fun a => allow_listed (Attribute.Name a)
                      /\ (Attribute.Type_ a = "s" \/ Attribute.Type_ a = "b")
                      /\ attribute_of_tree tree a) (attributes found).
Proof.
  intros Hrun. unfold fromTree in Hrun.
  pose proof (WalkAssigning_keeps (fromTree_walker indexAssetPath tree)
                (fun s : Entities * XState =>
                   Forall (block_of_tree tree) (blocks s.1)
                   /\ Forall (attribute_kept tree) (attributes s.1))
                (fun ancestors n entering s status n' s' Hcall =>
                   fromTree_walker_keeps tree ancestors n entering s status n' s' Hcall)
                node ancestors _ _ Hrun) as Hkeeps.
  apply Hkeeps. split; constructor.
Qed.
End RowsOfATree.

Section BlocksOfATree.
Import GoStrings Ast Extraction Indexing IndexingVocabulary.
Context `{Collaborators} `{SpanCollaborators}.
Variable indexAssetPath : bool.

(** On a node that is no HTML, [buildSpanFromNode] leaves the node as
    it is and builds no block and no attribute; an image and a text mark
    end the descent, every other node is left to the walker. *)
Lemma buildSpanFromNode_plain ancestors n tree rootID boxID p st found status n' st' :
  is_html_type (Type_ (data n)) = false ->
  buildSpanFromNode indexAssetPath ancestors n tree rootID boxID p st
    = Some (found, status, n', st') ->
  n' = n /\ blocks found = [] /\ attributes found = []
  /\ status = (if is_span_type (Type_ (data n)) then WalkSkipChildren else -1).
Proof.
  unfold buildSpanFromNode. cbv zeta. intros Hplain Hrun.
  destruct (Type_ (data n)) eqn:Htype; try discriminate Hplain;
    try (apply ret_Some in Hrun; inversion Hrun; subst; repeat split; reflexivity).
  all: x_inv Hrun;
    repeat (match type of Hrun with
            | (if ?c then _ else _) _ = _ => destruct c
            | match ?c with _ => _ end _ = _ => destruct c
            end; x_inv Hrun);
    inversion Hrun; subst; repeat split; reflexivity.
Qed.

Lemma fromTree_walker_leaving tree ancestors n (s : Entities * XState) :
  fromTree_walker indexAssetPath tree ancestors n false s = Some (WalkContinue, n, s).
Proof. destruct s as [found st]. reflexivity. Qed.

(** The walker on entering a node that is no HTML. *)
Lemma fromTree_walker_plain tree ancestors n found st status n' found' st' :
  is_html_type (Type_ (data n)) = false ->
  fromTree_walker indexAssetPath tree ancestors n true (found, st)
    = Some (status, n', (found', st')) ->
  n' = n
  /\ status = (if is_span_type (Type_ (data n)) then WalkSkipChildren else WalkContinue)
  /\ List.map Block.ID (blocks found')
     = List.map Block.ID (blocks found)
       ++ (if becomes_block n then [ID (data n)] else []).
Proof.
  intros Hplain. unfold fromTree_walker. cbv zeta. cbn [negb]. intros Hrun.
  destruct (buildSpanFromNode _ _ _ _ _ _ _ _) as [[[[span_found walkStatus] n1] st1]|]
    eqn:Hspan; [|discriminate].
  apply buildSpanFromNode_plain in Hspan as (-> & Hb & Ha & Hstatus); [|exact Hplain].
  destruct (buildAttributeFromNode _ _ _ _ _ _) as [[attrs st2]|] eqn:Hattr;
    [|discriminate].
  unfold becomes_block.
  destruct (is_span_type (Type_ (data n))) eqn:Hspan; subst walkStatus.
  - cbn in Hrun. inversion Hrun; subst. cbn. rewrite Hb, !app_nil_r. auto.
  - cbn [negb Z.eqb] in Hrun. cbn [negb andb].
    destruct (String.eqb "" (ID (data n))); cbn [orb negb andb] in *.
    { inversion Hrun; subst. cbn. rewrite Hb, !app_nil_r. auto. }
    destruct (IsBlock n); cbn [negb] in *.
    2: { inversion Hrun; subst. cbn. rewrite Hb, !app_nil_r. auto. }
    destruct (buildBlockFromNode _ _ _ _ _) as [[[b battrs] st3]|] eqn:Hblock;
      [|discriminate].
    apply buildBlockFromNode_shape in Hblock as (Hid & _).
    inversion Hrun; subst. cbn. rewrite Hb, app_nil_r, map_app. cbn.
    rewrite Hid. auto.
Qed.

(** The identifiers of the blocks a walk adds, when no node it enters
    is HTML. *)
Lemma walk_blocks tree (n : Node) :
  forall ancestors found st found' st',
    Forall (fun m => is_html_type (Type_ (data m)) = false) (entered n) ->
    WalkAssigning (fromTree_walker indexAssetPath tree) ancestors n (found, st)
      = Some (found', st') ->
    List.map Block.ID (blocks found')
    = List.map Block.ID (blocks found)
      ++ List.map (fun m => ID (data m)) (List.filter becomes_block (entered n)).
Proof.
  induction n as [d cs IH] using Node_children_ind.
  intros ancestors found st found' st' Hplain Hwalk.
  rewrite WalkAssigning_unfold in Hwalk.
  destruct (fromTree_walker _ _ _ _ true _) as [[[status n1] [found1 st1]]|] eqn:Henter;
    [|discriminate].
  cbn [entered] in Hplain |- *. apply Forall_cons in Hplain as [Hn Hbelow].
  apply fromTree_walker_plain in Henter as (-> & Hstatus & Hids); [|exact Hn].
  cbn [data Type_] in Hstatus, Hbelow |- *. cbn [List.filter].
  assert (Hhead : forall rest,
             List.map (fun m => ID (data m))
                      (if becomes_block (MkNode d cs) then MkNode d cs :: rest else rest)
             = (if becomes_block (MkNode d cs) then [ID (data (MkNode d cs))] else [])
               ++ List.map (fun m => ID (data m)) rest).
  { intros rest. destruct (becomes_block (MkNode d cs)); reflexivity. }
  rewrite Hhead, app_assoc, <- Hids. clear Hhead Hids.
  destruct (is_span_type (Type_ d)) eqn:Hspan; subst status.
  - change (WalkSkipChildren =? WalkStop) with false in Hwalk.
    change (WalkSkipChildren =? WalkSkipChildren) with true in Hwalk.
    cbv iota in Hwalk. rewrite fromTree_walker_leaving in Hwalk.
    inversion Hwalk; subst. cbn. rewrite app_nil_r. reflexivity.
  - change (WalkContinue =? WalkStop) with false in Hwalk.
    change (WalkContinue =? WalkSkipChildren) with false in Hwalk.
    cbv iota in Hwalk. cbn [Children] in Hwalk.
    destruct (WalkAssigningChildren _ _ cs (found1, st1)) as [[found2 st2]|] eqn:Hchildren;
      [|discriminate].
    rewrite fromTree_walker_leaving in Hwalk. inversion Hwalk; subst found2 st2.
    clear Hwalk Hn. revert found1 st1 Hchildren.
    generalize (MkNode d cs :: ancestors) as ancestors'.
    induction IH as [|c cs' Hc _ IHcs]; intros ancestors' found1 st1 Hchildren;
      cbn [WalkAssigningChildren] in Hchildren.
    + inversion Hchildren; subst. cbn. rewrite app_nil_r. reflexivity.
    + destruct (WalkAssigning _ ancestors' c (found1, st1)) as [[found2 st2]|] eqn:Hwalk;
        [|discriminate].
      cbn [List.map concat] in Hbelow |- *.
      apply Forall_app in Hbelow as [Hplain_c Hplain_cs].
      rewrite List.filter_app, List.map_app, app_assoc.
      rewrite <- (Hc _ _ _ _ _ Hplain_c Hwalk).
      exact (IHcs Hplain_cs _ _ _ Hchildren).
Qed.

(** X14.  For a tree in which no node the walk enters is HTML (an HTML
    block, inline HTML, an inline frame, a widget, audio or video),
    [fromTree] returns one block for every entered node that has an
    identifier, is a block and is neither an image nor a text mark, and
    only those, in document order, each under the identifier of its
    node.  The walk does not go below an image or a text mark. *)
Theorem fromTree_blocks_in_document_order
    (ancestors : list Node) (node : Node) (tree : Tree) (st : XState)
    (found : Entities) (st' : XState) :
  Forall (fun n => is_html_type (Type_ (data n)) = false) (entered node) ->
  fromTree indexAssetPath ancestors node tree st = Some (found, st') ->
  List.map Block.ID (blocks found)
  = List.map (fun n => ID (data n)) (List.filter becomes_block (entered node)).
Proof.
  intros Hplain Hrun. unfold fromTree in Hrun.
  exact (walk_blocks tree node ancestors no_entities st found st' Hplain Hrun).
Qed.
End BlocksOfATree.

Section SpansOfATree.
Import GoStrings Ast Extraction Indexing IndexingVocabulary.
Context `{Collaborators} `{SpanCollaborators}.
Variable indexAssetPath : bool.

(** A walk that the walker ends on entering the node, without a look at
    the children. *)
Lemma WalkAssigning_skip tree ancestors n (s s1 : Entities * XState) n1 :
  fromTree_walker indexAssetPath tree ancestors n true s = Some (WalkSkipChildren, n1, s1) ->
  WalkAssigning (fromTree_walker indexAssetPath tree) ancestors n s = Some s1.
Proof.
  intros Henter. rewrite WalkAssigning_unfold, Henter.
  change (WalkSkipChildren =? WalkStop) with false.
  change (WalkSkipChildren =? WalkSkipChildren) with true.
  cbv iota. rewrite fromTree_walker_leaving. reflexivity.
Qed.

(** A walk that goes on below the node. *)
Lemma WalkAssigning_continue tree ancestors n (s s1 : Entities * XState) n1 :
  fromTree_walker indexAssetPath tree ancestors n true s = Some (WalkContinue, n1, s1) ->
  WalkAssigning (fromTree_walker indexAssetPath tree) ancestors n s
  = WalkAssigningChildren (fromTree_walker indexAssetPath tree) (n1 :: ancestors)
                          (Children n) s1.
Proof.
  intros Henter. rewrite WalkAssigning_unfold, Henter.
  change (WalkContinue =? WalkStop) with false.
  change (WalkContinue =? WalkSkipChildren) with false.
  cbv iota.
  destruct (WalkAssigningChildren _ _ _ _) as [s2|]; [|reflexivity].
  rewrite fromTree_walker_leaving. reflexivity.
Qed.

Lemma WalkAssigning_panic tree ancestors n (s : Entities * XState) :
  fromTree_walker indexAssetPath tree ancestors n true s = None ->
  WalkAssigning (fromTree_walker indexAssetPath tree) ancestors n s = None.
Proof. intros Henter. rewrite WalkAssigning_unfold, Henter. reflexivity. Qed.

(** No attribute is read off a node that is no IAL node. *)
Lemma buildAttributeFromNode_other ancestors n rootID boxID p st :
  Type_ (data n) <> NodeKramdownSpanIAL -> Type_ (data n) <> NodeKramdownBlockIAL ->
  buildAttributeFromNode ancestors n rootID boxID p st = Some ([], st).
Proof.
  intros Hs Hb. unfold buildAttributeFromNode.
  destruct (Type_ (data n)); try reflexivity; contradiction.
Qed.

(** X15.  An image and a text mark are stored as one span of their
    parent block, with a fresh identifier, and as at most one asset of
    that block; the walk of [fromTree] ends there, so that nothing below
    them is stored, and no block and no attribute is built for them.
    Without a parent block, [fromTree] panics. *)
Theorem image_and_text_mark_give_one_span
    (ancestors : list Node) (n : Node) (tree : Tree) (st : XState) :
  is_span_type (Type_ (data n)) = true ->
  match ParentBlock ancestors n with
  | None => fromTree indexAssetPath ancestors n tree st = None
  | Some parentBlock =>
      exists span found st',
        fromTree indexAssetPath ancestors n tree st = Some (found, st')
        /\ blocks found = [] /\ attributes found = [] /\ spans found = [span]
        /\ Span.ID span = node_id (next_id st)
        /\ Span.BlockID span = ID (data parentBlock)
        /\ Span.RootID span = ID (data (Root tree))
        /\ Span.Box span = Box tree /\ Span.Path span = Path tree
        /\ (assets found = []
            \/ exists asset,
                 assets found = [asset]
                 /\ Asset.ID asset = node_id (Datatypes.S (next_id st))
                 /\ Asset.BlockID asset = ID (data parentBlock)
                 /\ Asset.RootID asset = ID (data (Root tree))
                 /\ Asset.Box asset = Box tree /\ Asset.DocPath asset = Path tree)
        /\ ocr_queue st' = ocr_queue st
  end.
Proof.
  intros Hspan. unfold fromTree.
  assert (Htype : Type_ (data n) = NodeImage \/ Type_ (data n) = NodeTextMark).
  { unfold is_span_type in Hspan. apply orb_prop in Hspan as [Hi|Hm];
      [left|right]; exact (bool_decide_eq_true_1 _ Hi) || exact (bool_decide_eq_true_1 _ Hm). }
  assert (Hattr : forall st1,
             buildAttributeFromNode ancestors n (ID (data (Root tree))) (Box tree)
                                    (Path tree) st1 = Some ([], st1)).
  { intros st1. apply buildAttributeFromNode_other; destruct Htype as [Ht|Ht];
      rewrite Ht; discriminate. }
  destruct (ParentBlock ancestors n) as [parentBlock|] eqn:Hparent.
  - assert (Hbuild : exists span found st',
               buildSpanFromNode indexAssetPath ancestors n tree (ID (data (Root tree)))
                                 (Box tree) (Path tree) st
               = Some (found, WalkSkipChildren, n, st')
               /\ blocks found = [] /\ attributes found = [] /\ spans found = [span]
               /\ Span.ID span = node_id (next_id st)
               /\ Span.BlockID span = ID (data parentBlock)
               /\ Span.RootID span = ID (data (Root tree))
               /\ Span.Box span = Box tree /\ Span.Path span = Path tree
               /\ (assets found = []
                   \/ exists asset,
                        assets found = [asset]
                        /\ Asset.ID asset = node_id (Datatypes.S (next_id st))
                        /\ Asset.BlockID asset = ID (data parentBlock)
                        /\ Asset.RootID asset = ID (data (Root tree))
                        /\ Asset.Box asset = Box tree /\ Asset.DocPath asset = Path tree)
               /\ ocr_queue st' = ocr_queue st).
    { unfold buildSpanFromNode. cbv zeta. rewrite Hparent.
      destruct Htype as [Ht|Ht]; rewrite Ht;
        unfold bind at 1; unfold NewNodeID at 1; unfold bind at 1;
        unfold deref_ID at 1; unfold ret at 1.
      - destruct (ChildByType n NodeLinkDest) as [destNode|].
        + destruct (negb (IsAssetLinkDest (Tokens (data destNode)))).
          * eexists _, _, _. split; [reflexivity|]. cbn. repeat split. left. reflexivity.
          * unfold new_asset, bind, NewNodeID, ret. cbv zeta.
            eexists _, _, _. split; [reflexivity|]. cbn. repeat split.
            right. eexists. repeat split.
        + eexists _, _, _. split; [reflexivity|]. cbn. repeat split. left. reflexivity.
      - destruct (IsTextMarkType n "a" && IsAssetLinkDest (TextMarkAHref (data n))).
        + unfold new_asset, bind, NewNodeID, ret. cbv zeta.
          eexists _, _, _. split; [reflexivity|]. cbn. repeat split.
          right. eexists. repeat split.
        + eexists _, _, _. split; [reflexivity|]. cbn. repeat split. left. reflexivity. }
    destruct Hbuild as (span & found & st' & Hbuild & Hb & Ha & Hs & Hrest).
    exists span, found, st'.
    split; [|rewrite Hb, Ha, Hs; repeat split; apply Hrest].
    erewrite WalkAssigning_skip; [reflexivity|].
    unfold fromTree_walker. cbv zeta. cbn [negb]. rewrite Hbuild, Hattr.
    change (negb (WalkSkipChildren =? -1)) with true. cbv iota.
    destruct found as [fb fs fa ft]. cbn in Hb, Ha. subst fb ft. reflexivity.
  - apply WalkAssigning_panic.
    unfold fromTree_walker. cbv zeta. cbn [negb].
    assert (Hbuild : buildSpanFromNode indexAssetPath ancestors n tree
                       (ID (data (Root tree))) (Box tree) (Path tree) st = None).
    { unfold buildSpanFromNode. cbv zeta. rewrite Hparent.
      destruct Htype as [Ht|Ht]; rewrite Ht; reflexivity. }
    rewrite Hbuild. reflexivity.
Qed.
End SpansOfATree.

Section HTMLOfATree.
Import GoStrings Ast Extraction Indexing IndexingVocabulary.
Context `{Collaborators} `{SpanCollaborators}.
Variable indexAssetPath : bool.

(** Under a parent, [buildBlockFromNode] returns. *)
Lemma buildBlockFromNode_returns parent ancestors n tree st :
  exists block attrs st',
    buildBlockFromNode indexAssetPath (parent :: ancestors) n tree st
    = Some (block, attrs, st').
Proof.
  unfold buildBlockFromNode. cbv zeta.
  match goal with
  | |- context [bind ?F ?K st] => set (fields := F); set (rest := K)
  end.
  assert (Hfields : exists f st1, fields st = Some (f, st1)).
  { unfold fields. destruct (decide (Type_ (data n) = NodeDocument)).
    - eexists _, _. reflexivity.
    - unfold bind, queue_unless_OCRed, PushNodeOCRQueue, parentID_of, bind, deref_ID,
        Parent, ret, panic.
      destruct (IsContainerBlock n); destruct (negb (IsNodeOCRed n));
        try destruct (negb (IsNodeOCRed (FirstLeafBlock n)));
        cbn [head]; eexists _, _; reflexivity. }
  destruct Hfields as ([[[[content fcontent] markdown] parentID] length] & st1 & Hf).
  unfold bind at 1. rewrite Hf. unfold rest.
  match goal with
  | |- context [attributes_of ?es ?typ (ret ?bid) ?r ?b ?p] =>
      destruct (attributes_of_returns es typ bid r b p st1) as (attrs & st' & Hrun & _)
  end.
  unfold bind. rewrite Hrun. eexists _, _, _. reflexivity.
Qed.

(** The time of creation of a block is read off the identifier of its
    node. *)
Lemma buildBlockFromNode_created ancestors n tree st block attrs st' :
  buildBlockFromNode indexAssetPath ancestors n tree st = Some (block, attrs, st') ->
  Block.Created block = TimeFromID (ID (data n)).
Proof.
  unfold buildBlockFromNode. cbv zeta.
  match goal with
  | |- context [bind ?F ?K st] => set (fields := F); set (rest := K)
  end.
  intros Hrun. unfold bind at 1 in Hrun.
  destruct (fields st) as [[[[[[content fcontent] markdown] parentID] length] st1]|];
    [|discriminate].
  unfold rest, bind in Hrun.
  match type of Hrun with
  | match ?run with _ => _ end = _ => destruct run as [[attrs0 st2]|]; [|discriminate]
  end.
  inversion Hrun; subst block attrs st'. reflexivity.
Qed.

(** The walker on a node for which [buildSpanFromNode] settles the
    status, and which is no IAL node. *)
Lemma fromTree_walker_settled tree ancestors n st span_found status n1 st1 :
  buildSpanFromNode indexAssetPath ancestors n tree (ID (data (Root tree))) (Box tree)
                    (Path tree) st = Some (span_found, status, n1, st1) ->
  status <> -1 ->
  Type_ (data n1) <> NodeKramdownSpanIAL -> Type_ (data n1) <> NodeKramdownBlockIAL ->
  fromTree_walker indexAssetPath tree ancestors n true (no_entities, st)
  = Some (status, n1, (span_found, st1)).
Proof.
  intros Hspan Hstatus Hs Hb. unfold fromTree_walker. cbv zeta. cbn [negb].
  rewrite Hspan, (buildAttributeFromNode_other _ _ _ _ _ _ Hs Hb).
  destruct (status =? -1) eqn:Heq; [apply Z.eqb_eq in Heq; contradiction|].
  cbn [negb]. destruct span_found as [fb fs fa ft]. cbn. rewrite app_nil_r. reflexivity.
Qed.

(** X16.  A node [buildSpanFromNode] handles as HTML and whose tokens
    do not parse, or parse into no node, leaves nothing in the result of
    [fromTree], whatever its identifier: the result is that of its
    children.  The one exception is the HTML block that parses into no
    node: its block is built, and nothing else. *)
Theorem html_without_nodes_leaves_no_block
    (ancestors : list Node) (n : Node) (tree : Tree) (st : XState) :
  is_html_type (Type_ (data n)) = true ->
  (forall first_node nodes, ParseFragment (Tokens (data n)) <> inr (first_node :: nodes)) ->
  fromTree indexAssetPath ancestors n tree st
  = match ParseFragment (Tokens (data n)), decide (Type_ (data n) = NodeHTMLBlock) with
    | inr _, left _ =>
        match buildBlockFromNode indexAssetPath ancestors n tree st with
        | None => None
        | Some (b, attrs, st1) =>
            WalkAssigningChildren (fromTree_walker indexAssetPath tree) (n :: ancestors)
              (Children n)
              ({| blocks := [b]; spans := []; assets := []; attributes := attrs |}, st1)
        end
    | _, _ =>
        WalkAssigningChildren (fromTree_walker indexAssetPath tree) (n :: ancestors)
          (Children n) (no_entities, st)
    end.
Proof.
  intros Hhtml Hnone. unfold fromTree.
  assert (Hs : Type_ (data n) <> NodeKramdownSpanIAL).
  { intros Ht. rewrite Ht in Hhtml. discriminate. }
  assert (Hb : Type_ (data n) <> NodeKramdownBlockIAL).
  { intros Ht. rewrite Ht in Hhtml. discriminate. }
  assert (Hnothing :
            buildSpanFromNode indexAssetPath ancestors n tree (ID (data (Root tree)))
              (Box tree) (Path tree) st = Some (no_entities, WalkContinue, n, st) ->
            WalkAssigning (fromTree_walker indexAssetPath tree) ancestors n (no_entities, st)
            = WalkAssigningChildren (fromTree_walker indexAssetPath tree) (n :: ancestors)
                (Children n) (no_entities, st)).
  { intros Hspan. apply WalkAssigning_continue.
    apply fromTree_walker_settled; [exact Hspan|discriminate|exact Hs|exact Hb]. }
  destruct (ParseFragment (Tokens (data n))) as [err|[|first_node nodes]] eqn:Hparse.
  - (* the tokens do not parse *)
    assert (Hspan : buildSpanFromNode indexAssetPath ancestors n tree
                      (ID (data (Root tree))) (Box tree) (Path tree) st
                    = Some (no_entities, WalkContinue, n, st)).
    { unfold buildSpanFromNode. cbv zeta. rewrite Hparse.
      destruct (Type_ (data n)); try discriminate Hhtml; reflexivity. }
    rewrite (Hnothing Hspan). reflexivity.
  - (* no node *)
    destruct (decide (Type_ (data n) = NodeHTMLBlock)) as [Hblock|Hother].
    + destruct (buildBlockFromNode indexAssetPath ancestors n tree st)
        as [[[b attrs] st1]|] eqn:Hbuild.
      * erewrite WalkAssigning_continue; [reflexivity|].
        apply fromTree_walker_settled; [|discriminate|exact Hs|exact Hb].
        unfold buildSpanFromNode. cbv zeta. rewrite Hparse, Hblock.
        change (1 >? Z.of_nat (length [])) with true.
        change (bool_decide (NodeHTMLBlock = NodeHTMLBlock)) with true.
        change (bool_decide (NodeHTMLBlock = NodeInlineHTML)) with false.
        cbn [andb negb is_html_block_type].
        unfold bind at 1. unfold bind at 1. rewrite Hbuild. reflexivity.
      * apply WalkAssigning_panic.
        unfold fromTree_walker. cbv zeta. cbn [negb].
        unfold buildSpanFromNode. cbv zeta. rewrite Hparse, Hblock.
        change (1 >? Z.of_nat (length [])) with true.
        change (bool_decide (NodeHTMLBlock = NodeHTMLBlock)) with true.
        change (bool_decide (NodeHTMLBlock = NodeInlineHTML)) with false.
        cbn [andb negb is_html_block_type].
        unfold bind at 1. unfold bind at 1. rewrite Hbuild. reflexivity.
    + apply Hnothing.
      unfold buildSpanFromNode. cbv zeta. rewrite Hparse.
      destruct (Type_ (data n)); try discriminate Hhtml; try reflexivity.
      contradiction.
  - exfalso. exact (Hnone first_node nodes eq_refl).
Qed.

(** X17.  An inline HTML node whose tokens parse into a node is stored
    as a block of its own: [fromTree] draws a fresh identifier, assigns
    it to the node, and stores the block under that identifier with the
    type [NodeHTMLBlock.String()], the name of the type and not its
    abbreviation; the children are walked below the node as assigned.
    The first fourteen bytes of the identifier are read: with a shorter
    identifier [fromTree] panics. *)
Theorem inline_html_becomes_a_block
    (ancestors : list Node) (n : Node) (tree : Tree) (st : XState)
    (first_node : list (string * string)) (nodes : list (list (string * string))) :
  Type_ (data n) = NodeInlineHTML ->
  ParseFragment (Tokens (data n)) = inr (first_node :: nodes) ->
  (len (node_id (next_id st)) < 14 ->
   fromTree indexAssetPath ancestors n tree st = None)
  /\ (14 <= len (node_id (next_id st)) -> ancestors <> [] ->
      exists b attrs n' st1,
        fromTree indexAssetPath ancestors n tree st
        = WalkAssigningChildren (fromTree_walker indexAssetPath tree) (n' :: ancestors)
            (Children n)
            ({| blocks := [b]; spans := []; assets := []; attributes := attrs |}, st1)
        /\ ID (data n') = node_id (next_id st)
        /\ Type_ (data n') = NodeInlineHTML
        /\ Children n' = Children n
        /\ Block.ID b = node_id (next_id st)
        /\ Block.Type_ b = NodeTypeString NodeHTMLBlock
        /\ Block.Created b = TimeFromID (node_id (next_id st))).
Proof.
  intros Htype Hparse. unfold fromTree.
  assert (Hspan : buildSpanFromNode indexAssetPath ancestors n tree
                    (ID (data (Root tree))) (Box tree) (Path tree) st
                  = match IalText.slice_to_checked (node_id (next_id st)) 14 with
                    | None => None
                    | Some updated =>
                        let n' :=
                          assign_ID_IAL n (node_id (next_id st))
                            (SetIALAttr
                               (SetIALAttr (KramdownIAL (data n)) "id"
                                           (node_id (next_id st)))
                               "updated" updated) in
                        match buildBlockFromNode indexAssetPath ancestors n' tree
                                {| next_id := Datatypes.S (next_id st);
                                   ocr_queue := ocr_queue st |} with
                        | None => None
                        | Some (b, attrs, st1) =>
                            Some ({| blocks := [assign_Type b (NodeTypeString NodeHTMLBlock)];
                                     spans := []; assets := []; attributes := attrs |},
                                  WalkContinue, n', st1)
                        end
                    end).
  { unfold buildSpanFromNode. cbv zeta. rewrite Htype, Hparse.
    assert (Hsome : (1 >? Z.of_nat (length (first_node :: nodes))) = false).
    { rewrite Z.gtb_ltb. apply Z.ltb_ge. cbn [length]. lia. }
    rewrite Hsome.
    change (bool_decide (NodeInlineHTML = NodeInlineHTML)) with true.
    cbn [andb is_html_block_type].
    unfold bind at 1. unfold ret at 1. unfold bind at 1. unfold NewNodeID at 1.
    unfold bind at 1. unfold slice_to_or_panic.
    destruct (IalText.slice_to_checked (node_id (next_id st)) 14) as [updated|];
      [|reflexivity].
    unfold ret at 1. unfold bind at 1.
    destruct (buildBlockFromNode _ _ _ _ _) as [[[b attrs] st1]|]; reflexivity. }
  split.
  - intros Hshort. apply WalkAssigning_panic.
    unfold fromTree_walker. cbv zeta. cbn [negb]. rewrite Hspan.
    unfold IalText.slice_to_checked.
    destruct (14 <=? len (node_id (next_id st))) eqn:Hle; [apply Z.leb_le in Hle; lia|].
    rewrite andb_false_r. reflexivity.
  - intros Hlong Hparent. destruct ancestors as [|parent ancestors']; [contradiction|].
    unfold IalText.slice_to_checked in Hspan.
    destruct (14 <=? len (node_id (next_id st))) eqn:Hle;
      [|apply Z.leb_gt in Hle; lia].
    change (0 <=? 14) with true in Hspan. cbn [andb] in Hspan. cbv zeta in Hspan.
    match type of Hspan with
    | _ = match buildBlockFromNode _ _ ?n' _ ?st0 with _ => _ end =>
        destruct (buildBlockFromNode_returns parent ancestors' n' tree st0)
          as (b & attrs & st1 & Hbuild);
        pose proof (buildBlockFromNode_shape _ _ _ _ _ _ _ _ Hbuild) as (Hid & _);
        pose proof (buildBlockFromNode_created _ _ _ _ _ _ _ Hbuild) as Hcreated;
        rewrite Hbuild in Hspan;
        exists (assign_Type b (NodeTypeString NodeHTMLBlock)), attrs, n', st1
    end.
    split.
    { apply WalkAssigning_continue.
      apply fromTree_walker_settled; [exact Hspan|discriminate| |];
        cbn; rewrite Htype; discriminate. }
    cbn. repeat split; assumption.
Qed.
End HTMLOfATree.

Section TreeExamples.
Import GoStrings Ast Extraction Indexing IndexingVocabulary Vocabulary Sample IndexingSample.

(** X13 at work on a document with a video, an empty HTML block and a
    named paragraph. *)
Lemma fromTree_rows_belong_to_the_tree_witness :
  exists found st',
    fromTree false [] (Root doc_html) doc_html start = Some (found, st')
    /\ List.map Block.ID (blocks found) = ["doc1"; "V"; "H"; "A"]
    /\ List.map Attribute.Name (attributes found) = ["custom-k"; "name"]
    /\ Forall (block_of_tree doc_html) (blocks found)
    /\ Forall (fun a => allow_listed (Attribute.Name a)
                        /\ (Attribute.Type_ a = "s" \/ Attribute.Type_ a = "b")
                        /\ attribute_of_tree doc_html a) (attributes found).
Proof.
  do 2 eexists. split; [vm_compute; reflexivity|].
  split; [reflexivity|]. split; [reflexivity|].
  eapply (fromTree_rows_belong_to_the_tree false [] (Root doc_html) doc_html start).
  vm_compute. reflexivity.
Defined.

(** X14 at work: the document, the paragraph with the link and the
    image, and the named paragraph. *)
Lemma fromTree_blocks_in_document_order_witness :
  exists found st',
    fromTree false [] (Root doc_media) doc_media start = Some (found, st')
    /\ List.map Block.ID (blocks found) = ["doc1"; "M"; "A"].
Proof.
  do 2 eexists. split; [vm_compute; reflexivity|].
  refine (fromTree_blocks_in_document_order false [] (Root doc_media) doc_media start
            _ _ _ _).
  - vm_compute.
    repeat match goal with
           | |- Forall _ (_ :: _) => constructor; [reflexivity|]
           | |- Forall _ [] => constructor
           end.
  - vm_compute. reflexivity.
Defined.

(** X15 at work on the link of the paragraph: one span and one asset of
    the paragraph. *)
Lemma image_and_text_mark_give_one_span_witness :
  exists span found st',
    fromTree false [paragraph_media; Root doc_media] (link "assets/a.pdf" "the paper")
             doc_media start = Some (found, st')
    /\ blocks found = [] /\ attributes found = [] /\ spans found = [span]
    /\ Span.ID span = node_id (next_id start)
    /\ Span.BlockID span = ID (data paragraph_media)
    /\ Span.RootID span = ID (data (Root doc_media))
    /\ Span.Box span = Box doc_media /\ Span.Path span = Path doc_media
    /\ (assets found = []
        \/ exists asset,
             assets found = [asset]
             /\ Asset.ID asset = node_id (Datatypes.S (next_id start))
             /\ Asset.BlockID asset = ID (data paragraph_media)
             /\ Asset.RootID asset = ID (data (Root doc_media))
             /\ Asset.Box asset = Box doc_media /\ Asset.DocPath asset = Path doc_media)
    /\ ocr_queue st' = ocr_queue start.
Proof.
  exact (image_and_text_mark_give_one_span false [paragraph_media; Root doc_media]
           (link "assets/a.pdf" "the paper") doc_media start eq_refl).
Defined.

(** X16 at work: the inline frame without a node leaves no block; the
    paragraph below it does. *)
Lemma html_without_nodes_leaves_no_block_witness :
  fromTree false [Root doc_html] empty_iframe doc_html start
  = WalkAssigningChildren (fromTree_walker false doc_html) [empty_iframe; Root doc_html]
      (Children empty_iframe) (no_entities, start)
  /\ option_map (fun r => List.map Block.ID (blocks r.1))
                (fromTree false [Root doc_html] empty_iframe doc_html start)
     = Some ["P"].
Proof.
  split; [|vm_compute; reflexivity].
  refine (html_without_nodes_leaves_no_block false [Root doc_html] empty_iframe doc_html
            start eq_refl _).
  intros first_node nodes Hparse. vm_compute in Hparse. discriminate Hparse.
Defined.

(** X17 at work: with the identifier ["id"] the conversion panics; with
    an identifier of fourteen bytes the block is stored under it. *)
Lemma inline_html_becomes_a_block_witness :
  fromTree false [Root doc_html] inline_html doc_html start = None
  /\ exists b attrs n' st1,
       fromTree false [Root doc_html] inline_html doc_html after_twelve
       = WalkAssigningChildren (fromTree_walker false doc_html) [n'; Root doc_html]
           (Children inline_html)
           ({| blocks := [b]; spans := []; assets := []; attributes := attrs |}, st1)
       /\ ID (data n') = node_id (next_id after_twelve)
       /\ Type_ (data n') = NodeInlineHTML
       /\ Children n' = Children inline_html
       /\ Block.ID b = node_id (next_id after_twelve)
       /\ Block.Type_ b = NodeTypeString NodeHTMLBlock
       /\ Block.Created b = TimeFromID (node_id (next_id after_twelve)).
Proof.
  split.
  - refine (proj1 (inline_html_becomes_a_block false [Root doc_html] inline_html doc_html
                     start [("src", "assets/c.js")] [] eq_refl _) _).
    + vm_compute. reflexivity.
    + vm_compute. reflexivity.
  - refine (proj2 (inline_html_becomes_a_block false [Root doc_html] inline_html doc_html
                     after_twelve [("src", "assets/c.js")] [] eq_refl _) _ _).
    + vm_compute. reflexivity.
    + vm_compute. discriminate.
    + discriminate.
Defined.
End TreeExamples.
